(** * Hive-Social: the action-broadcasting layer, embedded in Rocq

    A shallow embedding of the write helpers ([SocialUtils]), of the
    components that call them ([Post], [FollowButton], [PostView],
    [CreatePost]) and of the session storage code ([App], [Login],
    [Navbar]), followed by the properties of the specification that
    can be settled on them.

    Conventions of the embedding:
    - a JavaScript string is a [string]; the string primitives below are
      the ECMAScript ones on the code units 0..255;
    - [undefined]/[null] is [None]; a falsy string is [None] or the empty
      string;
    - an [async] function returns the list of effects it performed
      together with the final state of its promise ([settled]);
    - a React handler is a function from the state captured by its closure
      to the state after its [set...] calls. *)

From Stdlib Require Import ZArith QArith Qround Lia Ascii Sorting.Sorted.
From stdpp Require Import base list strings pretty gmap.

Set Warnings "-register-all".
Local Open Scope Z_scope.

(* ===================================================================== *)
(** ** JavaScript values, strings and promises *)
(* ===================================================================== *)

Module JS.

(** An [Error] object: only its [message] is read by the code. *)
Record js_error := { err_message : option string }.

(** Normal or abrupt completion of a synchronous block. *)
Inductive completion (A : Type) :=
  | Normal (a : A)
  | Abrupt (e : js_error).
Arguments Normal {A} a.
Arguments Abrupt {A} e.

(** The final state of a promise. *)
Inductive settled (A : Type) :=
  | Fulfilled (a : A)
  | Rejected (e : js_error)
  | Pending.
Arguments Fulfilled {A} a.
Arguments Rejected {A} e.
Arguments Pending {A}.

(** What a callback-taking API of the environment does with the callback
    it was handed: invokes it with a value, throws synchronously, or never
    invokes it. *)
Inductive reaction (A : Type) :=
  | Replies (a : A)
  | Throws (e : js_error)
  | Silent.
Arguments Replies {A} a.
Arguments Throws {A} e.
Arguments Silent {A}.

(** [new Promise(resolve => api(..., r => resolve (k r)))]: an exception
    of the executor rejects the promise. *)
Definition new_Promise {A B : Type} (api : reaction A) (k : A → B) : settled B :=
  match api with
  | Replies a => Fulfilled (k a)
  | Throws e => Rejected e
  | Silent => Pending
  end.

(** [try { return body } catch (error) { return handler error }] inside an
    [async] function: [body] evaluates to the promise that is returned, or
    throws. Only the synchronous exception reaches [catch]; a returned
    promise is not awaited, so its rejection passes through. *)
Definition try_return {E A : Type}
    (body : completion (list E * settled A))
    (handler : js_error → list E * A) : list E * settled A :=
  match body with
  | Normal p => p
  | Abrupt e => let '(effs, a) := handler e in (effs, Fulfilled a)
  end.

(** Truthiness of a string value. *)
Definition truthy (s : string) : bool :=
  match s with
  | EmptyString => false
  | String _ _ => true
  end.

Definition truthy_opt (v : option string) : bool :=
  match v with
  | Some s => truthy s
  | None => false
  end.

(** [v || d] where [v] is a string or undefined. *)
Definition or_else (v : option string) (d : string) : string :=
  match v with
  | Some s => if truthy s then s else d
  | None => d
  end.

(** A JSON value, as handed to [JSON.stringify]. *)
Inductive json :=
  | JNull
  | JNum (n : Z)
  | JStr (s : string)
  | JArr (l : list json)
  | JObj (fields : list (string * json)).

(** Object spread: [{...o, k: v}] keeps the position of an existing key. *)
Fixpoint obj_set (k : string) (v : json) (o : list (string * json))
  : list (string * json) :=
  match o with
  | [] => [(k, v)]
  | (k', v') :: o' =>
      if String.eqb k k' then (k, v) :: o' else (k', v') :: obj_set k v o'
  end.

Definition obj_spread (o extra : list (string * json)) : list (string * json) :=
  fold_left (λ acc kv, obj_set kv.1 kv.2 acc) extra o.

(** *** Character classes of the regular expressions used *)

Definition code (c : ascii) : nat := nat_of_ascii c.

Definition between (lo hi : nat) (c : ascii) : bool :=
  (Nat.leb lo (code c)) && (Nat.leb (code c) hi).

(** [\s] and the white space removed by [trim]. *)
Definition is_space (c : ascii) : bool :=
  between 9 13 c || Nat.eqb (code c) 32 || Nat.eqb (code c) 160.

Definition is_digit (c : ascii) : bool := between 48 57 c.
Definition is_upper (c : ascii) : bool := between 65 90 c.
Definition is_lower (c : ascii) : bool := between 97 122 c.

(** [\w] *)
Definition is_word (c : ascii) : bool :=
  is_upper c || is_lower c || is_digit c || Nat.eqb (code c) 95.

Definition lower_char (c : ascii) : ascii :=
  if is_upper c || (between 192 222 c && negb (Nat.eqb (code c) 215))
  then ascii_of_nat (code c + 32)
  else c.

Fixpoint map_chars (f : ascii → ascii) (s : string) : string :=
  match s with
  | EmptyString => EmptyString
  | String c r => String (f c) (map_chars f r)
  end.

Fixpoint filter_chars (p : ascii → bool) (s : string) : string :=
  match s with
  | EmptyString => EmptyString
  | String c r => if p c then String c (filter_chars p r) else filter_chars p r
  end.

Fixpoint all_chars (p : ascii → bool) (s : string) : bool :=
  match s with
  | EmptyString => true
  | String c r => p c && all_chars p r
  end.

(** [s.toLowerCase()] *)
Definition toLowerCase (s : string) : string := map_chars lower_char s.

(** [s.trimStart()], [s.trimEnd()], [s.trim()] *)
Fixpoint trimStart (s : string) : string :=
  match s with
  | EmptyString => EmptyString
  | String c r => if is_space c then trimStart r else s
  end.

Fixpoint trimEnd (s : string) : string :=
  match s with
  | EmptyString => EmptyString
  | String c r =>
      match trimEnd r with
      | EmptyString => if is_space c then EmptyString else String c EmptyString
      | r' => String c r'
      end
  end.

Definition trim (s : string) : string := trimEnd (trimStart s).

(** [s.substring(0, n)] and [s.substring(a, b)] for [a <= b]. *)
Fixpoint take_chars (n : nat) (s : string) : string :=
  match n, s with
  | O, _ => EmptyString
  | S _, EmptyString => EmptyString
  | S n', String c r => String c (take_chars n' r)
  end.

Fixpoint drop_chars (n : nat) (s : string) : string :=
  match n, s with
  | O, _ => s
  | S _, EmptyString => EmptyString
  | S n', String _ r => drop_chars n' r
  end.

Definition substring (a b : nat) (s : string) : string :=
  take_chars (b - a) (drop_chars a s).

(** [s.replace(/\s+/g, '-')]: every maximal run of white space becomes one
    hyphen. [in_run] tells whether the previous character was white space. *)
Fixpoint hyphenate_from (in_run : bool) (s : string) : string :=
  match s with
  | EmptyString => EmptyString
  | String c r =>
      if is_space c
      then (if in_run then hyphenate_from true r
            else String "-"%char (hyphenate_from true r))
      else String c (hyphenate_from false r)
  end.

Definition hyphenate (s : string) : string := hyphenate_from false s.

(** [s.split(' ')]: consecutive separators give empty pieces. *)
Fixpoint split_from (sep : ascii) (cur : string) (s : string) : list string :=
  match s with
  | EmptyString => [cur]
  | String c r =>
      if Stdlib.Strings.Ascii.eqb c sep
      then cur :: split_from sep EmptyString r
      else split_from sep (cur +:+ String c EmptyString) r
  end.

Definition split (sep : ascii) (s : string) : list string :=
  split_from sep EmptyString s.

End JS.

(* ===================================================================== *)
(** ** The environment: signing agent, ledger client, effects *)
(* ===================================================================== *)

Module Env.
Import JS.

(** A ledger operation, the pair [[name, fields]] of the source. The JSON
    carried by an operation is kept as a [json] value: [JSON.stringify] is
    the serialisation of it. *)
Inductive operation :=
  | vote (voter author permlink : string) (weight : Z)
  | comment (parent_author parent_permlink author permlink title body : string)
            (json_metadata : json)
  | custom_json (required_auths required_posting_auths : list string)
                (id : string) (payload : json).

(** The object a signing-agent callback receives. *)
Record response := { resp_success : bool; resp_message : option string }.

(** The key object built by dhive's [PrivateKey.from]. *)
Record PrivateKey := { key_data : string }.

(** [window.hive_keychain]: what the agent does with each request. *)
Record keychain := {
  requestBroadcast : string → list operation → string → reaction response;
  requestPost : string → string → string → string → string → json → string
                → reaction response;
  requestComment : string → string → string → string → string → string → json
                   → reaction response;
  requestSignBuffer : string → string → string → reaction response
}.

Record window := { hive_keychain : option keychain }.

(** The dhive client: [client.database.call] and
    [client.broadcast.sendOperations], each returning a promise. *)
Record client := {
  database_call : string → list string → settled json;
  sendOperations : list operation → PrivateKey → settled json
}.

(** Observable effects, in program order. *)
Inductive effect :=
  | KeychainBroadcast (account : string) (ops : list operation) (authority : string)
  | KeychainPost (account permlink parent title body : string) (meta : json)
                 (authority : string)
  | KeychainComment (account parent_permlink parent_author permlink title body : string)
                    (meta : json)
  | KeychainSignBuffer (account memo authority : string)
  | DatabaseCall (method : string) (params : list string)
  | SendOperations (ops : list operation) (key : PrivateKey)
  | SetTimeout (ms : Z)
  | ClearTimeout (ms : Z)
  | Prompt (text : string)
  | Alert (text : string)
  | Navigate (path : string)
  | ConsoleError (label : string).

(** An effect that hands an operation to the signing agent or to a ledger
    endpoint. *)
Definition is_submission (e : effect) : bool :=
  match e with
  | KeychainBroadcast _ _ _ | KeychainPost _ _ _ _ _ _ _
  | KeychainComment _ _ _ _ _ _ _ | SendOperations _ _ => true
  | _ => false
  end.

Definition submissions (t : list effect) : list effect :=
  List.filter is_submission t.

End Env.

(* ===================================================================== *)
(** ** utils/SocialUtils *)
(* ===================================================================== *)

Module SocialUtils.
Import JS Env.

(** The object every helper resolves to; absent fields are [None]
    ([simulated] absent is [false]). *)
Record result := {
  success : bool;
  error : option string;
  simulated : bool;
  permlink : option string;
  isFollowing : option bool;
  followCount : option json
}.

Definition succeeded : result :=
  {| success := true; error := None; simulated := false; permlink := None;
     isFollowing := None; followCount := None |}.

Definition failed (msg : string) : result :=
  {| success := false; error := Some msg; simulated := false; permlink := None;
     isFollowing := None; followCount := None |}.

Definition with_simulated (r : result) : result :=
  {| success := success r; error := error r; simulated := true;
     permlink := permlink r; isFollowing := isFollowing r;
     followCount := followCount r |}.

Definition with_permlink (p : string) (r : result) : result :=
  {| success := success r; error := error r; simulated := simulated r;
     permlink := Some p; isFollowing := isFollowing r;
     followCount := followCount r |}.

(** The callback passed to [requestBroadcast]. *)
Definition on_broadcast (ok : result) (fallback : string) (r : response) : result :=
  if resp_success r then ok else failed (or_else (resp_message r) fallback).

(** The tail shared by the four write helpers: hand the operation to the
    agent when it is installed, otherwise wait [delay] ms and report a
    simulated success. *)
Definition via_keychain (w : window) (account : string) (op : operation)
    (ok : result) (fallback : string) (delay : Z) : list effect * settled result :=
  match hive_keychain w with
  | Some kc =>
      ([KeychainBroadcast account [op] "posting"],
       new_Promise (requestBroadcast kc account [op] "posting")
                   (on_broadcast ok fallback))
  | None => ([SetTimeout delay], Fulfilled (with_simulated ok))
  end.

Definition on_catch (label fallback : string) (e : js_error) : list effect * result :=
  ([ConsoleError label], failed (or_else (err_message e) fallback)).

(** [likePost(client, username, postAuthor, postPermlink, weight = 10000)] *)
Definition likePost (w : window) (c : option client) (username : option string)
    (postAuthor postPermlink : string) (weight : option Z)
  : list effect * settled result :=
  match c, username with
  | Some _, Some voter =>
      if truthy voter then
        try_return
          (let voteOp := vote voter postAuthor postPermlink (default 10000 weight) in
           Normal (via_keychain w voter voteOp succeeded
                     "Failed to vote with Keychain" 500))
          (on_catch "Error liking post:" "Failed to like post")
      else ([], Fulfilled (failed "Client or username not provided"))
  | _, _ => ([], Fulfilled (failed "Client or username not provided"))
  end.

(** [s.replace(/[^a-z0-9-]/g, '')] *)
Definition keep_slug_chars (s : string) : string :=
  filter_chars (λ ch, is_lower ch || is_digit ch || Nat.eqb (code ch) 45) s.

(** [parentPermlink.replace(...)] throws the engine's [TypeError] when
    [parentPermlink] is undefined. *)
Definition reply_permlink (type_error : js_error) (parentPermlink : option string)
    (now : N) : completion string :=
  match parentPermlink with
  | Some p => Normal ("re-" +:+ keep_slug_chars p +:+ "-" +:+ pretty now)
  | None => Abrupt type_error
  end.

(** [commentOnPost(client, username, parentAuthor, parentPermlink, body,
    options = {})]; [now] is [Date.now()]. *)
Definition commentOnPost (w : window) (type_error : js_error) (now : N)
    (c : option client) (username : option string) (parentAuthor : string)
    (parentPermlink : option string) (body : string)
    (options : list (string * json))
  : list effect * settled result :=
  match c, username with
  | Some _, Some author =>
      if truthy author then
        try_return
          (match reply_permlink type_error parentPermlink now with
           | Abrupt e => Abrupt e
           | Normal permlink =>
               let commentOp :=
                 comment parentAuthor (default "" parentPermlink) author permlink
                         "" body
                         (JObj (obj_spread [("app", JStr "hivesocial")] options)) in
               Normal (via_keychain w author commentOp
                         (with_permlink permlink succeeded)
                         "Failed to comment with Keychain" 800)
           end)
          (on_catch "Error commenting on post:" "Failed to comment on post")
      else ([], Fulfilled (failed "Client or username not provided"))
  | _, _ => ([], Fulfilled (failed "Client or username not provided"))
  end.

Definition follow_payload (follower following : string) (what : list string) : json :=
  JArr [JStr "follow";
        JObj [("follower", JStr follower); ("following", JStr following);
              ("what", JArr (JStr <$> what))]].

(** [followUser(client, follower, following)] *)
Definition followUser (w : window) (c : option client) (follower : option string)
    (following : string) : list effect * settled result :=
  match c, follower with
  | Some _, Some f =>
      if truthy f then
        try_return
          (let followOp :=
             custom_json [] [f] "follow" (follow_payload f following ["blog"]) in
           Normal (via_keychain w f followOp succeeded
                     "Failed to follow with Keychain" 600))
          (on_catch "Error following user:" "Failed to follow user")
      else ([], Fulfilled (failed "Client or follower not provided"))
  | _, _ => ([], Fulfilled (failed "Client or follower not provided"))
  end.

(** [unfollowUser(client, follower, following)] *)
Definition unfollowUser (w : window) (c : option client) (follower : option string)
    (following : string) : list effect * settled result :=
  match c, follower with
  | Some _, Some f =>
      if truthy f then
        try_return
          (let unfollowOp :=
             custom_json [] [f] "follow" (follow_payload f following []) in
           Normal (via_keychain w f unfollowOp succeeded
                     "Failed to unfollow with Keychain" 600))
          (on_catch "Error unfollowing user:" "Failed to unfollow user")
      else ([], Fulfilled (failed "Client or follower not provided"))
  | _, _ => ([], Fulfilled (failed "Client or follower not provided"))
  end.

(** [checkIfFollowing(client, follower, following)]; [rnd] is the value
    returned by [Math.random()]. The call is awaited inside [try], so its
    rejection reaches [catch]. *)
Definition checkIfFollowing (rnd : Q) (c : option client)
    (follower following : string) : list effect * settled result :=
  match c with
  | None => ([], Fulfilled (failed "Client not provided"))
  | Some cl =>
      let call := DatabaseCall "get_follow_count" [follower] in
      match database_call cl "get_follow_count" [follower] with
      | Fulfilled followCount =>
          ([call],
           Fulfilled {| success := true; error := None; simulated := false;
                        permlink := None;
                        isFollowing := Some (negb (Qle_bool rnd (1 # 2)));
                        followCount := Some followCount |})
      | Rejected e =>
          let '(effs, r) :=
            on_catch "Error checking follow status:" "Failed to check follow status" e in
          (call :: effs, Fulfilled r)
      | Pending => ([call], Pending)
      end
  end.

End SocialUtils.

(* ===================================================================== *)
(** ** components/Post: the vote button *)
(* ===================================================================== *)

Module Post.
Import JS Env.

(** The [user] object of the context; [user.name] may be undefined (it is
    for the plain string that [App] stores). *)
Record user := { name : option string }.

Record context := {
  client : option Env.client;
  ctx_user : option user;
  isKeychain : bool
}.

Record post := { author : string; permlink : string }.

Record state := { isVoting : bool; voteError : string; hasVoted : bool }.

(** The statements before [await likePost(...)]. *)
Definition handleVote_begin (st : state) : state :=
  {| isVoting := true; voteError := ""; hasVoted := hasVoted st |}.

(** The statements after the [await], with [finally]. While the promise
    is pending nothing runs. *)
Definition handleVote_settle (st : state) (o : settled SocialUtils.result) : state :=
  match o with
  | Fulfilled r =>
      if SocialUtils.success r
      then {| isVoting := false; voteError := voteError st; hasVoted := true |}
      else {| isVoting := false;
              voteError := or_else (SocialUtils.error r) "Failed to vote";
              hasVoted := hasVoted st |}
  | Rejected e =>
      {| isVoting := false;
         voteError := "Error voting: " +:+ default "undefined" (err_message e);
         hasVoted := hasVoted st |}
  | Pending => st
  end.

Definition handleVote (w : window) (ctx : context) (p : post) (st : state)
  : list effect * state :=
  match ctx_user ctx with
  | Some u =>
      if isKeychain ctx then
        let st1 := handleVote_begin st in
        let '(effs, o) :=
          SocialUtils.likePost w (client ctx) (name u) (author p) (permlink p) None in
        (effs, handleVote_settle st1 o)
      else ([Alert "Please login with Hive Keychain to vote"], st)
  | None => ([Alert "Please login with Hive Keychain to vote"], st)
  end.

End Post.

(* ===================================================================== *)
(** ** components/FollowButton *)
(* ===================================================================== *)

Module FollowButton.
Import JS Env.

Record context := { client : option Env.client; ctx_user : option Post.user }.

Record state := {
  isFollowing : bool;
  loading : bool;
  processing : bool;
  error : string
}.

(** [checkFollowStatus]: the flag shown is the one [checkIfFollowing]
    returned. *)
Definition checkFollowStatus_settle (st : state) (o : settled SocialUtils.result)
  : state :=
  match o with
  | Fulfilled r =>
      {| isFollowing := if SocialUtils.success r
                        then default false (SocialUtils.isFollowing r)
                        else isFollowing st;
         loading := false; processing := processing st; error := error st |}
  | Rejected _ =>
      {| isFollowing := isFollowing st; loading := false;
         processing := processing st; error := error st |}
  | Pending => st
  end.

Definition checkFollowStatus (rnd : Q) (ctx : context) (u : Post.user)
    (username : string) (st : state) : list effect * state :=
  let st1 := {| isFollowing := isFollowing st; loading := true;
                processing := processing st; error := "" |} in
  let '(effs, o) :=
    SocialUtils.checkIfFollowing rnd (client ctx) (default "" (Post.name u)) username in
  (effs, checkFollowStatus_settle st1 o).

Definition handleFollowToggle_begin (st : state) : state :=
  {| isFollowing := isFollowing st; loading := loading st;
     processing := true; error := "" |}.

(** [was] is the [isFollowing] captured by the closure of the handler. *)
Definition handleFollowToggle_settle (was : bool) (st : state)
    (o : settled SocialUtils.result) : state :=
  match o with
  | Fulfilled r =>
      if SocialUtils.success r
      then {| isFollowing := negb was; loading := loading st;
              processing := false; error := error st |}
      else {| isFollowing := isFollowing st; loading := loading st;
              processing := false;
              error := or_else (SocialUtils.error r)
                         ("Failed to " +:+ (if was then "unfollow" else "follow")
                          +:+ " user") |}
  | Rejected e =>
      {| isFollowing := isFollowing st; loading := loading st;
         processing := false;
         error := "Error " +:+ (if was then "unfollowing" else "following")
                  +:+ " user: " +:+ default "undefined" (err_message e) |}
  | Pending => st
  end.

Definition handleFollowToggle (w : window) (ctx : context) (username : string)
    (st : state) : list effect * state :=
  match ctx_user ctx with
  | None => ([Alert "Please login to follow users"], st)
  | Some u =>
      let st1 := handleFollowToggle_begin st in
      let '(effs, o) :=
        if isFollowing st
        then SocialUtils.unfollowUser w (client ctx) (Post.name u) username
        else SocialUtils.followUser w (client ctx) (Post.name u) username in
      (effs, handleFollowToggle_settle (isFollowing st) st1 o)
  end.

End FollowButton.

(* ===================================================================== *)
(** ** Timers and the state a component shows *)
(* ===================================================================== *)

Module Timers.
Import Env.

(** A timer armed with [setTimeout]: its id, the milliseconds left before
    it is due, and the callback (a tag interpreted by the component). *)
Record timer (A : Type) := { tid : positive; remaining : Z; act : A }.
Arguments tid {A} t.
Arguments remaining {A} t.
Arguments act {A} t.

(** A component between two turns of the event loop: the state it renders,
    the timers still armed, and the effects performed so far. Once the
    component has navigated to another page it is unmounted: [view] is then
    the state it held when it left, and no timer can change it. *)
Record world (S A : Type) := {
  view : S;
  timers : list (timer A);
  next_id : positive;
  trace : list effect
}.
Arguments view {S A} w.
Arguments timers {S A} w.
Arguments next_id {S A} w.
Arguments trace {S A} w.

Section World.
Context {S A : Type}.

Definition upd (f : S → S) (wd : world S A) : world S A :=
  {| view := f (view wd); timers := timers wd; next_id := next_id wd;
     trace := trace wd |}.

Definition emit (effs : list effect) (wd : world S A) : world S A :=
  {| view := view wd; timers := timers wd; next_id := next_id wd;
     trace := trace wd ++ effs |}.

Definition setTimeout (a : A) (ms : Z) (wd : world S A) : positive * world S A :=
  (next_id wd,
   {| view := view wd;
      timers := timers wd ++ [{| tid := next_id wd; remaining := ms; act := a |}];
      next_id := Pos.succ (next_id wd);
      trace := trace wd |}).

Definition clearTimeout (id : positive) (wd : world S A) : world S A :=
  {| view := view wd;
     timers := List.filter (λ t, negb (Pos.eqb (tid t) id)) (timers wd);
     next_id := next_id wd;
     trace := trace wd |}.

(** [fire] runs a timer callback on the state. *)
Variable fire : A → S → S * list effect.

(** The effects of a callback take the application to another page. *)
Definition navigates (effs : list effect) : bool :=
  existsb (λ e, match e with Navigate _ => true | _ => false end) effs.

(** The timers in the order in which they are due; timers due at the same
    time keep the order in which they were armed. *)
Fixpoint insert_due (t : timer A) (l : list (timer A)) : list (timer A) :=
  match l with
  | [] => [t]
  | x :: r => if remaining x <? remaining t then x :: insert_due t r else t :: x :: r
  end.

Definition by_due (l : list (timer A)) : list (timer A) := foldr insert_due [] l.

(** A timer whose callback still acts once the component is unmounted: one
    that navigates. The [set...] calls of a callback no longer reach an
    unmounted component. *)
Definition outlives (st : S) (t : timer A) : bool :=
  navigates (fire (act t) st).2.

(** The callbacks that are due, in order. A callback that navigates
    unmounts the component ([gone]): the state stays the one the callback
    left, the timers that only set state are dropped (the cleanup of the
    component clears the recorded one, the others do nothing any more), and
    a later callback that navigates still does so. *)
Fixpoint run_due (gone : bool) (due : list (timer A)) (wd : world S A)
  : world S A :=
  match due with
  | [] => wd
  | t :: rest =>
      let '(st, effs) := fire (act t) (view wd) in
      if navigates effs
      then run_due true rest
             {| view := if gone then view wd else st;
                timers := List.filter (outlives (view wd)) (timers wd);
                next_id := next_id wd;
                trace := trace wd ++ effs |}
      else if gone then run_due true rest wd
      else run_due false rest
             {| view := st; timers := timers wd; next_id := next_id wd;
                trace := trace wd ++ effs |}
  end.

(** [ms] milliseconds pass with no other event: the timers that became due
    run, the others are [ms] closer. *)
Definition elapse (ms : Z) (wd : world S A) : world S A :=
  let due := List.filter (λ t, remaining t <=? ms) (timers wd) in
  let later := List.filter (λ t, negb (remaining t <=? ms)) (timers wd) in
  run_due false (by_due due)
    {| view := view wd;
       timers := (λ t, {| tid := tid t; remaining := remaining t - ms;
                          act := act t |}) <$> later;
       next_id := next_id wd;
       trace := trace wd |}.

End World.
End Timers.

(* ===================================================================== *)
(** ** components/PostView: commenting through the agent *)
(* ===================================================================== *)

Module PostView.
Import JS Env Timers.

Record context := {
  client : option Env.client;
  user : option string;
  isKeychain : bool
}.

Record comment_item := {
  c_author : string; c_permlink : string; c_body : string; c_created : string
}.

Record state := {
  commentBody : string;
  submittingComment : bool;
  commentError : string;
  comments : list comment_item
}.

(** The component arms no timer. *)
Inductive timer_action := .

Definition fire (a : timer_action) (st : state) : state * list effect :=
  match a with end.

Definition set_commentError (msg : string) (st : state) : state :=
  {| commentBody := commentBody st; submittingComment := submittingComment st;
     commentError := msg; comments := comments st |}.

Definition set_submittingComment (b : bool) (st : state) : state :=
  {| commentBody := commentBody st; submittingComment := b;
     commentError := commentError st; comments := comments st |}.

Definition comment_posted (c : comment_item) (st : state) : state :=
  {| commentBody := ""; submittingComment := submittingComment st;
     commentError := commentError st; comments := c :: comments st |}.

(** The callback handed to [requestComment]; [created] is
    [new Date().toISOString()] at that time. *)
Definition on_comment_response (u commentPermlink body created : string)
    (r : response) (st : state) : state :=
  let st1 := set_submittingComment false st in
  if resp_success r
  then comment_posted {| c_author := u; c_permlink := commentPermlink;
                         c_body := body; c_created := created |} st1
  else set_commentError
         ("Comment failed: " +:+ default "undefined" (resp_message r)) st1.

Definition on_comment_error (e : js_error) (wd : world state timer_action)
  : world state timer_action :=
  emit [ConsoleError "Error commenting:"]
    (upd (λ st, set_submittingComment false
                  (set_commentError
                     ("Comment failed: " +:+ or_else (err_message e) "Unknown error")
                     st)) wd).

(** [handleComment]; [author] and [permlink] are the route parameters,
    [now] is [Date.now()], [type_error] what the engine throws when
    [window.hive_keychain] is undefined. *)
Definition handleComment (w : window) (type_error : js_error) (now : N)
    (created : string) (ctx : context) (author permlink : string)
    (wd : world state timer_action) : world state timer_action :=
  let st := view wd in
  if negb (truthy (trim (commentBody st)))
  then upd (set_commentError "Please enter a comment") wd
  else if negb (truthy_opt (user ctx) && isKeychain ctx)
  then upd (set_commentError "Please login with Hive Keychain to comment") wd
  else
    let u := default "" (user ctx) in
    let wd1 := upd (λ s, set_commentError "" (set_submittingComment true s)) wd in
    let commentPermlink :=
      "re-" +:+ SocialUtils.keep_slug_chars permlink +:+ "-" +:+ pretty now in
    let meta := JObj [("app", JStr "hivesocial/1.0.0"); ("format", JStr "markdown")] in
    match hive_keychain w with
    | None => on_comment_error type_error wd1
    | Some kc =>
        let wd2 :=
          emit [KeychainComment u permlink author commentPermlink "" (commentBody st)
                  meta] wd1 in
        match requestComment kc u permlink author commentPermlink "" (commentBody st)
                meta with
        | Replies r =>
            upd (on_comment_response u commentPermlink (commentBody st) created r) wd2
        | Throws e => on_comment_error e wd2
        | Silent => wd2
        end
    end.

End PostView.

(* ===================================================================== *)
(** ** components/CreatePost *)
(* ===================================================================== *)

Module CreatePost.
Import JS Env Timers.

Record context := {
  user : option string;
  client : option Env.client;
  isKeychain : bool
}.

(** What [setDebugInfo] was last given (its JSON rendering is not kept). *)
Inductive debug :=
  | NoDebug
  | DebugResponse (r : response)
  | DebugError (e : js_error).

Record state := {
  title : string;
  body : string;
  tags : string;
  imageUrl : string;
  isSubmitting : bool;
  error : string;
  successMessage : string;
  debugInfo : debug;
  postingMethod : string;
  localClient : option Env.client;
  timeoutId : option positive
}.

Definition set_error (msg : string) (st : state) : state :=
  {| title := title st; body := body st; tags := tags st; imageUrl := imageUrl st;
     isSubmitting := isSubmitting st; error := msg;
     successMessage := successMessage st; debugInfo := debugInfo st;
     postingMethod := postingMethod st; localClient := localClient st;
     timeoutId := timeoutId st |}.

Definition set_isSubmitting (b : bool) (st : state) : state :=
  {| title := title st; body := body st; tags := tags st; imageUrl := imageUrl st;
     isSubmitting := b; error := error st;
     successMessage := successMessage st; debugInfo := debugInfo st;
     postingMethod := postingMethod st; localClient := localClient st;
     timeoutId := timeoutId st |}.

Definition set_successMessage (msg : string) (st : state) : state :=
  {| title := title st; body := body st; tags := tags st; imageUrl := imageUrl st;
     isSubmitting := isSubmitting st; error := error st;
     successMessage := msg; debugInfo := debugInfo st;
     postingMethod := postingMethod st; localClient := localClient st;
     timeoutId := timeoutId st |}.

Definition set_debugInfo (d : debug) (st : state) : state :=
  {| title := title st; body := body st; tags := tags st; imageUrl := imageUrl st;
     isSubmitting := isSubmitting st; error := error st;
     successMessage := successMessage st; debugInfo := d;
     postingMethod := postingMethod st; localClient := localClient st;
     timeoutId := timeoutId st |}.

Definition set_timeoutId (t : option positive) (st : state) : state :=
  {| title := title st; body := body st; tags := tags st; imageUrl := imageUrl st;
     isSubmitting := isSubmitting st; error := error st;
     successMessage := successMessage st; debugInfo := debugInfo st;
     postingMethod := postingMethod st; localClient := localClient st;
     timeoutId := t |}.

(** The body of the delayed callback after a successful post. *)
Definition clear_form (st : state) : state :=
  {| title := ""; body := ""; tags := ""; imageUrl := "";
     isSubmitting := isSubmitting st; error := error st;
     successMessage := ""; debugInfo := debugInfo st;
     postingMethod := postingMethod st; localClient := localClient st;
     timeoutId := timeoutId st |}.

(** The two kinds of callback the component hands to [setTimeout]. *)
Inductive timer_action :=
  | PostingTimedOut
  | ClearFormAndNavigate (path : string).

Definition fire (a : timer_action) (st : state) : state * list effect :=
  match a with
  | PostingTimedOut =>
      (set_error "Posting timed out. Please try again." (set_isSubmitting false st), [])
  | ClearFormAndNavigate path => (clear_form st, [Navigate path])
  end.

Abbreviation cworld := (world state timer_action).

(** [generatePermlink]: [now_iso] is [new Date().toISOString()] and
    [rnd36] is [Math.random().toString(36)]. *)
Definition timeString (now_iso : string) : string :=
  toLowerCase (filter_chars (λ ch, is_lower ch || is_upper ch || is_digit ch) now_iso).

Definition randomString (rnd36 : string) : string := substring 2 8 rnd36.

Definition basePermlink (title : string) : string :=
  take_chars 50
    (hyphenate (filter_chars (λ ch, is_word ch || is_space ch) (toLowerCase title))).

Definition generatePermlink (title now_iso rnd36 : string) : string :=
  basePermlink title +:+ "-" +:+ take_chars 8 (timeString now_iso)
  +:+ "-" +:+ randomString rnd36.

(** [tags.toLowerCase().split(' ').map(trim).filter(tag => tag !== '')] *)
Definition tagArray (tags : string) : list string :=
  List.filter truthy (trim <$> split " " (toLowerCase tags)).

Definition jsonMetadata (tagArray : list string) (imageUrl : string) : json :=
  JObj [("tags", JArr (JStr <$> tagArray));
        ("app", JStr "hivesocial/1.0.0");
        ("format", JStr "markdown");
        ("image", JArr (if truthy imageUrl then [JStr imageUrl] else []))].

Definition invalid_key_message : string :=
  "Invalid private key format. Please make sure you are using the correct private posting key.".

Definition key_prompt : string :=
  "Please enter your Hive posting private key to publish this post:".

(** The callback handed to [requestPost]. *)
Definition on_post_response (u permlink : string) (r : response) (wd : cworld)
  : cworld :=
  let wd1 := upd (set_isSubmitting false) wd in
  if resp_success r
  then (setTimeout (ClearFormAndNavigate ("/@" +:+ u +:+ "/" +:+ permlink)) 2000
          (upd (set_successMessage "Post published successfully!") wd1)).2
  else upd (λ st, set_debugInfo (DebugResponse r)
                    (set_error ("Failed to publish post: "
                                +:+ or_else (resp_message r) "Unknown error") st))
           wd1.

(** The [catch] blocks of [handleSubmit]. *)
Definition on_publish_error (label : string) (e : js_error) (wd : cworld) : cworld :=
  emit [ConsoleError label]
    (upd (λ st, set_isSubmitting false
                  (set_debugInfo (DebugError e)
                     (set_error ("Failed to publish post: "
                                 +:+ or_else (err_message e) "Unknown error") st)))
         wd).

Definition fail_with (msg : string) (wd : cworld) : cworld :=
  upd (λ st, set_isSubmitting false (set_error msg st)) wd.

(** [client || localClient] *)
Definition activeClient (ctx : context) (st : state) : option Env.client :=
  match client ctx with
  | Some c => Some c
  | None => localClient st
  end.

Section Dhive.

(** dhive's [PrivateKey.from]: returns the key object or throws. *)
Variable PrivateKey_from : string → completion PrivateKey.

(** The direct branch of [handleSubmit], after [setIsSubmitting(true)]. *)
Definition submit_direct (answer : option string) (ctx : context) (st : state)
    (u permlink parent : string) (meta : json) (wd : cworld) : cworld :=
  match activeClient ctx st with
  | None => fail_with "Hive client not initialized. Please refresh the page." wd
  | Some activeClient =>
      let wd1 := emit [Prompt key_prompt] wd in
      match answer with
      | Some (String a k) =>
          match PrivateKey_from (String a k) with
          | Abrupt _ =>
              emit [ConsoleError "Invalid private key format:"]
                (fail_with invalid_key_message wd1)
          | Normal postingKey =>
              let operations :=
                [comment "" parent u permlink (title st) (body st) meta] in
              let wd2 := emit [SendOperations operations postingKey] wd1 in
              match sendOperations activeClient operations postingKey with
              | Fulfilled _ =>
                  (setTimeout (ClearFormAndNavigate ("/@" +:+ u +:+ "/" +:+ permlink))
                     2000
                     (upd (set_successMessage "Post published successfully!") wd2)).2
              | Rejected e =>
                  on_publish_error "Error creating post with direct API:" e wd2
              | Pending => wd2
              end
          end
      | _ => fail_with "Posting key is required to publish a post." wd1
      end
  end.

(** [handleSubmit]; [st], the state read, is the one of the world the
    handler starts in. *)
Definition handleSubmit (w : window) (answer : option string)
    (now_iso rnd36 : string) (ctx : context) (wd : cworld) : cworld :=
  let st := view wd in
  let wd0 := upd (λ s, set_debugInfo NoDebug (set_error "" s)) wd in
  match user ctx with
  | Some (String a n) =>
      let u := String a n in
      if negb (truthy (trim (title st)))
      then upd (set_error "Please enter a title") wd0
      else if negb (truthy (trim (body st)))
      then upd (set_error "Please enter content for your post") wd0
      else if negb (truthy (trim (tags st)))
      then upd (set_error "Please enter at least one tag") wd0
      else
        match tagArray (tags st) with
        | [] => upd (set_error "Please enter at least one valid tag") wd0
        | tag0 :: _ =>
            let permlink := generatePermlink (title st) now_iso rnd36 in
            let meta := jsonMetadata (tagArray (tags st)) (imageUrl st) in
            let parent := or_else (Some tag0) "hive-174695" in
            let wd1 := upd (set_isSubmitting true) wd0 in
            match (if String.eqb (postingMethod st) "keychain"
                   then hive_keychain w else None) with
            | Some kc =>
                let wd2 :=
                  emit [KeychainPost u permlink parent (title st) (body st) meta
                          "posting"] wd1 in
                match requestPost kc u permlink parent (title st) (body st) meta
                        "posting" with
                | Replies r => on_post_response u permlink r wd2
                | Throws e => on_publish_error "Error creating post:" e wd2
                | Silent => wd2
                end
            | None =>
                if String.eqb (postingMethod st) "direct"
                then submit_direct answer ctx st u permlink parent meta wd1
                else fail_with
                       "No posting method available. Please install Hive Keychain or use direct posting."
                       wd1
            end
        end
  | _ => upd (set_error "You must be logged in to create a post") wd0
  end.

(** [resetFormState], reading [timeoutId] from the closure [st]. *)
Definition resetFormState (st : state) (wd : cworld) : cworld :=
  let wd1 := upd (set_isSubmitting false) wd in
  match timeoutId st with
  | Some id => upd (set_timeoutId None) (clearTimeout id wd1)
  | None => wd1
  end.

(** [handleDirectPost]; [directClient] is the client it creates and [now]
    is [Date.now()]. *)
Definition handleDirectPost (directClient : Env.client) (answer : option string)
    (now : N) (ctx : context) (wd : cworld) : cworld :=
  let st := view wd in
  match user ctx with
  | Some (String a n) =>
      let u := String a n in
      if negb (truthy (trim (title st)))
      then upd (set_error "Please enter a title") wd
      else if negb (truthy (trim (body st)))
      then upd (set_error "Please enter content for your post") wd
      else
        let wd1 :=
          upd (λ s, set_debugInfo NoDebug (set_error "" (set_isSubmitting true s)))
              (resetFormState st wd) in
        let '(timeout, wd2) := setTimeout PostingTimedOut 30000 wd1 in
        let wd3 := emit [Prompt key_prompt] (upd (set_timeoutId (Some timeout)) wd2) in
        match answer with
        | Some (String a' k) =>
            match PrivateKey_from (String a' k) with
            | Abrupt _ => resetFormState st (upd (set_error invalid_key_message) wd3)
            | Normal postingKey =>
                let operations :=
                  [comment "" "hive-174695" u ("post-" +:+ pretty now)
                     (title st) (body st)
                     (jsonMetadata ["hive-174695"; "hivesocial"] (imageUrl st))] in
                let wd4 := emit [SendOperations operations postingKey] wd3 in
                match sendOperations directClient operations postingKey with
                | Fulfilled _ =>
                    (setTimeout (ClearFormAndNavigate "/") 2000
                       (upd (λ s, set_isSubmitting false
                                    (set_successMessage "Post published successfully!"
                                       (set_timeoutId None s)))
                            (clearTimeout timeout wd4))).2
                | Rejected e =>
                    on_publish_error "Error creating post with direct method:" e
                      (upd (set_timeoutId None) (clearTimeout timeout wd4))
                | Pending => wd4
                end
            end
        | _ =>
            resetFormState st
              (upd (set_error "Posting key is required to publish a post.") wd3)
        end
  | _ => upd (set_error "You must be logged in to create a post") wd
  end.

End Dhive.
End CreatePost.

(* ===================================================================== *)
(** ** Session storage: App, Login, EcencyCallback, Navbar *)
(* ===================================================================== *)

Module Session.
Import JS Env.

(** [localStorage] together with the [user] state of [App] and what the
    login form shows. *)
Record session := {
  storage : gmap string string;
  user : option string;
  login_error : string;
  trace : list effect
}.

Definition setItem (k v : string) (s : session) : session :=
  {| storage := <[k := v]> (storage s); user := user s;
     login_error := login_error s; trace := trace s |}.

Definition removeItem (k : string) (s : session) : session :=
  {| storage := delete k (storage s); user := user s;
     login_error := login_error s; trace := trace s |}.

Definition setUser (u : option string) (s : session) : session :=
  {| storage := storage s; user := u; login_error := login_error s;
     trace := trace s |}.

Definition setError (msg : string) (s : session) : session :=
  {| storage := storage s; user := user s; login_error := msg; trace := trace s |}.

Definition navigate (path : string) (s : session) : session :=
  {| storage := storage s; user := user s; login_error := login_error s;
     trace := trace s ++ [Navigate path] |}.

Definition perform (e : effect) (s : session) : session :=
  {| storage := storage s; user := user s; login_error := login_error s;
     trace := trace s ++ [e] |}.

(** [localStorage.getItem(k) || d] *)
Definition getItem_or (k d : string) (ls : gmap string string) : string :=
  or_else (ls !! k) d.

(** [useState(localStorage.getItem('hivesocial_user') || null)] in [App]. *)
Definition App_initial_user (ls : gmap string string) : option string :=
  match ls !! "hivesocial_user" with
  | Some (String a n) => Some (String a n)
  | _ => None
  end.

Definition App_start (ls : gmap string string) : session :=
  {| storage := ls; user := App_initial_user ls; login_error := ""; trace := [] |}.

(** [Login.handleDirectLogin]; [from] is the path to return to. *)
Definition handleDirectLogin (username from : string) (s : session) : session :=
  if truthy username
  then navigate from (setUser (Some username) (setItem "hivesocial_user" username s))
  else setError "Please enter a username" s.

(** [Login.handleKeychainLogin]; [now_iso] is [new Date().toISOString()]. *)
Definition handleKeychainLogin (w : window) (username from now_iso : string)
    (s : session) : session :=
  if negb (truthy username) then setError "Please enter a username" s
  else
    match hive_keychain w with
    | None =>
        setError
          "Hive Keychain extension is not installed. Please install it and try again."
          s
    | Some kc =>
        let memo := "Login attempt for HiveSocial at " +:+ now_iso in
        let s1 := perform (KeychainSignBuffer username memo "Posting") s in
        match requestSignBuffer kc username memo "Posting" with
        | Replies r =>
            if resp_success r
            then navigate from
                   (setUser (Some username) (setItem "hivesocial_user" username s1))
            else setError ("Login failed: " +:+ default "undefined" (resp_message r)) s1
        | Throws e =>
            perform (ConsoleError "Keychain error:")
              (setError ("Failed to connect to Hive Keychain: "
                         +:+ default "undefined" (err_message e)) s1)
        | Silent => s1
        end
    end.

(** The effect run once [handleEcencyLogin] has set [isEcencyLogin]:
    [auth_url] is the address the browser is sent to. *)
Definition handleEcencyLogin (from auth_url : string) (s : session) : session :=
  navigate auth_url (setItem "hivesocial_redirect" from (setError "" s)).

(** The string stored for [Date.now() + expiresIn * 1000]; [expiresIn] is
    the numeric value of the parameter, [None] when it is not a number. *)
Definition token_expiry (now : Z) (expiresIn : option Z) : string :=
  match expiresIn with
  | Some n => pretty (now + n * 1000)
  | None => "NaN"
  end.

(** The effect of [EcencyCallback], given the parameters of the URL. *)
Definition EcencyCallback (username accessToken : option string)
    (now : Z) (expiresIn : option Z) (s : session) : session :=
  match username, accessToken with
  | Some (String a n), Some (String b t) =>
      let s1 :=
        setUser (Some (String a n))
          (setItem "hivesocial_token_expiry" (token_expiry now expiresIn)
             (setItem "hivesocial_token" (String b t)
                (setItem "hivesocial_user" (String a n) s))) in
      let redirectTo := getItem_or "hivesocial_redirect" "/" (storage s1) in
      navigate redirectTo (removeItem "hivesocial_redirect" s1)
  | _, _ => setError "Authentication failed. Please try again." s
  end.

(** [Navbar.handleLogout] *)
Definition handleLogout (s : session) : session :=
  removeItem "hivesocial_user" (setUser None s).

End Session.

(* ===================================================================== *)
(** ** Sample environments used by the examples *)
(* ===================================================================== *)

Module Sample.
Import JS Env.

(** An agent that reacts in the same way to every request. *)
Definition agent (r : reaction response) : keychain :=
  {| requestBroadcast := λ _ _ _, r;
     requestPost := λ _ _ _ _ _ _ _, r;
     requestComment := λ _ _ _ _ _ _ _, r;
     requestSignBuffer := λ _ _ _, r |}.

Definition accepted : response := {| resp_success := true; resp_message := None |}.
Definition refused : response :=
  {| resp_success := false; resp_message := Some "user cancelled" |}.

Definition browser (r : reaction response) : window :=
  {| hive_keychain := Some (agent r) |}.

Definition plain_browser : window := {| hive_keychain := None |}.

(** A client whose every call settles as [reply]. *)
Definition ledger (reply : settled json) : client :=
  {| database_call := λ _ _, reply; sendOperations := λ _ _, reply |}.

Definition node : client := ledger (Fulfilled (JObj [])).

Definition type_error : js_error :=
  {| err_message := Some "Cannot read properties of undefined" |}.

(** A key parser that accepts exactly the strings of 51 characters that
    start with the digit 5. *)
Definition parse_key (s : string) : completion PrivateKey :=
  match s with
  | String "5" _ =>
      if Nat.eqb (String.length s) 51 then Normal {| key_data := s |}
      else Abrupt {| err_message := Some "invalid key length" |}
  | _ => Abrupt {| err_message := Some "private key network id mismatch" |}
  end.

Definition good_key : string :=
  "5KKKKKKKKKKKKKKKKKKKKKKKKKKKKKKKKKKKKKKKKKKKKKKKKKK".

(** A freshly mounted post form holding the given fields. *)
Definition form (title body tags : string)
  : Timers.world CreatePost.state CreatePost.timer_action :=
  {| Timers.view :=
       {| CreatePost.title := title; CreatePost.body := body;
          CreatePost.tags := tags; CreatePost.imageUrl := "";
          CreatePost.isSubmitting := false; CreatePost.error := "";
          CreatePost.successMessage := ""; CreatePost.debugInfo := CreatePost.NoDebug;
          CreatePost.postingMethod := "direct"; CreatePost.localClient := None;
          CreatePost.timeoutId := None |};
     Timers.timers := []; Timers.next_id := 1%positive; Timers.trace := [] |}.

Definition with_method (m : string)
    (wd : Timers.world CreatePost.state CreatePost.timer_action)
  : Timers.world CreatePost.state CreatePost.timer_action :=
  Timers.upd
    (λ st, {| CreatePost.title := CreatePost.title st;
              CreatePost.body := CreatePost.body st;
              CreatePost.tags := CreatePost.tags st;
              CreatePost.imageUrl := CreatePost.imageUrl st;
              CreatePost.isSubmitting := CreatePost.isSubmitting st;
              CreatePost.error := CreatePost.error st;
              CreatePost.successMessage := CreatePost.successMessage st;
              CreatePost.debugInfo := CreatePost.debugInfo st;
              CreatePost.postingMethod := m;
              CreatePost.localClient := CreatePost.localClient st;
              CreatePost.timeoutId := CreatePost.timeoutId st |}) wd.

End Sample.

(* ===================================================================== *)
(** ** Predicates used in the statements *)
(* ===================================================================== *)

Module Props.
Import JS Env.

(** The agent, when installed, answers every broadcast request by
    invoking the callback. *)
Definition agent_answers (w : window) : Prop :=
  ∀ kc, hive_keychain w = Some kc →
    ∀ account ops authority,
      ∃ r, requestBroadcast kc account ops authority = Replies r.

(** The promise is fulfilled with a result object that carries a non-empty
    [error] string whenever [success] is false. *)
Definition typed_result (o : settled SocialUtils.result) : bool :=
  match o with
  | Fulfilled r => SocialUtils.success r || truthy_opt (SocialUtils.error r)
  | Rejected _ | Pending => false
  end.

(** The promise is fulfilled with the result that corresponds to the
    answer [r] of the agent: a success without error when the agent
    accepted, otherwise a failure whose non-empty [error] is the message of
    the agent or, when it gave none, the [fallback] text. *)
Definition answered_with (r : response) (fallback : string)
    (o : settled SocialUtils.result) : Prop :=
  ∃ res,
    o = Fulfilled res
    ∧ SocialUtils.success res = resp_success r
    ∧ if resp_success r then SocialUtils.error res = None
      else SocialUtils.error res = Some (or_else (resp_message r) fallback)
           ∧ truthy_opt (SocialUtils.error res) = true.

(** The [isFollowing] field of the result a promise was fulfilled with. *)
Definition reported_following (o : settled SocialUtils.result) : option bool :=
  match o with
  | Fulfilled r => SocialUtils.isFollowing r
  | Rejected _ | Pending => None
  end.






(** [!s.trim()] *)
Definition blank (s : string) : bool := negb (truthy (trim s)).

(** The answer to the key prompt is unusable: cancelled, empty, or a
    string that [PrivateKey.from] rejects. *)
Definition key_refused (PrivateKey_from : string → completion PrivateKey)
    (answer : option string) : Prop :=
  match answer with
  | Some (String a k) => ∃ e, PrivateKey_from (String a k) = Abrupt e
  | _ => True
  end.

End Props.

(* ===================================================================== *)
(** ** Further string primitives *)
(* ===================================================================== *)

Module Str.
Import JS.

(** [s.replace(pat, rep)] with a string pattern: the first occurrence. *)
Fixpoint replace_first (pat rep s : string) : string :=
  if String.prefix pat s
  then rep +:+ drop_chars (String.length pat) s
  else match s with
       | EmptyString => EmptyString
       | String c r => String c (replace_first pat rep r)
       end.

(** [l.join(sep)] *)
Fixpoint join (sep : string) (l : list string) : string :=
  match l with
  | [] => ""
  | [x] => x
  | x :: r => x +:+ sep +:+ join sep r
  end.

(** [s.startsWith(p)] *)
Definition startsWith (p s : string) : bool := String.prefix p s.

(** The base-64 alphabet and the encoding of the code units of a string,
    three at a time, as the browser's [btoa] performs it. *)
Definition b64_alphabet : string :=
  "ABCDEFGHIJKLMNOPQRSTUVWXYZabcdefghijklmnopqrstuvwxyz0123456789+/".

Definition b64_digit (n : nat) : ascii :=
  match Stdlib.Strings.String.get n b64_alphabet with
  | Some c => c
  | None => "="%char
  end.

Fixpoint base64_codes (l : list nat) : string :=
  match l with
  | [] => ""
  | [a] =>
      String (b64_digit (a / 4)) (String (b64_digit (a mod 4 * 16)) "==")
  | [a; b] =>
      String (b64_digit (a / 4))
        (String (b64_digit (a mod 4 * 16 + b / 16))
           (String (b64_digit (b mod 16 * 4)) "="))
  | a :: b :: c :: r =>
      String (b64_digit (a / 4))
        (String (b64_digit (a mod 4 * 16 + b / 16))
           (String (b64_digit (b mod 16 * 4 + c / 64))
              (String (b64_digit (c mod 64)) (base64_codes r))))
  end%nat.

Fixpoint code_units (s : string) : list nat :=
  match s with
  | EmptyString => []
  | String c r => code c :: code_units r
  end.

Definition base64 (s : string) : string := base64_codes (code_units s).

(** [btoa(s)] throws only on a code unit above 255, which the strings of
    this embedding do not have: it always returns normally. *)
Definition btoa (s : string) : completion string := Normal (base64 s).

End Str.

(* ===================================================================== *)
(** ** utils/ChatUtils: the in-memory chat store *)
(* ===================================================================== *)

Module ChatUtils.
Import JS Env Str.

(** A time stamp is kept as the milliseconds whose ISO rendering the
    source stores; parsing that rendering gives them back. *)
Record last_message := {
  lm_sender : string; lm_content : string; lm_timestamp : Z
}.

Record conversation := {
  conv_id : string;
  participants : list string;
  lastMessage : option last_message;
  unreadCount : Z
}.

Record message := {
  msg_id : string;
  sender : string;
  content : string;
  timestamp : Z;
  read : bool
}.

(** [MOCK_CHATS]: both tables are keyed by strings. *)
Record store := {
  conversations : gmap string (list conversation);
  messages : gmap string (list message)
}.

(** The objects the functions resolve to; absent fields are [None]
    ([existing] absent is [false]). *)
Record result := {
  success : bool;
  error : option string;
  r_message : option message;
  r_conversation : option conversation;
  existing : bool;
  r_messages : option (list message);
  hasMore : option bool
}.

Definition failed (msg : string) : result :=
  {| success := false; error := Some msg; r_message := None;
     r_conversation := None; existing := false; r_messages := None;
     hasMore := None |}.

Definition succeeded : result :=
  {| success := true; error := None; r_message := None;
     r_conversation := None; existing := false; r_messages := None;
     hasMore := None |}.

(** The first element satisfying [p] is replaced by its image: what
    [find] followed by an assignment to a field of the found object does. *)
Fixpoint update_first {A : Type} (p : A → bool) (f : A → A) (l : list A) : list A :=
  match l with
  | [] => []
  | x :: r => if p x then f x :: r else x :: update_first p f r
  end.

(** [conversationId.replace('conv-', '').split('-')] *)
Definition participants_of (conversationId : string) : list string :=
  split "-" (replace_first "conv-" "" conversationId).

(** The order of the default [sort]: by code units. *)
Fixpoint str_ltb (a b : string) : bool :=
  match a, b with
  | _, EmptyString => false
  | EmptyString, String _ _ => true
  | String x a', String y b' =>
      if Nat.ltb (code x) (code y) then true
      else if Nat.ltb (code y) (code x) then false
      else str_ltb a' b'
  end.

(** [[a, b].sort()] *)
Definition sort_pair (a b : string) : string * string :=
  if str_ltb b a then (b, a) else (a, b).

Definition conversation_id (creator recipient : string) : string :=
  let '(p0, p1) := sort_pair creator recipient in
  "conv-" +:+ p0 +:+ "-" +:+ p1.

Definition has_id (conversationId : string) (c : conversation) : bool :=
  String.eqb (conv_id c) conversationId.

(** The two tables are plain objects. Reading from one of them a key that
    names a property of [Object.prototype] gives that property: a function
    (the prototype itself for [__proto__]), which is truthy and has none
    of the array methods, so that the first method call on it, or spreading
    it, throws a [TypeError]. No function assigns under such a key: every
    assignment is guarded by the entry being falsy, or uses an identifier
    that starts with 'conv-'. *)
Definition inherited (k : string) : bool :=
  existsb (String.eqb k)
    ["constructor"; "__proto__"; "hasOwnProperty"; "isPrototypeOf";
     "propertyIsEnumerable"; "toLocaleString"; "toString"; "valueOf";
     "__defineGetter__"; "__defineSetter__"; "__lookupGetter__";
     "__lookupSetter__"].

(** What the [catch] of each function returns:
    [{ success: false, error: error.message || fallback }]. *)
Definition caught (e : js_error) (fallback : string) : result :=
  failed (or_else (err_message e) fallback).

(** [sendMessage(conversationId, sender, content)]; [now_id] is
    [Date.now()], [now_ts] the time of [new Date()] and [type_error] what
    the engine throws when a method is missing. *)
Definition sendMessage (type_error : js_error) (now_id now_ts : Z)
    (conversationId sender content : string) (st : store)
  : store * list effect * result :=
  if negb (truthy conversationId && truthy sender && truthy content)
  then (st, [], failed "Missing required parameters")
  else if inherited conversationId
  then (st, [], caught type_error "Failed to send message")
  else
    let message :=
      {| msg_id := "msg-" +:+ conversationId +:+ "-" +:+ pretty now_id;
         sender := sender; content := content; timestamp := now_ts;
         read := false |} in
    let msgs := default [] (messages st !! conversationId) ++ [message] in
    let pushed := <[conversationId := msgs]> (messages st) in
    if inherited sender
    then ({| conversations := conversations st; messages := pushed |}, [],
          caught type_error "Failed to send message")
    else
      let convs :=
        match conversations st !! sender with
        | Some l =>
            <[sender :=
                update_first (has_id conversationId)
                  (λ c, {| conv_id := conv_id c; participants := participants c;
                           lastMessage :=
                             Some {| lm_sender := sender; lm_content := content;
                                     lm_timestamp := now_ts |};
                           unreadCount := unreadCount c |}) l]>
              (conversations st)
        | None => conversations st
        end in
      ({| conversations := convs; messages := pushed |},
       [SetTimeout 200],
       {| success := true; error := None; r_message := Some message;
          r_conversation := None; existing := false; r_messages := None;
          hasMore := None |}).

(** [createConversation(creator, recipient)] *)
Definition createConversation (type_error : js_error) (creator recipient : string)
    (st : store) : store * list effect * result :=
  if negb (truthy creator && truthy recipient)
  then (st, [], failed "Missing required parameters")
  else if inherited creator
  then (st, [], caught type_error "Failed to create conversation")
  else
    let '(p0, p1) := sort_pair creator recipient in
    let conversationId := "conv-" +:+ p0 +:+ "-" +:+ p1 in
    match List.find (has_id conversationId)
            (default [] (conversations st !! creator)) with
    | Some existingConv =>
        (st, [],
         {| success := true; error := None; r_message := None;
            r_conversation := Some existingConv; existing := true;
            r_messages := None; hasMore := None |})
    | None =>
        let conversation :=
          {| conv_id := conversationId; participants := [p0; p1];
             lastMessage := None; unreadCount := 0 |} in
        ({| conversations :=
              <[creator := default [] (conversations st !! creator) ++ [conversation]]>
                (conversations st);
            messages := <[conversationId := []]> (messages st) |},
         [SetTimeout 300],
         {| success := true; error := None; r_message := None;
            r_conversation := Some conversation; existing := false;
            r_messages := None; hasMore := None |})
    end.

Definition mark_read (username : string) (m : message) : message :=
  if negb (String.eqb (sender m) username)
  then {| msg_id := msg_id m; sender := sender m; content := content m;
          timestamp := timestamp m; read := true |}
  else m.

(** [markMessagesAsRead(conversationId, username)] *)
Definition markMessagesAsRead (type_error : js_error)
    (conversationId username : string) (st : store)
  : store * list effect * result :=
  if negb (truthy conversationId && truthy username)
  then (st, [], failed "Missing required parameters")
  else if inherited conversationId
  then (st, [], caught type_error "Failed to mark messages as read")
  else
    let msgs :=
      match messages st !! conversationId with
      | Some l => <[conversationId := mark_read username <$> l]> (messages st)
      | None => messages st
      end in
    if inherited username
    then ({| conversations := conversations st; messages := msgs |}, [],
          caught type_error "Failed to mark messages as read")
    else
      let convs :=
        match conversations st !! username with
        | Some l =>
            <[username :=
                update_first (has_id conversationId)
                  (λ c, {| conv_id := conv_id c; participants := participants c;
                           lastMessage := lastMessage c; unreadCount := 0 |}) l]>
              (conversations st)
        | None => conversations st
        end in
      ({| conversations := convs; messages := msgs |}, [SetTimeout 200], succeeded).

(** The mock messages [getMessages] invents for a conversation it has
    never seen: [rnd 0] is the draw for their number, [rnd (i + 1)] the
    draw for the sender of the message [i], [now i] the clock when that
    message is made. *)
Definition mock_messages (now : nat → Z) (rnd : nat → Q) (conversationId : string)
  : list message :=
  let ps := participants_of conversationId in
  let numMessages := Qfloor (rnd 0%nat * 20) + 10 in
  (λ i : nat,
     let who :=
       nth (Z.to_nat (Qfloor (rnd (S i) * inject_Z (Z.of_nat (length ps)))))
         ps "undefined" in
     {| msg_id := "msg-" +:+ conversationId +:+ "-" +:+ pretty i;
        sender := who;
        content := "This is message #" +:+ pretty (S i) +:+ " from " +:+ who;
        timestamp := now i - (numMessages - Z.of_nat i) * 600000;
        read := Z.of_nat i <? numMessages - 3 |})
  <$> seq 0 (Z.to_nat numMessages).

(** The stable sort of [messages.sort((a, b) => a.timestamp - b.timestamp)]. *)
Fixpoint insert_by_time (m : message) (l : list message) : list message :=
  match l with
  | [] => [m]
  | x :: r =>
      if timestamp x <? timestamp m then x :: insert_by_time m r else m :: x :: r
  end.

Definition sort_by_time (l : list message) : list message :=
  foldr insert_by_time [] l.

(** [messages.findIndex(msg => msg.id === before)] followed by
    [slice(0, beforeIndex)] when the index is not -1. *)
Fixpoint until_id (before : string) (l : list message) : option (list message) :=
  match l with
  | [] => None
  | m :: r =>
      if String.eqb (msg_id m) before then Some []
      else cons m <$> until_id before r
  end.

(** [getMessages(conversationId, { limit = 20, before = null })] *)
Definition getMessages (type_error : js_error) (now : nat → Z) (rnd : nat → Q)
    (conversationId : string) (limit : option Z) (before : option string)
    (st : store) : store * list effect * result :=
  if negb (truthy conversationId)
  then (st, [], failed "Conversation ID not provided")
  else if inherited conversationId
  then (st, [SetTimeout 300], caught type_error "Failed to get messages")
  else
    let lim := default 20 limit in
    let stored :=
      match messages st !! conversationId with
      | Some l => l
      | None => mock_messages now rnd conversationId
      end in
    let st' :=
      {| conversations := conversations st;
         messages := <[conversationId := stored]> (messages st) |} in
    let paged :=
      if truthy_opt before
      then default stored (until_id (default "" before) stored)
      else stored in
    let sorted := sort_by_time paged in
    let page :=
      if Z.of_nat (length sorted) >? lim
      then drop (Z.to_nat (Z.of_nat (length sorted) - lim)) sorted
      else sorted in
    (st', [SetTimeout 300],
     {| success := true; error := None; r_message := None;
        r_conversation := None; existing := false; r_messages := Some page;
        hasMore := Some (if truthy_opt before
                         then Z.of_nat (length page) >=? lim else false) |}).

End ChatUtils.

(* ===================================================================== *)
(** ** utils/UploadUtils *)
(* ===================================================================== *)

Module UploadUtils.
Import JS Env Str.

Record file := { name : string; size : Z; type : string }.

(** The [options] object; an absent field is [None]. *)
Record options := {
  maxSizeMB : option Z;
  allowedTypes : option (list string)
}.

Definition no_options : options := {| maxSizeMB := None; allowedTypes := None |}.

Record validation := { valid : bool; v_error : option string }.

Definition IPFS_GATEWAYS : list string :=
  ["https://ipfs.io/ipfs/"; "https://gateway.pinata.cloud/ipfs/";
   "https://cloudflare-ipfs.com/ipfs/"].

Definition default_types : list string :=
  ["image/jpeg"; "image/png"; "image/gif"; "video/mp4"; "audio/mpeg"].

(** [validateFile(file, options = {})] *)
Definition validateFile (f : file) (o : options) : validation :=
  let maxMB := default 10 (maxSizeMB o) in
  let allowed := default default_types (allowedTypes o) in
  if size f >? maxMB * 1024 * 1024
  then {| valid := false;
          v_error := Some ("File size exceeds " +:+ pretty maxMB +:+ "MB limit") |}
  else if negb (existsb (String.eqb (type f)) allowed)
  then {| valid := false;
          v_error := Some ("File type " +:+ type f
                           +:+ " is not supported. Allowed types: "
                           +:+ join ", " allowed) |}
  else {| valid := true; v_error := None |}.

Record result := {
  success : bool;
  hash : option string;
  url : option string;
  gateways : list string;
  error : option string
}.

Definition failed (msg : option string) : result :=
  {| success := false; hash := None; url := None; gateways := []; error := msg |}.

(** [uploadToIPFS(file)]; [now] is [Date.now()]. *)
Definition uploadToIPFS (now : Z) (f : file) : list effect * result :=
  match btoa (name f +:+ pretty (size f) +:+ pretty now) with
  | Normal b64 =>
      let mockHash := "Qm" +:+ substring 0 44 b64 in
      ([SetTimeout 1500],
       {| success := true; hash := Some mockHash;
          url := Some (default "undefined" (head IPFS_GATEWAYS) +:+ mockHash);
          gateways := (λ gateway, gateway +:+ mockHash) <$> IPFS_GATEWAYS;
          error := None |})
  | Abrupt e =>
      ([SetTimeout 1500; ConsoleError "Error uploading to IPFS:"],
       failed (Some (or_else (err_message e) "Failed to upload file")))
  end.

(** [uploadToTraditionalService(file)] *)
Definition uploadToTraditionalService (now : Z) (f : file) : list effect * result :=
  ([SetTimeout 1000],
   {| success := true; hash := None;
      url := Some ("https://hivesocial.example/uploads/" +:+ pretty now +:+ "-"
                   +:+ hyphenate (name f));
      gateways := []; error := None |}).

(** [uploadMedia(file, options = {})]; [now1] and [now2] are the clock of
    the two attempts. *)
Definition uploadMedia (now1 now2 : Z) (f : file) (o : options)
  : list effect * result :=
  let validation := validateFile f o in
  if negb (valid validation) then ([], failed (v_error validation))
  else
    let '(effs, ipfsResult) := uploadToIPFS now1 f in
    if success ipfsResult then (effs, ipfsResult)
    else
      let '(effs', r) := uploadToTraditionalService now2 f in
      (effs ++ effs', r).

End UploadUtils.

(* ===================================================================== *)
(** ** utils/SocialUtils: getPostComments *)
(* ===================================================================== *)

Module SocialReads.
Import JS Env.

Record result := {
  success : bool;
  error : option string;
  comments : option json
}.

(** [getPostComments(client, author, permlink)]: the call is awaited
    inside [try]. *)
Definition getPostComments (c : option client) (author permlink : string)
  : list effect * settled result :=
  match c with
  | None =>
      ([], Fulfilled {| success := false; error := Some "Client not provided";
                        comments := None |})
  | Some cl =>
      let call := DatabaseCall "get_content_replies" [author; permlink] in
      match database_call cl "get_content_replies" [author; permlink] with
      | Fulfilled v =>
          ([call], Fulfilled {| success := true; error := None; comments := Some v |})
      | Rejected e =>
          ([call; ConsoleError "Error getting post comments:"],
           Fulfilled {| success := false;
                        error := Some (or_else (err_message e) "Failed to get comments");
                        comments := None |})
      | Pending => ([call], Pending)
      end
  end.

End SocialReads.

(* ===================================================================== *)
(** ** components/Post: dates and comments *)
(* ===================================================================== *)

Module PostComments.
Import JS Env Str.

(** What [formatDate] shows. *)
Inductive shown_date :=
  | Ago (n : Z) (unit : string)
  | LocaleDate.

(** [formatDate(date)]: [diffMs] is [now - postDate], [None] when the
    date does not parse (the difference is then NaN and every comparison
    fails). *)
Definition formatDate (diffMs : option Z) : shown_date :=
  match diffMs with
  | None => LocaleDate
  | Some ms =>
      let diffSec := ms / 1000 in
      let diffMin := diffSec / 60 in
      let diffHour := diffMin / 60 in
      let diffDay := diffHour / 24 in
      if diffSec <? 60 then Ago diffSec "seconds"
      else if diffMin <? 60 then Ago diffMin "minutes"
      else if diffHour <? 24 then Ago diffHour "hours"
      else if diffDay <? 30 then Ago diffDay "days"
      else LocaleDate
  end.

(** The text of a relative date: [`${n} ${unit} ago`]. *)
Definition render (d : shown_date) (locale_text : string) : string :=
  match d with
  | Ago n unit => pretty n +:+ " " +:+ unit +:+ " ago"
  | LocaleDate => locale_text
  end.

(** The comment hooks of the component; a comment is the object the
    ledger returned or the one the handler builds. *)
Record state := {
  showCommentForm : bool;
  commentText : string;
  isCommenting : bool;
  commentError : string;
  comments : list json;
  loadingComments : bool
}.

Definition opt_str (v : option string) : json :=
  match v with
  | Some s => JStr s
  | None => JNull
  end.

(** [newComment]; [now_iso] is [new Date().toISOString()]. *)
Definition newComment (author permlink : option string) (body now_iso : string)
  : json :=
  JObj [("author", opt_str author); ("permlink", opt_str permlink);
        ("body", JStr body); ("created", JStr (replace_first "Z" "" now_iso));
        ("net_votes", JNum 0); ("pending_payout_value", JStr "0.000 HBD")].

Definition handleComment_begin (st : state) : state :=
  {| showCommentForm := showCommentForm st; commentText := commentText st;
     isCommenting := true; commentError := ""; comments := comments st;
     loadingComments := loadingComments st |}.

(** The statements after [await commentOnPost(...)]; [text] is the
    comment text captured by the handler. *)
Definition handleComment_settle (author : option string) (text now_iso : string)
    (st : state) (o : settled SocialUtils.result) : state :=
  match o with
  | Fulfilled r =>
      if SocialUtils.success r
      then {| showCommentForm := false; commentText := ""; isCommenting := false;
              commentError := commentError st;
              comments := newComment author (SocialUtils.permlink r) text now_iso
                          :: comments st;
              loadingComments := loadingComments st |}
      else {| showCommentForm := showCommentForm st; commentText := commentText st;
              isCommenting := false;
              commentError := or_else (SocialUtils.error r) "Failed to post comment";
              comments := comments st; loadingComments := loadingComments st |}
  | Rejected e =>
      {| showCommentForm := showCommentForm st; commentText := commentText st;
         isCommenting := false;
         commentError := "Error commenting: " +:+ default "undefined" (err_message e);
         comments := comments st; loadingComments := loadingComments st |}
  | Pending => st
  end.

(** [handleComment]; [now] is [Date.now()] inside [commentOnPost]. *)
Definition handleComment (w : window) (type_error : js_error) (now : N)
    (now_iso : string) (ctx : Post.context) (p : Post.post) (st : state)
  : list effect * state :=
  match Post.ctx_user ctx with
  | Some u =>
      if Post.isKeychain ctx then
        if negb (truthy (trim (commentText st)))
        then ([], {| showCommentForm := showCommentForm st;
                     commentText := commentText st; isCommenting := isCommenting st;
                     commentError := "Comment cannot be empty";
                     comments := comments st;
                     loadingComments := loadingComments st |})
        else
          let '(effs, o) :=
            SocialUtils.commentOnPost w type_error now (Post.client ctx) (Post.name u)
              (Post.author p) (Some (Post.permlink p)) (commentText st) [] in
          (effs,
           handleComment_settle (Post.name u) (commentText st) now_iso
             (handleComment_begin st) o)
      else ([Alert "Please login with Hive Keychain to comment"], st)
  | None => ([Alert "Please login with Hive Keychain to comment"], st)
  end.

(** [loadComments]: nothing is fetched while a load is running or once
    comments are there; without a client the read of [client.database]
    throws inside [try]. *)
Definition loadComments (ctx : Post.context) (p : Post.post) (st : state)
  : list effect * state :=
  let set_loading b cs :=
    {| showCommentForm := showCommentForm st; commentText := commentText st;
       isCommenting := isCommenting st; commentError := commentError st;
       comments := cs; loadingComments := b |} in
  if loadingComments st || negb (Nat.eqb (length (comments st)) 0) then ([], st)
  else
    match Post.client ctx with
    | None => ([ConsoleError "Error loading comments:"], set_loading false (comments st))
    | Some cl =>
        let call :=
          DatabaseCall "get_content_replies" [Post.author p; Post.permlink p] in
        match database_call cl "get_content_replies"
                [Post.author p; Post.permlink p] with
        | Fulfilled (JArr l) => ([call], set_loading false l)
        | Fulfilled _ => ([call], set_loading false (comments st))
        | Rejected _ =>
            ([call; ConsoleError "Error loading comments:"],
             set_loading false (comments st))
        | Pending => ([call], set_loading true (comments st))
        end
    end.

End PostComments.

(* ===================================================================== *)
(** ** components/PostView: the vote toggle *)
(* ===================================================================== *)

Module PostViewVote.
Import JS Env.

Record vote := { voter : string; percent : Z; time : string }.

(** The post object: the two fields the handler rewrites and the others. *)
Record post := {
  other_fields : list (string * json);
  active_votes : list vote;
  net_votes : Z
}.

Record state := {
  post_data : option post;
  voted : bool;
  voteWeight : Z;
  error : string
}.

Record context := { user : option string; isKeychain : bool }.

(** The request handed to [requestVote]. *)
Record request := {
  rq_account : string; rq_permlink : string; rq_author : string; rq_weight : Z
}.

Definition set_error (msg : string) (st : state) : state :=
  {| post_data := post_data st; voted := voted st; voteWeight := voteWeight st;
     error := msg |}.

(** The updater given to [setPost]; [was], [u] and [weight] are the
    [voted], [user] and [voteWeight] of the closure. *)
Definition update_post (was : bool) (u : string) (weight : Z) (now_iso : string)
    (prevPost : option post) : option post :=
  match prevPost with
  | None => None
  | Some p =>
      Some {| other_fields := other_fields p;
              active_votes :=
                if was
                then List.filter (λ v, negb (String.eqb (voter v) u)) (active_votes p)
                else active_votes p
                     ++ [{| voter := u; percent := weight; time := now_iso |}];
              net_votes := if was then net_votes p - 1 else net_votes p + 1 |}
  end.

(** The callback handed to [requestVote], run on the state [st] with the
    closure of the handler that was started in [closure]. *)
Definition on_vote_response (closure : state) (u now_iso : string) (r : response)
    (st : state) : state :=
  if resp_success r
  then {| post_data :=
            update_post (voted closure) u (voteWeight closure) now_iso (post_data st);
          voted := negb (voted closure); voteWeight := voteWeight st;
          error := error st |}
  else set_error ("Voting failed: " +:+ default "undefined" (resp_message r)) st.

(** [handleVote]; [requestVote] is that method of [window.hive_keychain],
    [None] when no agent is installed, [type_error] what the engine throws
    then. *)
Definition handleVote
    (requestVote : option (string → string → string → Z → reaction response))
    (type_error : js_error) (now_iso : string) (ctx : context)
    (author permlink : string) (st : state) : option request * state :=
  match user ctx with
  | Some (String a n) =>
      let u := String a n in
      if isKeychain ctx then
        match requestVote with
        | None =>
            (None,
             set_error ("Voting failed: "
                        +:+ or_else (err_message type_error) "Unknown error") st)
        | Some ask =>
            let weight := if voted st then 0 else voteWeight st in
            (Some {| rq_account := u; rq_permlink := permlink; rq_author := author;
                     rq_weight := weight |},
             match ask u permlink author weight with
             | Replies r => on_vote_response st u now_iso r st
             | Throws e =>
                 set_error ("Voting failed: "
                            +:+ or_else (err_message e) "Unknown error") st
             | Silent => st
             end)
        end
      else (None, set_error "Please login with Hive Keychain to vote" st)
  | _ => (None, set_error "Please login with Hive Keychain to vote" st)
  end.

End PostViewVote.

(* ===================================================================== *)
(** ** App: connecting to the ledger *)
(* ===================================================================== *)

Module App.
Import JS Env.

Record state := {
  client : option Env.client;
  isKeychain : bool;
  networkError : option string;
  isLoading : bool;
  connectionAttempts : Z;
  clientReady : bool
}.

Definition fresh : state :=
  {| client := None; isKeychain := false; networkError := None; isLoading := true;
     connectionAttempts := 0; clientReady := false |}.

(** [initializeApp]; [createHiveClient] is what [new Client(HIVE_NODES)]
    gives (or throws), the probe is the [get_dynamic_global_properties]
    call of that client. The function reads [connectionAttempts] from its
    closure [st]. *)
Definition initializeApp (w : window) (createHiveClient : completion Env.client)
    (st : state) : list effect * state :=
  let kc := match hive_keychain w with Some _ => true | None => isKeychain st end in
  match createHiveClient with
  | Abrupt _ =>
      (* the outer [catch] calls [createHiveClient] again, which throws
         again; [finally] still runs *)
      ([ConsoleError "Error creating Hive client:"],
       {| client := client st; isKeychain := kc;
          networkError :=
            Some "Failed to initialize Hive client. Proceeding with limited functionality.";
          isLoading := false; connectionAttempts := connectionAttempts st;
          clientReady := clientReady st |})
  | Normal newClient =>
      let probe := DatabaseCall "get_dynamic_global_properties" [] in
      match database_call newClient "get_dynamic_global_properties" [] with
      | Fulfilled _ =>
          ([probe],
           {| client := Some newClient; isKeychain := kc; networkError := None;
              isLoading := false; connectionAttempts := connectionAttempts st;
              clientReady := true |})
      | Rejected _ =>
          ([probe; ConsoleError "Error connecting to Hive API:"],
           if connectionAttempts st <? 3
           then {| client := Some newClient; isKeychain := kc;
                   networkError := networkError st; isLoading := false;
                   connectionAttempts := connectionAttempts st + 1;
                   clientReady := true |}
           else {| client := Some newClient; isKeychain := kc;
                   networkError :=
                     Some "Could not connect to Hive blockchain after multiple attempts. Proceeding with limited functionality.";
                   isLoading := false; connectionAttempts := connectionAttempts st;
                   clientReady := true |})
      | Pending =>
          ([probe],
           {| client := client st; isKeychain := kc; networkError := networkError st;
              isLoading := true; connectionAttempts := connectionAttempts st;
              clientReady := clientReady st |})
      end
  end.

(** The "Retry Connection" button. *)
Definition retry_connection (st : state) : state :=
  {| client := client st; isKeychain := isKeychain st;
     networkError := networkError st; isLoading := isLoading st;
     connectionAttempts := 0; clientReady := false |}.

(** Successive runs of [initializeApp], one per client built. *)
Definition runs (w : window) (clients : list Env.client) (st : state) : state :=
  fold_left (λ s cl, (initializeApp w (Normal cl) s).2) clients st.

End App.

(* ===================================================================== *)
(** ** components/Home: the post feed *)
(* ===================================================================== *)

Module Home.
Import JS Env.

Record state := {
  posts : list json;
  loading : bool;
  error : string;
  category : string;
  hasMore : bool;
  lastPost : option json;
  usingSampleData : bool
}.

(** [SAMPLE_POSTS]; [created] is the time the module was loaded. *)
Definition SAMPLE_POSTS (created : string) : list json :=
  [JObj [("author", JStr "hivebuzz"); ("permlink", JStr "welcome-to-hive");
         ("title", JStr "Welcome to Hive Social");
         ("body", JStr "This is a sample post that appears when the Hive API connection is not working properly. The actual content will load when the connection is established.");
         ("created", JStr created); ("net_votes", JNum 0); ("children", JNum 0);
         ("pending_payout_value", JStr "0.000 HBD");
         ("json_metadata",
          JObj [("tags", JArr [JStr "hive"; JStr "social"; JStr "welcome"])])];
   JObj [("author", JStr "hivesocial"); ("permlink", JStr "getting-started");
         ("title", JStr "Getting Started with Hive Social");
         ("body", JStr "Learn how to use Hive Social to connect with others on the Hive blockchain. This is a placeholder post while we try to connect to the Hive API.");
         ("created", JStr created); ("net_votes", JNum 0); ("children", JNum 0);
         ("pending_payout_value", JStr "0.000 HBD");
         ("json_metadata",
          JObj [("tags", JArr [JStr "tutorial"; JStr "hive"; JStr "social"])])]].

(** The states [fetchPosts] ends in. *)
Definition show_samples (created msg : string) (st : state) : state :=
  {| posts := SAMPLE_POSTS created; loading := false; error := msg;
     category := category st; hasMore := hasMore st; lastPost := lastPost st;
     usingSampleData := true |}.

(** [fetchPosts(reset)]; [getDiscussions] of the client is its
    [get_discussions_by_<category>] call, always made with the query
    [{limit: 10, tag: ''}]. The function reads [category] from its closure
    [st]. *)
Definition fetchPosts (created : string) (c : option client) (reset : bool)
    (st : state) : list effect * state :=
  match c with
  | None =>
      ([ConsoleError "No Hive client available"],
       show_samples created "Hive client not initialized" st)
  | Some cl =>
      let method := "get_discussions_by_" +:+ category st in
      let call := DatabaseCall method [] in
      let cleared := if reset then [] else posts st in
      let last := if reset then None else lastPost st in
      match database_call cl method [] with
      | Fulfilled (JArr (p :: l)) =>
          ([call],
           {| posts := p :: l; loading := false; error := error st;
              category := category st; hasMore := hasMore st; lastPost := last;
              usingSampleData := false |})
      | Fulfilled _ =>
          ([call],
           if String.eqb (category st) "trending"
           then {| posts := cleared; loading := false; error := error st;
                   category := "hot"; hasMore := hasMore st; lastPost := last;
                   usingSampleData := usingSampleData st |}
           else if String.eqb (category st) "hot"
           then {| posts := cleared; loading := false; error := error st;
                   category := "created"; hasMore := hasMore st; lastPost := last;
                   usingSampleData := usingSampleData st |}
           else {| posts := SAMPLE_POSTS created; loading := false;
                   error := "Could not fetch posts from Hive. Showing sample content.";
                   category := category st; hasMore := hasMore st; lastPost := last;
                   usingSampleData := true |})
      | Rejected e =>
          ([call; ConsoleError "Error fetching posts:"],
           {| posts := SAMPLE_POSTS created; loading := false;
              error := "Failed to fetch posts: "
                       +:+ or_else (err_message e) "Unknown error";
              category := category st; hasMore := hasMore st; lastPost := last;
              usingSampleData := true |})
      | Pending =>
          ([call],
           {| posts := cleared; loading := true; error := error st;
              category := category st; hasMore := hasMore st; lastPost := last;
              usingSampleData := usingSampleData st |})
      end
  end.

(** [handleCategoryChange(newCategory)] *)
Definition handleCategoryChange (newCategory : string) (st : state) : state :=
  if String.eqb newCategory (category st) then st
  else {| posts := posts st; loading := loading st; error := error st;
          category := newCategory; hasMore := true; lastPost := lastPost st;
          usingSampleData := usingSampleData st |}.

(** The effect [useEffect(() => fetchPosts(true), [fetchPosts, category])]:
    it runs once, and again each time the run changed [category]; [n]
    bounds the number of runs. *)
Fixpoint initial_load (n : nat) (created : string) (c : option client) (st : state)
  : list effect * state :=
  match n with
  | O => ([], st)
  | S n' =>
      let '(effs, st1) := fetchPosts created c true st in
      if String.eqb (category st1) (category st) then (effs, st1)
      else let '(effs', st2) := initial_load n' created c st1 in (effs ++ effs', st2)
  end.

End Home.

(* ===================================================================== *)
(** ** components/CreatePost: image upload and reset *)
(* ===================================================================== *)

Module CreatePostImage.
Import JS Env Timers.

(** What the [FileReader] does once [readAsDataURL] is called: it fires
    [onload] with the data URL, fires [onerror], throws, or fires nothing. *)
Inductive read_outcome :=
  | Loaded (dataUrl : string)
  | ReadFailed
  | ReadThrows (e : js_error)
  | NoEvent.

(** The [uploadingImage] hook beside the form. *)
Record state := { uploadingImage : bool; form : CreatePost.state }.

Definition on_form (f : CreatePost.state → CreatePost.state) (st : state) : state :=
  {| uploadingImage := uploadingImage st; form := f (form st) |}.

Definition set_uploadingImage (b : bool) (st : state) : state :=
  {| uploadingImage := b; form := form st |}.

(** [setImageUrl(url)] together with [setBody(prev => prev + markdown)]. *)
Definition add_image (url markdown : string) (st : CreatePost.state)
  : CreatePost.state :=
  {| CreatePost.title := CreatePost.title st;
     CreatePost.body := CreatePost.body st +:+ markdown;
     CreatePost.tags := CreatePost.tags st; CreatePost.imageUrl := url;
     CreatePost.isSubmitting := CreatePost.isSubmitting st;
     CreatePost.error := CreatePost.error st;
     CreatePost.successMessage := CreatePost.successMessage st;
     CreatePost.debugInfo := CreatePost.debugInfo st;
     CreatePost.postingMethod := CreatePost.postingMethod st;
     CreatePost.localClient := CreatePost.localClient st;
     CreatePost.timeoutId := CreatePost.timeoutId st |}.

Definition newline : string := String (ascii_of_nat 10) EmptyString.

(** [`\n![${file.name}](${base64Image})\n`] *)
Definition imageMarkdown (name dataUrl : string) : string :=
  newline +:+ "![" +:+ name +:+ "](" +:+ dataUrl +:+ ")" +:+ newline.

Definition validTypes : list string := ["image/jpeg"; "image/png"; "image/gif"].

(** [handleImageUpload]; [f] is [e.target.files[0]]. *)
Definition handleImageUpload (f : option UploadUtils.file) (rd : read_outcome)
    (st : state) : list effect * state :=
  match f with
  | None => ([], st)
  | Some file =>
      if negb (existsb (String.eqb (UploadUtils.type file)) validTypes)
      then ([], on_form (CreatePost.set_error
                           "Please upload a valid image file (JPEG, PNG, or GIF)") st)
      else if UploadUtils.size file >? 5 * 1024 * 1024
      then ([], on_form (CreatePost.set_error "Image size should be less than 5MB") st)
      else
        let st1 :=
          set_uploadingImage true
            (on_form (λ s, CreatePost.set_debugInfo CreatePost.NoDebug
                             (CreatePost.set_error "" s)) st) in
        match rd with
        | Loaded dataUrl =>
            ([], set_uploadingImage false
                   (on_form (add_image dataUrl
                               (imageMarkdown (UploadUtils.name file) dataUrl)) st1))
        | ReadFailed =>
            ([ConsoleError "Error reading file:"],
             set_uploadingImage false
               (on_form (CreatePost.set_error "Failed to read image file") st1))
        | ReadThrows e =>
            ([ConsoleError "Error uploading image:"],
             set_uploadingImage false
               (on_form (λ s, CreatePost.set_debugInfo (CreatePost.DebugError e)
                                (CreatePost.set_error
                                   ("Failed to upload image: "
                                    +:+ or_else (err_message e) "Unknown error") s))
                  st1))
        | NoEvent => ([], st1)
        end
  end.

(** [forceReset], reading [timeoutId] from the state it starts in. *)
Definition forceReset (wd : world CreatePost.state CreatePost.timer_action)
  : world CreatePost.state CreatePost.timer_action :=
  upd (CreatePost.set_error "Form state has been reset.")
    (CreatePost.resetFormState (view wd) wd).

End CreatePostImage.

(* ===================================================================== *)
(** ** Further predicates used in the statements *)
(* ===================================================================== *)

Module MoreProps.
Import JS Env.

(** The [user] of the context is the string [App] keeps; read as an
    object, as [Post] and [FollowButton] do, it has no [name]. *)
Definition context_user (s : Session.session) : option Post.user :=
  (λ _, {| Post.name := None |}) <$> Session.user s.

Definition is_hyphen (c : ascii) : bool := Nat.eqb (code c) 45.

Definition starts_with_hyphen (s : string) : bool :=
  match s with
  | String c _ => is_hyphen c
  | EmptyString => false
  end.

(** No two hyphens in a row. *)
Fixpoint no_double_hyphen (s : string) : bool :=
  match s with
  | String c r =>
      negb (is_hyphen c && starts_with_hyphen r) && no_double_hyphen r
  | EmptyString => true
  end.

(** A character of a tag: not the separator, not an upper-case letter. *)
Definition tag_char (c : ascii) : bool :=
  negb (Stdlib.Strings.Ascii.eqb c " ") && negb (is_upper c).

(** The promise of a read helper is never rejected; when it is fulfilled
    the result carries a non-empty error unless it is a success. *)
Definition read_result_ok {A : Type} (ok : A → bool) (err : A → option string)
    (o : settled A) : Prop :=
  match o with
  | Fulfilled r => ok r = true ∨ truthy_opt (err r) = true
  | Rejected _ => False
  | Pending => True
  end.

(** Messages in the order of their time stamps. *)
Definition by_time (l : list ChatUtils.message) : Prop :=
  StronglySorted (λ a b, ChatUtils.timestamp a ≤ ChatUtils.timestamp b) l.

(** The reply of a ledger call is not a non-empty array. *)
Definition no_posts (o : settled json) : Prop :=
  ∃ v, o = Fulfilled v ∧ ∀ p l, v ≠ JArr (p :: l).

End MoreProps.

(* ===================================================================== *)
(** ** Further sample data *)
(* ===================================================================== *)

Module MoreSamples.
Import JS Env.

(** A post of "bob" with two votes, seen by somebody who has not voted. *)
Definition voted_post : PostViewVote.post :=
  {| PostViewVote.other_fields := [("author", JStr "bob")];
     PostViewVote.active_votes :=
       [{| PostViewVote.voter := "carol"; PostViewVote.percent := 10000;
           PostViewVote.time := "2026-11-01T08:00:00" |};
        {| PostViewVote.voter := "dave"; PostViewVote.percent := 5000;
           PostViewVote.time := "2026-11-01T09:00:00" |}];
     PostViewVote.net_votes := 2 |}.

Definition vote_view : PostViewVote.state :=
  {| PostViewVote.post_data := Some voted_post; PostViewVote.voted := false;
     PostViewVote.voteWeight := 10000; PostViewVote.error := "" |}.

Definition accepting_vote : string → string → string → Z → reaction response :=
  λ _ _ _ _, Replies Sample.accepted.

(** Three messages of a conversation between "alice" and "bob", stored in
    the order they were sent. *)
Definition msg (i : string) (who : string) (t : Z) (seen : bool)
  : ChatUtils.message :=
  {| ChatUtils.msg_id := "msg-conv-alice-bob-" +:+ i; ChatUtils.sender := who;
     ChatUtils.content := "hello"; ChatUtils.timestamp := t;
     ChatUtils.read := seen |}.

Definition chat : ChatUtils.store :=
  {| ChatUtils.conversations :=
       {[ "bob" := [{| ChatUtils.conv_id := "conv-alice-bob";
                       ChatUtils.participants := ["alice"; "bob"];
                       ChatUtils.lastMessage := None;
                       ChatUtils.unreadCount := 2 |}] ]};
     ChatUtils.messages :=
       {[ "conv-alice-bob" :=
            [msg "1" "bob" 1000 true; msg "2" "alice" 2000 false;
             msg "3" "bob" 3000 false] ]} |}.

Definition empty_chat : ChatUtils.store :=
  {| ChatUtils.conversations := ∅; ChatUtils.messages := ∅ |}.

(** A clock and a source of random draws that never change. *)
Definition clock : nat → Z := λ _, 1793640300000.
Definition draws : nat → Q := λ _, 1 # 4.

(** A node whose every call is refused. *)
Definition dead_node : client :=
  Sample.ledger (Rejected {| err_message := Some "Network error" |}).

(** A node that has no post in any category. *)
Definition empty_node : client := Sample.ledger (Fulfilled (JArr [])).

Definition feed (category : string) : Home.state :=
  {| Home.posts := []; Home.loading := true; Home.error := "";
     Home.category := category; Home.hasMore := true; Home.lastPost := None;
     Home.usingSampleData := false |}.

Definition photo : UploadUtils.file :=
  {| UploadUtils.name := "my photo.png"; UploadUtils.size := 204800;
     UploadUtils.type := "image/png" |}.


End MoreSamples.

(* ===================================================================== *)
(** ** Predicates on the ledger nodes *)
(* ===================================================================== *)

Module NodeProps.
Import JS Env.

(** The probe of [initializeApp] is refused by the node. *)
Definition probe_fails (cl : client) : Prop :=
  ∃ e, database_call cl "get_dynamic_global_properties" [] = Rejected e.

Definition unreachable_message : string :=
  "Could not connect to Hive blockchain after multiple attempts. Proceeding with limited functionality.".

End NodeProps.

(* ===================================================================== *)
(** ** Properties of utils/SocialUtils *)
(* ===================================================================== *)

Section SocialUtilsFacts.
Import JS Env SocialUtils.

(** With no agent installed, no helper hands anything to an agent or to
    the ledger. *)
Lemma via_keychain_no_agent w account op ok fallback delay :
  hive_keychain w = None →
  via_keychain w account op ok fallback delay
  = ([SetTimeout delay], Fulfilled (with_simulated ok)).
Proof. intros Hw. unfold via_keychain. by rewrite Hw. Qed.

Lemma via_keychain_agent w kc account op ok fallback delay :
  hive_keychain w = Some kc →
  via_keychain w account op ok fallback delay
  = ([KeychainBroadcast account [op] "posting"],
     new_Promise (requestBroadcast kc account [op] "posting")
       (on_broadcast ok fallback)).
Proof. intros Hw. unfold via_keychain. by rewrite Hw. Qed.

Lemma or_else_truthy v d : truthy d = true → truthy (or_else v d) = true.
Proof.
  intros Hd. unfold or_else. destruct v as [s|]; [|done].
  destruct (truthy s) eqn:Hs; done.
Qed.

Lemma truthy_cons s : truthy s = true → ∃ a r, s = String a r.
Proof. destruct s as [|a r]; [done|]. eauto. Qed.

End SocialUtilsFacts.

(** C1 (counterexample). A vote of weight 20000, outside [-10000, 10000],
    is not refused: [likePost] hands the operation, weight included, to the
    signing agent and reports success. *)
Lemma likePost_weight_20000_is_broadcast :
  ¬ (-10000 ≤ 20000 ≤ 10000) ∧
  SocialUtils.likePost (Sample.browser (JS.Replies Sample.accepted))
    (Some Sample.node) (Some "alice") "bob" "post-1" (Some 20000)
  = ([Env.KeychainBroadcast "alice" [Env.vote "alice" "bob" "post-1" 20000] "posting"],
     JS.Fulfilled SocialUtils.succeeded).
Proof. split; [lia | reflexivity]. Qed.

(** C1 (amended). [likePost] has no range check on the weight. Whatever
    the weight, with a client and a non-empty actor name it builds the vote
    operation carrying exactly (voter, author, permlink, weight), the weight
    being 10000 when omitted, and hands that single operation to the agent
    when one is installed; its result is then the agent's answer. It
    returns an error result, and submits nothing, exactly when the client
    or the actor name is missing. *)
Theorem likePost_builds_vote_for_every_weight :
  (∀ kc c voter0 voter' author permlink (weight : option Z),
     let voter := String voter0 voter' in
     let w := {| Env.hive_keychain := Some kc |} in
     let op := Env.vote voter author permlink (default 10000 weight) in
     SocialUtils.likePost w (Some c) (Some voter) author permlink weight
     = ([Env.KeychainBroadcast voter [op] "posting"],
        match Env.requestBroadcast kc voter [op] "posting" with
        | JS.Replies r =>
            JS.Fulfilled
              (if Env.resp_success r then SocialUtils.succeeded
               else SocialUtils.failed
                      (JS.or_else (Env.resp_message r) "Failed to vote with Keychain"))
        | JS.Throws e => JS.Rejected e
        | JS.Silent => JS.Pending
        end))
  ∧ (∀ w c username author permlink weight,
       (c = None ∨ JS.truthy_opt username = false) ↔
       SocialUtils.likePost w c username author permlink weight
       = ([], JS.Fulfilled (SocialUtils.failed "Client or username not provided"))).
Proof.
  split.
  - intros kc c a v author permlink weight. cbn.
    by destruct (Env.requestBroadcast kc _ _ _).
  - intros w c username author permlink weight. split.
    + intros [-> | Hu]; [done|].
      destruct c as [cl|]; [|done].
      destruct username as [[|a v]|]; done.
    + destruct c as [cl|]; [|by left].
      destruct username as [[|a v]|]; [by right| |by right].
      cbn. unfold SocialUtils.via_keychain.
      destruct (Env.hive_keychain w); intros H; discriminate H.
Qed.

(** C1 (witness): the guard at a missing client. *)
Lemma likePost_builds_vote_for_every_weight_witness :
  SocialUtils.likePost Sample.plain_browser None (Some "alice") "bob" "post-1"
    (Some 20000)
  = ([], JS.Fulfilled (SocialUtils.failed "Client or username not provided")).
Proof.
  apply (proj2 likePost_builds_vote_for_every_weight). by left.
Defined.

(** C3 (counterexample). With no agent installed, a vote without a client
    resolves to a failure, not to a simulated success. *)
Lemma likePost_no_agent_no_client_fails :
  Env.hive_keychain Sample.plain_browser = None ∧
  SocialUtils.likePost Sample.plain_browser None (Some "alice") "bob" "post-1" None
  = ([], JS.Fulfilled
           {| SocialUtils.success := false;
              SocialUtils.error := Some "Client or username not provided";
              SocialUtils.simulated := false; SocialUtils.permlink := None;
              SocialUtils.isFollowing := None; SocialUtils.followCount := None |}).
Proof. split; reflexivity. Qed.

(** C3 (amended). When no signing agent is installed and a client and a
    non-empty actor name are supplied, each write helper (vote, comment on
    a defined parent identifier, follow, unfollow) waits a fixed delay
    (500, 800, 600, 600 ms) and fulfils with [success: true] and the
    [simulated] marker, having submitted nothing; so a success result does
    not imply that the operation reached the ledger. Without an agent no
    helper submits anything, whatever its arguments. *)
Theorem no_agent_simulated_success w :
  Env.hive_keychain w = None →
  (∀ c a n author permlink weight,
     SocialUtils.likePost w (Some c) (Some (String a n)) author permlink weight
     = ([Env.SetTimeout 500],
        JS.Fulfilled (SocialUtils.with_simulated SocialUtils.succeeded)))
  ∧ (∀ te now c a n parentAuthor parentPermlink body options,
       ∃ r,
         SocialUtils.commentOnPost w te now (Some c) (Some (String a n)) parentAuthor
           (Some parentPermlink) body options
         = ([Env.SetTimeout 800], JS.Fulfilled r)
         ∧ SocialUtils.success r = true ∧ SocialUtils.simulated r = true
         ∧ SocialUtils.permlink r
           = Some ("re-" +:+ SocialUtils.keep_slug_chars parentPermlink
                   +:+ "-" +:+ pretty now))
  ∧ (∀ c a n following,
       SocialUtils.followUser w (Some c) (Some (String a n)) following
       = ([Env.SetTimeout 600],
          JS.Fulfilled (SocialUtils.with_simulated SocialUtils.succeeded)))
  ∧ (∀ c a n following,
       SocialUtils.unfollowUser w (Some c) (Some (String a n)) following
       = ([Env.SetTimeout 600],
          JS.Fulfilled (SocialUtils.with_simulated SocialUtils.succeeded)))
  ∧ SocialUtils.success (SocialUtils.with_simulated SocialUtils.succeeded) = true
  ∧ SocialUtils.simulated (SocialUtils.with_simulated SocialUtils.succeeded) = true
  ∧ (∀ te now c username author following post permlink body options weight,
       Env.submissions
         (SocialUtils.likePost w c username author post weight).1 = []
       ∧ Env.submissions
           (SocialUtils.commentOnPost w te now c username author permlink body
              options).1 = []
       ∧ Env.submissions (SocialUtils.followUser w c username following).1 = []
       ∧ Env.submissions (SocialUtils.unfollowUser w c username following).1 = []).
Proof.
  intros Hw. repeat split.
  - intros. cbn. by rewrite via_keychain_no_agent.
  - intros. eexists. cbn. rewrite via_keychain_no_agent by done.
    repeat split; reflexivity.
  - intros. cbn. by rewrite via_keychain_no_agent.
  - intros. cbn. by rewrite via_keychain_no_agent.
  - destruct c as [cl|], username as [[|a n]|]; try done.
    cbn. by rewrite via_keychain_no_agent.
  - destruct c as [cl|], username as [[|a n]|], permlink as [p|]; try done.
    cbn. by rewrite via_keychain_no_agent.
  - destruct c as [cl|], username as [[|a n]|]; try done.
    cbn. by rewrite via_keychain_no_agent.
  - destruct c as [cl|], username as [[|a n]|]; try done.
    cbn. by rewrite via_keychain_no_agent.
Qed.

(** C3 (witness): a browser without the agent. *)
Lemma no_agent_simulated_success_witness :
  SocialUtils.likePost Sample.plain_browser (Some Sample.node) (Some "alice")
    "bob" "post-1" None
  = ([Env.SetTimeout 500],
     JS.Fulfilled (SocialUtils.with_simulated SocialUtils.succeeded)).
Proof.
  apply (proj1 (no_agent_simulated_success Sample.plain_browser eq_refl)).
Defined.

Section HelperResults.
Import JS Env SocialUtils Props.

Lemma via_keychain_typed w account op ok fallback delay :
  agent_answers w → success ok = true → truthy fallback = true →
  typed_result (via_keychain w account op ok fallback delay).2 = true.
Proof.
  intros Hw Hok Hfb. unfold via_keychain.
  destruct (hive_keychain w) as [kc|] eqn:Hkc; cbn.
  - destruct (Hw kc Hkc account [op] "posting") as [r ->]. cbn.
    unfold on_broadcast. destruct (resp_success r); cbn.
    + by rewrite Hok.
    + by rewrite or_else_truthy.
  - by rewrite Hok.
Qed.

Lemma via_keychain_silent w kc account op ok fallback delay :
  hive_keychain w = Some kc →
  requestBroadcast kc account [op] "posting" = Silent →
  (via_keychain w account op ok fallback delay).2 = Pending.
Proof. intros Hw Hs. unfold via_keychain. by rewrite Hw, Hs. Qed.

End HelperResults.

(** C8 (counterexample). With an agent that never invokes the callback,
    [likePost] never resolves: its promise stays pending. *)
Lemma likePost_silent_agent_never_resolves :
  (SocialUtils.likePost (Sample.browser JS.Silent) (Some Sample.node)
     (Some "alice") "bob" "post-1" None).2 = JS.Pending.
Proof. reflexivity. Qed.

(** C8 (amended). Whenever the agent is absent or invokes its callback,
    [likePost], [commentOnPost], [followUser] and [unfollowUser] fulfil
    with a result object whose [success] is a boolean and which carries a
    non-empty [error] on every failure. Each failure path gives a failure:
    an absent client or an absent or empty user name gives, without any
    effect, [success: false] with 'Client or username not provided'
    ('Client or follower not provided' for the two follow helpers); an
    exception thrown while the operation is built (an undefined parent
    identifier in [commentOnPost]) is logged and gives [success: false]
    with the message of the exception, or 'Failed to comment on post'; a
    refusal of the agent gives [success: false] with the message of the
    agent, or the fallback text of the helper; and only an acceptance of
    the agent gives [success: true]. When the agent is installed and never
    invokes the callback, the promise of a helper that passed its guard
    stays pending. *)
Theorem helpers_resolve_to_typed_results w :
  (∀ te now c username author post weight parentPermlink body options following,
     c = None ∨ JS.truthy_opt username = false →
     SocialUtils.likePost w c username author post weight
     = ([], JS.Fulfilled (SocialUtils.failed "Client or username not provided"))
     ∧ SocialUtils.commentOnPost w te now c username author parentPermlink body options
       = ([], JS.Fulfilled (SocialUtils.failed "Client or username not provided"))
     ∧ SocialUtils.followUser w c username following
       = ([], JS.Fulfilled (SocialUtils.failed "Client or follower not provided"))
     ∧ SocialUtils.unfollowUser w c username following
       = ([], JS.Fulfilled (SocialUtils.failed "Client or follower not provided")))
  ∧ (∀ te now c a n author body options,
       ∃ r,
         SocialUtils.commentOnPost w te now (Some c) (Some (String a n)) author None
           body options
         = ([Env.ConsoleError "Error commenting on post:"], JS.Fulfilled r)
         ∧ SocialUtils.success r = false
         ∧ SocialUtils.error r
           = Some (JS.or_else (JS.err_message te) "Failed to comment on post")
         ∧ JS.truthy_opt (SocialUtils.error r) = true)
  ∧ (∀ kc r,
       Env.hive_keychain w = Some kc →
       (∀ account ops authority,
          Env.requestBroadcast kc account ops authority = JS.Replies r) →
       ∀ te now c a n author post weight parentPermlink body options following,
         let u := Some (String a n) in
         Props.answered_with r "Failed to vote with Keychain"
           (SocialUtils.likePost w (Some c) u author post weight).2
         ∧ Props.answered_with r "Failed to comment with Keychain"
             (SocialUtils.commentOnPost w te now (Some c) u author
                (Some parentPermlink) body options).2
         ∧ Props.answered_with r "Failed to follow with Keychain"
             (SocialUtils.followUser w (Some c) u following).2
         ∧ Props.answered_with r "Failed to unfollow with Keychain"
             (SocialUtils.unfollowUser w (Some c) u following).2)
  ∧ (Props.agent_answers w →
     ∀ te now c username author post weight parentPermlink body options following,
       Props.typed_result
         (SocialUtils.likePost w c username author post weight).2 = true
       ∧ Props.typed_result
           (SocialUtils.commentOnPost w te now c username author parentPermlink body
              options).2 = true
       ∧ Props.typed_result (SocialUtils.followUser w c username following).2 = true
       ∧ Props.typed_result (SocialUtils.unfollowUser w c username following).2 = true)
  ∧ (∀ kc, Env.hive_keychain w = Some kc →
       (∀ account ops authority,
          Env.requestBroadcast kc account ops authority = JS.Silent) →
       ∀ te now c a n author post weight parentPermlink body options following,
         (SocialUtils.likePost w (Some c) (Some (String a n)) author post weight).2
         = JS.Pending
         ∧ (SocialUtils.commentOnPost w te now (Some c) (Some (String a n)) author
              (Some parentPermlink) body options).2 = JS.Pending
         ∧ (SocialUtils.followUser w (Some c) (Some (String a n)) following).2
           = JS.Pending
         ∧ (SocialUtils.unfollowUser w (Some c) (Some (String a n)) following).2
           = JS.Pending).
Proof.
  split; [|split; [|split; [|split]]].
  - intros te now c username author post weight parentPermlink body options
      following Hbad.
    assert (Hcase : c = None ∨ username = None ∨ username = Some "").
    { destruct Hbad as [?|Hu]; [by left|]. right.
      destruct username as [[|a n]|]; [by right|done|by left]. }
    destruct Hcase as [->|[->| ->]]; try by destruct c.
    done.
  - intros te now c a n author body options. eexists. split; [reflexivity|].
    split; [done|]. split; [done|]. cbn. by apply or_else_truthy.
  - intros kc r Hkc Hr te now c a n author post weight parentPermlink body options
      following. cbn zeta.
    assert (Hans : ∀ account op ok fallback delay,
      SocialUtils.success ok = true → SocialUtils.error ok = None →
      JS.truthy fallback = true →
      Props.answered_with r fallback
        (SocialUtils.via_keychain w account op ok fallback delay).2).
    { intros account op ok fallback delay Hok Herr Hfb. unfold Props.answered_with.
      rewrite (via_keychain_agent w kc) by done. cbn. rewrite Hr. cbn.
      eexists. split; [reflexivity|]. unfold SocialUtils.on_broadcast.
      destruct (Env.resp_success r); cbn; [done|].
      split; [done|]. split; [done|]. by apply or_else_truthy. }
    split; [|split; [|split]]; cbn; by apply Hans.
  - intros Hw te now c username author post weight parentPermlink body options
      following.
    repeat split.
    + destruct c as [cl|], username as [[|a n]|]; try done.
      cbn. by apply via_keychain_typed.
    + destruct c as [cl|], username as [[|a n]|]; try done.
      destruct parentPermlink as [p|]; cbn.
      * by apply via_keychain_typed.
      * by rewrite or_else_truthy.
    + destruct c as [cl|], username as [[|a n]|]; try done.
      cbn. by apply via_keychain_typed.
    + destruct c as [cl|], username as [[|a n]|]; try done.
      cbn. by apply via_keychain_typed.
  - intros kc Hkc Hsilent te now c a n author post weight parentPermlink body
      options following.
    repeat split; cbn; by eapply via_keychain_silent.
Qed.

(** C8 (witness): an agent that refuses the request of "alice". *)
Lemma helpers_resolve_to_typed_results_witness :
  ∃ res,
    (SocialUtils.likePost (Sample.browser (JS.Replies Sample.refused))
       (Some Sample.node) (Some "alice") "bob" "post-1" None).2 = JS.Fulfilled res
    ∧ SocialUtils.success res = false
    ∧ SocialUtils.error res = Some "user cancelled".
Proof.
  pose proof (proj1 (proj2 (proj2
                (helpers_resolve_to_typed_results
                   (Sample.browser (JS.Replies Sample.refused)))))
                (Sample.agent (JS.Replies Sample.refused)) Sample.refused eq_refl
                (λ _ _ _, eq_refl) Sample.type_error 0%N Sample.node "a"%char "lice"
                "bob" "post-1" None "" "" [] "") as H.
  cbn zeta in H. destruct H as [(res & Hres & Hs & He & _) _].
  exists res. split; [exact Hres|]. split; [exact Hs|exact He].
Defined.

(** The same helper when the agent throws inside the promise executor:
    the returned promise is rejected, [catch] is not reached. *)
Lemma likePost_throwing_agent_rejects e :
  (SocialUtils.likePost (Sample.browser (JS.Throws e)) (Some Sample.node)
     (Some "alice") "bob" "post-1" None).2 = JS.Rejected e.
Proof. reflexivity. Qed.

(** C10. [checkIfFollowing] is not a function of its arguments and of the
    ledger: whenever it reports an [isFollowing] flag, the flag is
    [Math.random() > 0.5], whatever the client, the follower, the followed
    account and the answer of the ledger; so for every client whose call
    returns, two calls with the same arguments and the same ledger answer
    report different flags for the draws 1/4 and 3/4, and
    [checkFollowStatus] shows that flag. *)
Theorem checkIfFollowing_flag_is_the_random_draw :
  (∀ rnd c follower following b,
     Props.reported_following
       (SocialUtils.checkIfFollowing rnd c follower following).2 = Some b →
     b = negb (Qle_bool rnd (1 # 2)))
  ∧ (∀ cl follower following count,
       Env.database_call cl "get_follow_count" [follower] = JS.Fulfilled count →
       Props.reported_following
         (SocialUtils.checkIfFollowing (1 # 4) (Some cl) follower following).2
       = Some false
       ∧ Props.reported_following
           (SocialUtils.checkIfFollowing (3 # 4) (Some cl) follower following).2
         = Some true
       ∧ (SocialUtils.checkIfFollowing (1 # 4) (Some cl) follower following).1
         = (SocialUtils.checkIfFollowing (3 # 4) (Some cl) follower following).1)
  ∧ (∀ rnd cl u follower username count st,
       Post.name u = Some follower →
       Env.database_call cl "get_follow_count" [follower] = JS.Fulfilled count →
       FollowButton.isFollowing
         (FollowButton.checkFollowStatus rnd
            {| FollowButton.client := Some cl; FollowButton.ctx_user := Some u |}
            u username st).2
       = negb (Qle_bool rnd (1 # 2))).
Proof.
  split; [|split].
  - intros rnd c follower following b. unfold SocialUtils.checkIfFollowing.
    destruct c as [cl|]; [|done].
    destruct (Env.database_call cl _ _); cbn; congruence.
  - intros cl follower following count Hcall.
    unfold SocialUtils.checkIfFollowing. by rewrite Hcall.
  - intros rnd cl u follower username count st Hu Hcall.
    unfold FollowButton.checkFollowStatus, SocialUtils.checkIfFollowing. cbn.
    rewrite Hu. cbn. by rewrite Hcall.
Qed.

(** C10 (witness): a node that answers the follow count. *)
Lemma checkIfFollowing_flag_is_the_random_draw_witness :
  Props.reported_following
    (SocialUtils.checkIfFollowing (1 # 4) (Some Sample.node) "alice" "bob").2
  = Some false
  ∧ Props.reported_following
      (SocialUtils.checkIfFollowing (3 # 4) (Some Sample.node) "alice" "bob").2
    = Some true
  ∧ (SocialUtils.checkIfFollowing (1 # 4) (Some Sample.node) "alice" "bob").1
    = (SocialUtils.checkIfFollowing (3 # 4) (Some Sample.node) "alice" "bob").1.
Proof.
  apply (proj1 (proj2 checkIfFollowing_flag_is_the_random_draw)
           Sample.node "alice" "bob" (JS.JObj [])).
  reflexivity.
Defined.

(** C2 (counterexample). Between the intent and the resolution of the
    helper the handlers have only raised their busy flag and cleared the
    error: the vote flag and the follow flag are still unset, so nothing
    was applied speculatively. With the user that [App] provides, a string,
    which has no [name], the vote of a Keychain user then ends with the
    flag still unset, whatever the agent would answer. *)
Lemma pending_intent_leaves_view_unchanged :
  Post.handleVote_begin
    {| Post.isVoting := false; Post.voteError := ""; Post.hasVoted := false |}
  = {| Post.isVoting := true; Post.voteError := ""; Post.hasVoted := false |}
  ∧ FollowButton.handleFollowToggle_begin
      {| FollowButton.isFollowing := false; FollowButton.loading := false;
         FollowButton.processing := false; FollowButton.error := "" |}
    = {| FollowButton.isFollowing := false; FollowButton.loading := false;
         FollowButton.processing := true; FollowButton.error := "" |}
  ∧ Post.handleVote (Sample.browser (JS.Replies Sample.accepted))
      {| Post.client := Some Sample.node;
         Post.ctx_user := Some {| Post.name := None |};
         Post.isKeychain := true |}
      {| Post.author := "bob"; Post.permlink := "post-1" |}
      {| Post.isVoting := false; Post.voteError := ""; Post.hasVoted := false |}
    = ([], {| Post.isVoting := false;
              Post.voteError := "Client or username not provided";
              Post.hasVoted := false |}).
Proof. split; [|split]; reflexivity. Qed.

(** C2 (amended). A vote intent of somebody who is not signed in or whose
    session has no Keychain flag, and a follow/unfollow intent of somebody
    who is not signed in, only raise an alert: the state is left as it is.
    On a vote intent of a signed-in user with the Keychain flag, and on a
    follow/unfollow intent of a signed-in user, the handler only raises its
    busy flag and clears the error message; the vote flag and the follow
    flag keep their value while the submission is pending. When the helper
    resolves with success the flag is set (vote) or becomes the negation of
    the value the handler captured (follow); when it resolves with a
    failure, or rejects, the flag keeps its value from before the intent
    and a non-empty error message is shown. In every settled case the busy
    flag is lowered again. *)
Theorem view_model_follows_the_result :
  (∀ w c u kcf p st,
     let ctx := {| Post.client := c; Post.ctx_user := u; Post.isKeychain := kcf |} in
     let run := Post.handleVote w ctx p st in
     match u with
     | Some usr =>
         if kcf then
           match (SocialUtils.likePost w c (Post.name usr) (Post.author p)
                    (Post.permlink p) None).2 with
           | JS.Pending =>
               run.2 = {| Post.isVoting := true; Post.voteError := "";
                          Post.hasVoted := Post.hasVoted st |}
           | JS.Fulfilled r =>
               if SocialUtils.success r
               then run.2 = {| Post.isVoting := false; Post.voteError := "";
                               Post.hasVoted := true |}
               else Post.hasVoted run.2 = Post.hasVoted st
                    ∧ Post.isVoting run.2 = false
                    ∧ JS.truthy (Post.voteError run.2) = true
           | JS.Rejected _ =>
               Post.hasVoted run.2 = Post.hasVoted st ∧ Post.isVoting run.2 = false
               ∧ JS.truthy (Post.voteError run.2) = true
           end
         else run = ([Env.Alert "Please login with Hive Keychain to vote"], st)
     | None => run = ([Env.Alert "Please login with Hive Keychain to vote"], st)
     end)
  ∧ (∀ w c u username st,
       let ctx := {| FollowButton.client := c; FollowButton.ctx_user := u |} in
       let run := FollowButton.handleFollowToggle w ctx username st in
       match u with
       | Some usr =>
           match (if FollowButton.isFollowing st
                  then SocialUtils.unfollowUser w c (Post.name usr) username
                  else SocialUtils.followUser w c (Post.name usr) username).2 with
           | JS.Pending =>
               run.2 = {| FollowButton.isFollowing := FollowButton.isFollowing st;
                          FollowButton.loading := FollowButton.loading st;
                          FollowButton.processing := true;
                          FollowButton.error := "" |}
           | JS.Fulfilled r =>
               if SocialUtils.success r
               then run.2
                    = {| FollowButton.isFollowing := negb (FollowButton.isFollowing st);
                         FollowButton.loading := FollowButton.loading st;
                         FollowButton.processing := false;
                         FollowButton.error := "" |}
               else FollowButton.isFollowing run.2 = FollowButton.isFollowing st
                    ∧ FollowButton.processing run.2 = false
                    ∧ JS.truthy (FollowButton.error run.2) = true
           | JS.Rejected _ =>
               FollowButton.isFollowing run.2 = FollowButton.isFollowing st
               ∧ FollowButton.processing run.2 = false
               ∧ JS.truthy (FollowButton.error run.2) = true
           end
       | None => run = ([Env.Alert "Please login to follow users"], st)
       end).
Proof.
  split.
  - intros w c [u|] kcf p st; [|done]. destruct kcf; [|done].
    cbn. unfold Post.handleVote. cbn.
    destruct (SocialUtils.likePost w c (Post.name u) (Post.author p)
                (Post.permlink p) None) as [effs [r|e|]]; cbn; [|done|done].
    destruct (SocialUtils.success r); cbn; [done|].
    repeat split. by apply or_else_truthy.
  - intros w c [u|] username st; [|done].
    cbn. unfold FollowButton.handleFollowToggle. cbn.
    destruct (if FollowButton.isFollowing st
              then SocialUtils.unfollowUser w c (Post.name u) username
              else SocialUtils.followUser w c (Post.name u) username)
      as [effs [r|e|]]; cbn; [| |done].
    + destruct (SocialUtils.success r); cbn; [done|].
      repeat split. apply or_else_truthy.
      by destruct (FollowButton.isFollowing st).
    + by repeat split.
Qed.

(* ===================================================================== *)
(** ** Properties of the string primitives *)
(* ===================================================================== *)

Section Strings.
Import JS Props.

Lemma all_chars_app p a b :
  all_chars p (a +:+ b) = all_chars p a && all_chars p b.
Proof. induction a as [|c a IH]; simpl; [done|]. by rewrite IH, andb_assoc. Qed.


Lemma length_take n s : (String.length (take_chars n s) ≤ n)%nat.
Proof.
  revert s. induction n as [|n IH]; intros [|c r]; cbn; try lia.
  specialize (IH r). lia.
Qed.




Lemma is_space_lower_char c : is_space (lower_char c) = is_space c.
Proof. by destruct c as [[] [] [] [] [] [] [] []]. Qed.

Lemma all_space_toLowerCase s :
  all_chars is_space (toLowerCase s) = all_chars is_space s.
Proof.
  induction s as [|c r IH]; cbn; [done|].
  by rewrite is_space_lower_char, <- IH.
Qed.

Lemma trimStart_empty s : trimStart s = "" ↔ all_chars is_space s = true.
Proof.
  induction s as [|c r IH]; cbn; [done|].
  destruct (is_space c); cbn; [done|]. split; discriminate.
Qed.

Lemma trimEnd_empty s : trimEnd s = "" ↔ all_chars is_space s = true.
Proof.
  induction s as [|c r IH]; cbn; [done|].
  destruct (trimEnd r) as [|c' r'] eqn:Hr.
  - destruct IH as [IH _]. rewrite (IH eq_refl), andb_true_r.
    destruct (is_space c); split; done.
  - destruct (all_chars is_space r) eqn:Hall.
    + destruct IH as [_ IH]. discriminate (IH eq_refl).
    + rewrite andb_false_r. split; discriminate.
Qed.

Lemma all_space_trimStart s :
  all_chars is_space (trimStart s) = all_chars is_space s.
Proof.
  induction s as [|c r IH]; cbn; [done|].
  destruct (is_space c) eqn:Hc; cbn; [done|]. by rewrite Hc.
Qed.

Lemma blank_spec s : blank s = all_chars is_space s.
Proof.
  unfold blank, trim. rewrite <- all_space_trimStart.
  destruct (trimEnd (trimStart s)) as [|c r] eqn:Ht; cbn.
  - symmetry. by apply trimEnd_empty.
  - destruct (all_chars is_space (trimStart s)) eqn:Hall; [|done].
    apply trimEnd_empty in Hall. congruence.
Qed.

Lemma split_from_inked cur s :
  all_chars is_space cur && all_chars is_space s = false →
  ∃ piece, piece ∈ split_from " " cur s ∧ all_chars is_space piece = false.
Proof.
  revert cur. induction s as [|c r IH]; intros cur; cbn.
  - rewrite andb_true_r. intros Hcur. exists cur. split; [set_solver | done].
  - intros Hink. destruct (Stdlib.Strings.Ascii.eqb c " ") eqn:Hsp.
    + apply Stdlib.Strings.Ascii.eqb_eq in Hsp as ->.
      destruct (all_chars is_space cur) eqn:Hcur.
      * destruct (IH "") as (piece & Hin & Hp); [done|].
        exists piece. split; [set_solver | done].
      * exists cur. split; [set_solver | done].
    + apply IH. rewrite all_chars_app. cbn. rewrite andb_true_r.
      by rewrite <- andb_assoc.
Qed.

Lemma append_inv_head s a b : s +:+ a = s +:+ b → a = b.
Proof. induction s as [|c r IH]; cbn; [done|]. intros [= H]. by apply IH. Qed.

End Strings.

Section CreatePostFacts.
Import JS Env Timers CreatePost Props.

(** A tag string that is not blank yields at least one tag, so the test
    [tagArray.length === 0] of [handleSubmit] never fires. *)
Lemma tagArray_nonempty tags : blank tags = false → tagArray tags ≠ [].
Proof.
  rewrite blank_spec, <- all_space_toLowerCase. intros Hink.
  destruct (split_from_inked "" (toLowerCase tags)) as (piece & Hin & Hp);
    [done|].
  unfold tagArray, split. intros Hnil.
  assert (trim piece ∈ List.filter truthy (trim <$> split_from " " "" (toLowerCase tags)))
    as Hmem.
  { apply list_elem_of_In, filter_In. split.
    - apply list_elem_of_In, list_elem_of_fmap. eauto.
    - rewrite <- blank_spec in Hp. unfold blank in Hp.
      by destruct (truthy (trim piece)). }
  rewrite Hnil in Hmem. by apply not_elem_of_nil in Hmem.
Qed.

Lemma tagArray_truthy tags t : t ∈ tagArray tags → truthy t = true.
Proof. unfold tagArray. intros H%list_elem_of_In%filter_In. tauto. Qed.

End CreatePostFacts.

Section SlugWords.
Import JS Props CreatePost.


















End SlugWords.

(** [generatePermlink] on a title, a date and a random draw. *)
Example generatePermlink_hello_world :
  CreatePost.generatePermlink "Hello, World!  Again" "2026-11-02T17:25:00.000Z"
    "0.k3j9x2abcde"
  = "hello-world-again-20261102-k3j9x2".
Proof. reflexivity. Qed.



(** C6 (counterexample). A title made of one space is not empty, yet
    [handleSubmit] refuses the request; and [handleDirectPost] publishes a
    request whose tag field is empty. *)
Lemma publish_validation_counterexample :
  (let wd :=
     CreatePost.handleSubmit Sample.parse_key Sample.plain_browser
       (Some Sample.good_key) "2026-11-02T17:25:00.000Z" "0.k3j9x2abcde"
       {| CreatePost.user := Some "alice"; CreatePost.client := Some Sample.node;
          CreatePost.isKeychain := false |}
       (Sample.form " " "Body" "intro") in
   CreatePost.error (Timers.view wd) = "Please enter a title"
   ∧ Timers.trace wd = [])
  ∧ Env.submissions
      (Timers.trace
         (CreatePost.handleDirectPost Sample.parse_key Sample.node
            (Some Sample.good_key) 1793640300000%N
            {| CreatePost.user := Some "alice"; CreatePost.client := Some Sample.node;
               CreatePost.isKeychain := false |}
            (Sample.form "Hello World" "Body" "")))
    = [Env.SendOperations
         [Env.comment "" "hive-174695" "alice" "post-1793640300000" "Hello World"
            "Body"
            (CreatePost.jsonMetadata ["hive-174695"; "hivesocial"] "")]
         {| Env.key_data := Sample.good_key |}].
Proof. split; [split|]; reflexivity. Qed.

Section PublishValidation.
Import JS Env Timers CreatePost Props.

Variable PrivateKey_from : string → completion PrivateKey.

Lemma handleSubmit_refuses w answer now_iso rnd36 ctx wd :
  truthy_opt (user ctx) = false ∨ blank (title (view wd)) = true
  ∨ blank (body (view wd)) = true ∨ blank (tags (view wd)) = true →
  let wd' := handleSubmit PrivateKey_from w answer now_iso rnd36 ctx wd in
  trace wd' = trace wd ∧ timers wd' = timers wd
  ∧ truthy (error (view wd')) = true
  ∧ isSubmitting (view wd') = isSubmitting (view wd).
Proof.
  unfold blank, handleSubmit. intros Hbad.
  destruct (user ctx) as [[|a n]|]; [done| |done].
  destruct (negb (truthy (trim (title (view wd))))); [done|].
  destruct (negb (truthy (trim (body (view wd))))); [done|].
  destruct (negb (truthy (trim (tags (view wd))))); [done|].
  cbn in Hbad. by destruct Hbad as [?|[?|[?|?]]].
Qed.

Lemma handleDirectPost_refuses directClient answer now ctx wd :
  truthy_opt (user ctx) = false ∨ blank (title (view wd)) = true
  ∨ blank (body (view wd)) = true →
  let wd' := handleDirectPost PrivateKey_from directClient answer now ctx wd in
  trace wd' = trace wd ∧ timers wd' = timers wd
  ∧ truthy (error (view wd')) = true
  ∧ isSubmitting (view wd') = isSubmitting (view wd).
Proof.
  unfold blank, handleDirectPost. intros Hbad.
  destruct (user ctx) as [[|a n]|]; [done| |done].
  destruct (negb (truthy (trim (title (view wd))))); [done|].
  destruct (negb (truthy (trim (body (view wd))))); [done|].
  cbn in Hbad. by destruct Hbad as [?|[?|?]].
Qed.

End PublishValidation.

Section PublishPaths.
Import JS Env Timers CreatePost Props.

Variable PrivateKey_from : string → completion PrivateKey.

Lemma submissions_app a b : submissions (a ++ b) = submissions a ++ submissions b.
Proof. apply List.filter_app. Qed.

Lemma submissions_snoc_other a e :
  is_submission e = false → submissions (a ++ [e]) = submissions a.
Proof. intros He. rewrite submissions_app. cbn. rewrite He. apply app_nil_r. Qed.

Lemma submissions_snoc a e :
  is_submission e = true → submissions (a ++ [e]) = submissions a ++ [e].
Proof. intros He. rewrite submissions_app. cbn. by rewrite He. Qed.

(** What the direct branch submits: nothing, or one batch of one
    operation signed with the key parsed from a non-empty answer. *)
Lemma submit_direct_submissions answer ctx st u permlink parent meta wd :
  let wd' := submit_direct PrivateKey_from answer ctx st u permlink parent meta wd in
  submissions (trace wd') = submissions (trace wd)
  ∨ ∃ a k key,
      answer = Some (String a k) ∧ PrivateKey_from (String a k) = Normal key
      ∧ submissions (trace wd')
        = submissions (trace wd)
          ++ [SendOperations
                [comment "" parent u permlink (title st) (body st) meta] key].
Proof.
  unfold submit_direct.
  destruct (activeClient ctx st) as [cl|]; [|by left].
  destruct answer as [[|a k]|]; [left; cbn; by rewrite submissions_snoc_other| |
                                 left; cbn; by rewrite submissions_snoc_other].
  destruct (PrivateKey_from (String a k)) as [key|e] eqn:Hkey.
  - right. exists a, k, key. repeat split; [done|].
    destruct (sendOperations cl _ key); cbn;
      rewrite ?submissions_snoc_other by done;
      rewrite submissions_snoc by done;
      by rewrite submissions_snoc_other.
  - left. cbn. by rewrite !submissions_snoc_other.
Qed.

Lemma handleSubmit_direct_submissions w answer now_iso rnd36 ctx wd :
  postingMethod (view wd) = "direct" →
  let wd' := handleSubmit PrivateKey_from w answer now_iso rnd36 ctx wd in
  submissions (trace wd') = submissions (trace wd)
  ∨ ∃ a k key op,
      answer = Some (String a k) ∧ PrivateKey_from (String a k) = Normal key
      ∧ submissions (trace wd') = submissions (trace wd) ++ [SendOperations [op] key].
Proof.
  intros Hpm. unfold handleSubmit.
  destruct (user ctx) as [[|a n]|]; [by left| |by left].
  destruct (negb (truthy (trim (title (view wd))))); [by left|].
  destruct (negb (truthy (trim (body (view wd))))); [by left|].
  destruct (negb (truthy (trim (tags (view wd))))); [by left|].
  destruct (tagArray (tags (view wd))) as [|tag0 rest]; [by left|].
  rewrite Hpm. cbn [String.eqb Stdlib.Strings.Ascii.eqb Bool.eqb].
  match goal with
  | |- context [submit_direct _ ?ans ?c ?st ?u ?pl ?par ?meta ?w1] =>
      destruct (submit_direct_submissions ans c st u pl par meta w1)
        as [Hnone | (b & k & key & Hans & Hkey & Hsub)]
  end.
  - by left.
  - right. exists b, k, key. eexists. repeat split; [done|done|]. apply Hsub.
Qed.

(** What a validated form gives when posted directly. *)
Lemma handleSubmit_direct_validated w answer now_iso rnd36 ctx a n wd :
  let st := view wd in
  let u := String a n in
  user ctx = Some u →
  blank (title st) = false → blank (body st) = false → blank (tags st) = false →
  postingMethod st = "direct" →
  ∃ tag0 rest,
    tagArray (tags st) = tag0 :: rest ∧
    handleSubmit PrivateKey_from w answer now_iso rnd36 ctx wd
    = submit_direct PrivateKey_from answer ctx st u
        (generatePermlink (title st) now_iso rnd36) tag0
        (jsonMetadata (tag0 :: rest) (imageUrl st))
        (upd (set_isSubmitting true)
           (upd (λ s, set_debugInfo NoDebug (set_error "" s)) wd)).
Proof.
  cbn zeta. unfold blank. intros Hu Ht Hb Hg Hpm.
  pose proof (tagArray_nonempty (tags (view wd)) Hg) as Hne.
  destruct (tagArray (tags (view wd))) as [|tag0 rest] eqn:Htags; [done|].
  exists tag0, rest. split; [done|].
  unfold handleSubmit. rewrite Hu, Ht, Hb, Hg, Htags, Hpm.
  cbn [String.eqb Stdlib.Strings.Ascii.eqb Bool.eqb].
  pose proof (tagArray_truthy (tags (view wd)) tag0) as Htrue.
  rewrite Htags in Htrue. unfold or_else. rewrite Htrue by set_solver. done.
Qed.

Lemma handleDirectPost_refused_key directClient answer now ctx wd :
  key_refused PrivateKey_from answer →
  submissions (trace (handleDirectPost PrivateKey_from directClient answer now ctx wd))
  = submissions (trace wd).
Proof.
  intros Hbad. unfold handleDirectPost.
  destruct (user ctx) as [[|a n]|]; [done| |done].
  destruct (negb (truthy (trim (title (view wd))))); [done|].
  destruct (negb (truthy (trim (body (view wd))))); [done|].
  unfold resetFormState.
  destruct answer as [[|b k]|]; cbn in Hbad.
  - destruct (timeoutId (view wd)); cbn; by rewrite submissions_snoc_other.
  - destruct Hbad as [e ->].
    destruct (timeoutId (view wd)); cbn; by rewrite submissions_snoc_other.
  - destruct (timeoutId (view wd)); cbn; by rewrite submissions_snoc_other.
Qed.

End PublishPaths.

(** C5. On the key-signed path of [handleSubmit] the answer to the key
    prompt is parsed by [PrivateKey.from] before anything is sent. When the
    key is refused (prompt cancelled, empty answer, or a parse error) the
    handler submits nothing; on a validated form with a client it then
    stops at once with the message "Posting key is required to publish a
    post." or "Invalid private key format. ..." and lowers the submitting
    flag. Whatever the inputs, the handler submits either nothing or
    exactly one [sendOperations] batch of one operation, signed with the
    key parsed from the answer; on a validated form with a client and a
    key that parses, that batch is the [comment] operation of the post. *)
Theorem key_is_parsed_before_broadcast
    (PrivateKey_from : string → JS.completion Env.PrivateKey) :
  (∀ w answer now_iso rnd36 ctx wd,
     CreatePost.postingMethod (Timers.view wd) = "direct" →
     Props.key_refused PrivateKey_from answer →
     Env.submissions
       (Timers.trace
          (CreatePost.handleSubmit PrivateKey_from w answer now_iso rnd36 ctx wd))
     = Env.submissions (Timers.trace wd))
  ∧ (∀ w answer now_iso rnd36 ctx wd,
       CreatePost.postingMethod (Timers.view wd) = "direct" →
       let wd' := CreatePost.handleSubmit PrivateKey_from w answer now_iso rnd36 ctx wd in
       Env.submissions (Timers.trace wd') = Env.submissions (Timers.trace wd)
       ∨ ∃ a k key op,
           answer = Some (String a k)
           ∧ PrivateKey_from (String a k) = JS.Normal key
           ∧ Env.submissions (Timers.trace wd')
             = Env.submissions (Timers.trace wd) ++ [Env.SendOperations [op] key])
  ∧ (∀ directClient answer now ctx wd,
       Props.key_refused PrivateKey_from answer →
       Env.submissions
         (Timers.trace
            (CreatePost.handleDirectPost PrivateKey_from directClient answer now ctx
               wd))
       = Env.submissions (Timers.trace wd))
  ∧ (∀ w answer now_iso rnd36 ctx a n cl wd,
       let st := Timers.view wd in
       let u := String a n in
       let wd' :=
         CreatePost.handleSubmit PrivateKey_from w answer now_iso rnd36 ctx wd in
       CreatePost.user ctx = Some u →
       CreatePost.activeClient ctx st = Some cl →
       Props.blank (CreatePost.title st) = false →
       Props.blank (CreatePost.body st) = false →
       Props.blank (CreatePost.tags st) = false →
       CreatePost.postingMethod st = "direct" →
       match answer with
       | Some (String b k) =>
           match PrivateKey_from (String b k) with
           | JS.Abrupt _ =>
               CreatePost.error (Timers.view wd') = CreatePost.invalid_key_message
               ∧ CreatePost.isSubmitting (Timers.view wd') = false
               ∧ Timers.timers wd' = Timers.timers wd
           | JS.Normal key =>
               ∃ tag0 rest,
                 CreatePost.tagArray (CreatePost.tags st) = tag0 :: rest
                 ∧ Env.submissions (Timers.trace wd')
                   = Env.submissions (Timers.trace wd)
                     ++ [Env.SendOperations
                           [Env.comment "" tag0 u
                              (CreatePost.generatePermlink (CreatePost.title st)
                                 now_iso rnd36)
                              (CreatePost.title st) (CreatePost.body st)
                              (CreatePost.jsonMetadata (tag0 :: rest)
                                 (CreatePost.imageUrl st))]
                           key]
           end
       | _ =>
           CreatePost.error (Timers.view wd')
           = "Posting key is required to publish a post."
           ∧ CreatePost.isSubmitting (Timers.view wd') = false
           ∧ Timers.timers wd' = Timers.timers wd
       end).
Proof.
  split; [|split; [|split]].
  - intros w answer now_iso rnd36 ctx wd Hpm Hbad.
    destruct (handleSubmit_direct_submissions PrivateKey_from w answer now_iso
                rnd36 ctx wd Hpm) as [H | (a & k & key & op & -> & Hkey & _)];
      [done|].
    cbn in Hbad. destruct Hbad as [e He]. congruence.
  - intros. by apply handleSubmit_direct_submissions.
  - intros. by apply handleDirectPost_refused_key.
  - intros w answer now_iso rnd36 ctx a n cl wd st u wd' Hu Hcl Ht Hb Hg Hpm.
    destruct (handleSubmit_direct_validated PrivateKey_from w answer now_iso rnd36
                ctx a n wd Hu Ht Hb Hg Hpm) as (tag0 & rest & Htags & Heq).
    subst st u wd'. rewrite Heq. unfold CreatePost.submit_direct. rewrite Hcl.
    destruct answer as [[|b k]|]; [done| |done].
    destruct (PrivateKey_from (String b k)) as [key|e]; [|done].
    exists tag0, rest. split; [done|].
    destruct (Env.sendOperations cl _ key); cbn;
      rewrite ?submissions_snoc_other by done;
      rewrite submissions_snoc by done;
      by rewrite submissions_snoc_other.
Qed.

(** C5 (witness): "alice" publishes "Hello World" with the tag "intro" and
    answers the prompt with a string that is not a key. *)
Lemma key_is_parsed_before_broadcast_witness :
  Env.submissions
    (Timers.trace
       (CreatePost.handleSubmit Sample.parse_key Sample.plain_browser
          (Some "not-a-key") "2026-11-02T17:25:00.000Z" "0.k3j9x2abcde"
          {| CreatePost.user := Some "alice"; CreatePost.client := Some Sample.node;
             CreatePost.isKeychain := false |}
          (Sample.form "Hello World" "Body" "intro")))
  = Env.submissions (Timers.trace (Sample.form "Hello World" "Body" "intro")).
Proof.
  apply (proj1 (key_is_parsed_before_broadcast Sample.parse_key)).
  - reflexivity.
  - cbn. by eexists.
Defined.

Section PublishMetadata.
Import JS Env Timers CreatePost Props.

Variable PrivateKey_from : string → completion PrivateKey.

Lemma handleSubmit_keychain_validated kc answer now_iso rnd36 a n c kcf wd :
  let st := view wd in
  let u := String a n in
  blank (title st) = false → blank (body st) = false → blank (tags st) = false →
  postingMethod st = "keychain" →
  ∃ tag0 rest,
    tagArray (tags st) = tag0 :: rest ∧
    submissions
      (trace
         (handleSubmit PrivateKey_from {| hive_keychain := Some kc |} answer now_iso
            rnd36 {| user := Some u; client := c; isKeychain := kcf |} wd))
    = submissions (trace wd)
      ++ [KeychainPost u (generatePermlink (title st) now_iso rnd36) tag0
            (title st) (body st) (jsonMetadata (tag0 :: rest) (imageUrl st))
            "posting"].
Proof.
  cbn zeta. unfold blank. intros Ht Hb Hg Hpm.
  pose proof (tagArray_nonempty (tags (view wd)) Hg) as Hne.
  destruct (tagArray (tags (view wd))) as [|tag0 rest] eqn:Htags; [done|].
  exists tag0, rest. split; [done|].
  pose proof (tagArray_truthy (tags (view wd)) tag0) as Htrue.
  rewrite Htags in Htrue.
  unfold handleSubmit. cbn [user hive_keychain]. rewrite Ht, Hb, Hg, Htags, Hpm.
  cbn [String.eqb Stdlib.Strings.Ascii.eqb Bool.eqb].
  unfold or_else. rewrite Htrue by set_solver.
  destruct (requestPost kc _ _ _ _ _ _ _) as [r|e|].
  - unfold on_post_response. destruct (resp_success r); cbn;
      by rewrite submissions_snoc.
  - cbn. rewrite submissions_snoc_other by done. by rewrite submissions_snoc.
  - cbn. by rewrite submissions_snoc.
Qed.

Lemma handleDirectPost_publishes directClient b k key now a n c kcf wd :
  let st := view wd in
  let u := String a n in
  blank (title st) = false → blank (body st) = false →
  PrivateKey_from (String b k) = Normal key →
  submissions
    (trace
       (handleDirectPost PrivateKey_from directClient (Some (String b k)) now
          {| user := Some u; client := c; isKeychain := kcf |} wd))
  = submissions (trace wd)
    ++ [SendOperations
          [comment "" "hive-174695" u ("post-" +:+ pretty now) (title st) (body st)
             (jsonMetadata ["hive-174695"; "hivesocial"] (imageUrl st))]
          key].
Proof.
  cbn zeta. unfold blank. intros Ht Hb Hkey.
  unfold handleDirectPost. cbn [user]. rewrite Ht, Hb.
  unfold resetFormState.
  destruct (timeoutId (view wd)) as [id|]; cbn; rewrite Hkey;
    destruct (sendOperations directClient _ key); cbn;
    rewrite ?submissions_snoc_other by done;
    rewrite submissions_snoc by done;
    by rewrite submissions_snoc_other.
Qed.

End PublishMetadata.

(** C6 (amended). [handleSubmit] refuses, with an error message and
    without any effect, a request with no signed-in user or whose title,
    body or tag string is blank (empty once white space is trimmed). A
    request with a signed-in user and three non-blank fields has at least
    one tag; it is handed to the agent when the posting method is
    'keychain' and the agent is installed, and sent to the ledger when the
    method is 'direct', a client is available and the answer to the key
    prompt parses as a key, in both cases with the identifier given by
    [generatePermlink], the first tag as parent and the metadata made of
    the tag list, the application 'hivesocial/1.0.0', the format 'markdown'
    and the image list (the image address when there is one). In every
    other case (method 'keychain' without agent, another method, no client,
    a refused key) nothing is submitted, the submitting flag is lowered and
    an error message is shown. [handleDirectPost] checks the user, the
    title and the body only: it ignores the tag field and, when the answer
    to the key prompt parses as a key, publishes under the fixed tags
    'hive-174695' and 'hivesocial' with the identifier 'post-' followed by
    the time; with a refused key it submits nothing. *)
Theorem publish_validation_and_metadata
    (PrivateKey_from : string → JS.completion Env.PrivateKey) :
  (∀ w answer now_iso rnd36 ctx wd,
     JS.truthy_opt (CreatePost.user ctx) = false
     ∨ Props.blank (CreatePost.title (Timers.view wd)) = true
     ∨ Props.blank (CreatePost.body (Timers.view wd)) = true
     ∨ Props.blank (CreatePost.tags (Timers.view wd)) = true →
     let wd' := CreatePost.handleSubmit PrivateKey_from w answer now_iso rnd36 ctx wd in
     Timers.trace wd' = Timers.trace wd ∧ Timers.timers wd' = Timers.timers wd
     ∧ JS.truthy (CreatePost.error (Timers.view wd')) = true
     ∧ CreatePost.isSubmitting (Timers.view wd')
       = CreatePost.isSubmitting (Timers.view wd))
  ∧ (∀ kc answer now_iso rnd36 a n c kcf wd,
       let st := Timers.view wd in
       let u := String a n in
       Props.blank (CreatePost.title st) = false →
       Props.blank (CreatePost.body st) = false →
       Props.blank (CreatePost.tags st) = false →
       CreatePost.postingMethod st = "keychain" →
       ∃ tag0 rest,
         CreatePost.tagArray (CreatePost.tags st) = tag0 :: rest
         ∧ Env.submissions
             (Timers.trace
                (CreatePost.handleSubmit PrivateKey_from
                   {| Env.hive_keychain := Some kc |} answer now_iso rnd36
                   {| CreatePost.user := Some u; CreatePost.client := c;
                      CreatePost.isKeychain := kcf |} wd))
           = Env.submissions (Timers.trace wd)
             ++ [Env.KeychainPost u
                   (CreatePost.generatePermlink (CreatePost.title st) now_iso rnd36)
                   tag0 (CreatePost.title st) (CreatePost.body st)
                   (JS.JObj
                      [("tags", JS.JArr (JS.JStr <$> tag0 :: rest));
                       ("app", JS.JStr "hivesocial/1.0.0");
                       ("format", JS.JStr "markdown");
                       ("image",
                        JS.JArr (if JS.truthy (CreatePost.imageUrl st)
                                 then [JS.JStr (CreatePost.imageUrl st)] else []))])
                   "posting"])
  ∧ (∀ w b k key now_iso rnd36 ctx a n cl wd,
       let st := Timers.view wd in
       let u := String a n in
       CreatePost.user ctx = Some u →
       CreatePost.activeClient ctx st = Some cl →
       Props.blank (CreatePost.title st) = false →
       Props.blank (CreatePost.body st) = false →
       Props.blank (CreatePost.tags st) = false →
       CreatePost.postingMethod st = "direct" →
       PrivateKey_from (String b k) = JS.Normal key →
       ∃ tag0 rest,
         CreatePost.tagArray (CreatePost.tags st) = tag0 :: rest
         ∧ Env.submissions
             (Timers.trace
                (CreatePost.handleSubmit PrivateKey_from w (Some (String b k))
                   now_iso rnd36 ctx wd))
           = Env.submissions (Timers.trace wd)
             ++ [Env.SendOperations
                   [Env.comment "" tag0 u
                      (CreatePost.generatePermlink (CreatePost.title st) now_iso
                         rnd36)
                      (CreatePost.title st) (CreatePost.body st)
                      (JS.JObj
                         [("tags", JS.JArr (JS.JStr <$> tag0 :: rest));
                          ("app", JS.JStr "hivesocial/1.0.0");
                          ("format", JS.JStr "markdown");
                          ("image",
                           JS.JArr (if JS.truthy (CreatePost.imageUrl st)
                                    then [JS.JStr (CreatePost.imageUrl st)]
                                    else []))])]
                   key])
  ∧ (∀ w answer now_iso rnd36 ctx a n wd,
       let st := Timers.view wd in
       let wd' := CreatePost.handleSubmit PrivateKey_from w answer now_iso rnd36 ctx wd in
       CreatePost.user ctx = Some (String a n) →
       Props.blank (CreatePost.title st) = false →
       Props.blank (CreatePost.body st) = false →
       Props.blank (CreatePost.tags st) = false →
       (CreatePost.postingMethod st = "keychain" ∧ Env.hive_keychain w = None)
       ∨ (CreatePost.postingMethod st ≠ "keychain"
          ∧ CreatePost.postingMethod st ≠ "direct")
       ∨ (CreatePost.postingMethod st = "direct"
          ∧ (CreatePost.activeClient ctx st = None
             ∨ Props.key_refused PrivateKey_from answer)) →
       Env.submissions (Timers.trace wd') = Env.submissions (Timers.trace wd)
       ∧ CreatePost.isSubmitting (Timers.view wd') = false
       ∧ JS.truthy (CreatePost.error (Timers.view wd')) = true)
  ∧ (∀ directClient answer now ctx wd,
       JS.truthy_opt (CreatePost.user ctx) = false
       ∨ Props.blank (CreatePost.title (Timers.view wd)) = true
       ∨ Props.blank (CreatePost.body (Timers.view wd)) = true →
       let wd' :=
         CreatePost.handleDirectPost PrivateKey_from directClient answer now ctx wd in
       Timers.trace wd' = Timers.trace wd ∧ Timers.timers wd' = Timers.timers wd
       ∧ JS.truthy (CreatePost.error (Timers.view wd')) = true
       ∧ CreatePost.isSubmitting (Timers.view wd')
         = CreatePost.isSubmitting (Timers.view wd))
  ∧ (∀ directClient b k key now a n c kcf wd,
       let st := Timers.view wd in
       let u := String a n in
       Props.blank (CreatePost.title st) = false →
       Props.blank (CreatePost.body st) = false →
       PrivateKey_from (String b k) = JS.Normal key →
       Env.submissions
         (Timers.trace
            (CreatePost.handleDirectPost PrivateKey_from directClient
               (Some (String b k)) now
               {| CreatePost.user := Some u; CreatePost.client := c;
                  CreatePost.isKeychain := kcf |} wd))
       = Env.submissions (Timers.trace wd)
         ++ [Env.SendOperations
               [Env.comment "" "hive-174695" u ("post-" +:+ pretty now)
                  (CreatePost.title st) (CreatePost.body st)
                  (JS.JObj
                     [("tags", JS.JArr [JS.JStr "hive-174695"; JS.JStr "hivesocial"]);
                      ("app", JS.JStr "hivesocial/1.0.0");
                      ("format", JS.JStr "markdown");
                      ("image",
                       JS.JArr (if JS.truthy (CreatePost.imageUrl st)
                                then [JS.JStr (CreatePost.imageUrl st)] else []))])]
               key])
  ∧ (∀ directClient answer now ctx wd,
       Props.key_refused PrivateKey_from answer →
       Env.submissions
         (Timers.trace
            (CreatePost.handleDirectPost PrivateKey_from directClient answer now ctx
               wd))
       = Env.submissions (Timers.trace wd)).
Proof.
  split; [|split; [|split; [|split; [|split; [|split]]]]].
  - intros. by apply handleSubmit_refuses.
  - intros. by apply handleSubmit_keychain_validated.
  - intros w b k key now_iso rnd36 ctx a n cl wd st u Hu Hcl Ht Hb Hg Hpm Hkey.
    destruct (handleSubmit_direct_validated PrivateKey_from w (Some (String b k))
                now_iso rnd36 ctx a n wd Hu Ht Hb Hg Hpm)
      as (tag0 & rest & Htags & Heq).
    exists tag0, rest. split; [exact Htags|]. subst st u. rewrite Heq.
    unfold CreatePost.submit_direct. rewrite Hcl, Hkey.
    destruct (Env.sendOperations cl _ key); cbn;
      rewrite ?submissions_snoc_other by done;
      rewrite submissions_snoc by done;
      by rewrite submissions_snoc_other.
  - intros w answer now_iso rnd36 ctx a n wd st wd' Hu Ht Hb Hg Hcase.
    subst st wd'. unfold Props.blank in *.
    pose proof (tagArray_nonempty (CreatePost.tags (Timers.view wd))) as Hne.
    unfold Props.blank in Hne. specialize (Hne Hg).
    unfold CreatePost.handleSubmit. rewrite Hu, Ht, Hb, Hg.
    destruct (CreatePost.tagArray (CreatePost.tags (Timers.view wd)))
      as [|tag0 rest]; [done|].
    destruct Hcase as [[Hpm Hkc]|[[Hnk Hnd]|[Hpm Hbad]]].
    + rewrite Hpm, Hkc. by cbn.
    + apply String.eqb_neq in Hnk, Hnd. rewrite Hnk, Hnd. by cbn.
    + rewrite Hpm. cbn [String.eqb Stdlib.Strings.Ascii.eqb Bool.eqb].
      unfold CreatePost.submit_direct.
      destruct (CreatePost.activeClient ctx (Timers.view wd)) as [cl|] eqn:Hcl.
      * destruct Hbad as [?|Hbad]; [done|].
        destruct answer as [[|b k]|]; cbn in Hbad.
        -- cbn. by rewrite submissions_snoc_other.
        -- destruct Hbad as [e ->]. cbn. by rewrite !submissions_snoc_other.
        -- cbn. by rewrite submissions_snoc_other.
      * by cbn.
  - intros. by apply handleDirectPost_refuses.
  - intros. by apply handleDirectPost_publishes.
  - intros. by apply handleDirectPost_refused_key.
Qed.

(** C6 (witness): "alice" submits a form with an empty title, which is
    refused; then "Hello World" through an agent, and with a key. *)
Lemma publish_validation_and_metadata_witness :
  (let wd :=
     CreatePost.handleSubmit Sample.parse_key Sample.plain_browser
       (Some Sample.good_key) "2026-11-02T17:25:00.000Z" "0.k3j9x2abcde"
       {| CreatePost.user := Some "alice"; CreatePost.client := Some Sample.node;
          CreatePost.isKeychain := false |}
       (Sample.form "" "Body" "intro") in
   Timers.trace wd = [] ∧ Timers.timers wd = []
   ∧ JS.truthy (CreatePost.error (Timers.view wd)) = true
   ∧ CreatePost.isSubmitting (Timers.view wd) = false)
  ∧ Env.submissions
      (Timers.trace
         (CreatePost.handleSubmit Sample.parse_key
            (Sample.browser (JS.Replies Sample.accepted)) None
            "2026-11-02T17:25:00.000Z" "0.k3j9x2abcde"
            {| CreatePost.user := Some "alice"; CreatePost.client := Some Sample.node;
               CreatePost.isKeychain := true |}
            (Sample.with_method "keychain"
               (Sample.form "Hello World" "Body" "Intro  hive"))))
    = [Env.KeychainPost "alice" "hello-world-20261102-k3j9x2" "intro" "Hello World"
         "Body"
         (JS.JObj
            [("tags", JS.JArr [JS.JStr "intro"; JS.JStr "hive"]);
             ("app", JS.JStr "hivesocial/1.0.0"); ("format", JS.JStr "markdown");
             ("image", JS.JArr [])])
         "posting"]
  ∧ Env.submissions
      (Timers.trace
         (CreatePost.handleSubmit Sample.parse_key Sample.plain_browser
            (Some Sample.good_key) "2026-11-02T17:25:00.000Z" "0.k3j9x2abcde"
            {| CreatePost.user := Some "alice"; CreatePost.client := Some Sample.node;
               CreatePost.isKeychain := false |}
            (Sample.form "Hello World" "Body" "Intro  hive")))
    = [Env.SendOperations
         [Env.comment "" "intro" "alice" "hello-world-20261102-k3j9x2" "Hello World"
            "Body"
            (JS.JObj
               [("tags", JS.JArr [JS.JStr "intro"; JS.JStr "hive"]);
                ("app", JS.JStr "hivesocial/1.0.0"); ("format", JS.JStr "markdown");
                ("image", JS.JArr [])])]
         {| Env.key_data := Sample.good_key |}].
Proof.
  pose proof (publish_validation_and_metadata Sample.parse_key)
    as (Hrefuse & Hagent & Hkey & _).
  split; [|split].
  - apply (Hrefuse Sample.plain_browser (Some Sample.good_key)
             "2026-11-02T17:25:00.000Z" "0.k3j9x2abcde"
             {| CreatePost.user := Some "alice"; CreatePost.client := Some Sample.node;
                CreatePost.isKeychain := false |}
             (Sample.form "" "Body" "intro")).
    right. left. reflexivity.
  - destruct (Hagent (Sample.agent (JS.Replies Sample.accepted)) None
                "2026-11-02T17:25:00.000Z" "0.k3j9x2abcde" "a"%char "lice"
                (Some Sample.node) true
                (Sample.with_method "keychain"
                   (Sample.form "Hello World" "Body" "Intro  hive"))
                eq_refl eq_refl eq_refl eq_refl) as (tag0 & rest & Htags & Hsub).
    injection Htags as <- <-. exact Hsub.
  - destruct (Hkey Sample.plain_browser "5"%char
                "KKKKKKKKKKKKKKKKKKKKKKKKKKKKKKKKKKKKKKKKKKKKKKKKKK"
                {| Env.key_data := Sample.good_key |} "2026-11-02T17:25:00.000Z"
                "0.k3j9x2abcde"
                {| CreatePost.user := Some "alice"; CreatePost.client := Some Sample.node;
                   CreatePost.isKeychain := false |}
                "a"%char "lice" Sample.node
                (Sample.form "Hello World" "Body" "Intro  hive")
                eq_refl eq_refl eq_refl eq_refl eq_refl eq_refl eq_refl)
      as (tag0 & rest & Htags & Hsub).
    injection Htags as <- <-. exact Hsub.
Defined.

Section AgentSigned.
Import JS Env Timers Props.

Lemma elapse_no_timers {S A : Type} (fire : A → S → S * list effect) ms
    (wd : world S A) :
  timers wd = [] → view (elapse fire ms wd) = view wd.
Proof. unfold elapse. intros ->. done. Qed.

(** [PostView] has no timer callback, so none of its worlds has a timer. *)
Lemma PostView_no_timers (wd : world PostView.state PostView.timer_action) :
  timers wd = [].
Proof. destruct (timers wd) as [|[id ms []] rest]. done. Qed.

End AgentSigned.

(** The 30-second timer of the source is the one of [handleDirectPost], on
    the key-signed path: when the broadcast does not settle, it lowers the
    submitting flag and shows the time-out message. *)
Example handleDirectPost_times_out_after_30s :
  let wd :=
    CreatePost.handleDirectPost Sample.parse_key (Sample.ledger JS.Pending)
      (Some Sample.good_key) 1793640300000%N
      {| CreatePost.user := Some "alice"; CreatePost.client := Some Sample.node;
         CreatePost.isKeychain := false |}
      (Sample.form "Hello World" "Body" "intro") in
  CreatePost.isSubmitting (Timers.view wd) = true
  ∧ CreatePost.isSubmitting (Timers.view (Timers.elapse CreatePost.fire 29999 wd)) = true
  ∧ Timers.view (Timers.elapse CreatePost.fire 30000 wd)
    = CreatePost.set_error "Posting timed out. Please try again."
        (CreatePost.set_isSubmitting false (Timers.view wd)).
Proof. repeat split. Qed.

(** A timer left pending by an earlier [handleDirectPost] (here by a
    refused key) is not disarmed by a later Keychain publish: it fires
    while the agent is silent. *)
Example stale_timer_fires_during_keychain_publish :
  let ctx :=
    {| CreatePost.user := Some "alice"; CreatePost.client := Some Sample.node;
       CreatePost.isKeychain := true |} in
  let wd :=
    CreatePost.handleSubmit Sample.parse_key (Sample.browser JS.Silent) None
      "2026-11-02T17:25:00.000Z" "0.k3j9x2abcde" ctx
      (CreatePost.handleDirectPost Sample.parse_key Sample.node (Some "not-a-key")
         1793640300000%N ctx
         (Sample.with_method "keychain" (Sample.form "Hello World" "Body" "intro"))) in
  CreatePost.isSubmitting (Timers.view wd) = true
  ∧ CreatePost.isSubmitting (Timers.view (Timers.elapse CreatePost.fire 30000 wd))
    = false
  ∧ CreatePost.error (Timers.view (Timers.elapse CreatePost.fire 30000 wd))
    = "Posting timed out. Please try again.".
Proof. repeat split. Qed.

(** C4 (counterexample). "alice" publishes through an agent that never
    invokes the callback: no timer is armed, and after 30 seconds, as after
    an hour, the form is still submitting and shows no error. *)
Lemma keychain_publish_never_times_out :
  let wd :=
    CreatePost.handleSubmit Sample.parse_key (Sample.browser JS.Silent) None
      "2026-11-02T17:25:00.000Z" "0.k3j9x2abcde"
      {| CreatePost.user := Some "alice"; CreatePost.client := Some Sample.node;
         CreatePost.isKeychain := true |}
      (Sample.with_method "keychain" (Sample.form "Hello World" "Body" "intro")) in
  Timers.timers wd = []
  ∧ CreatePost.isSubmitting (Timers.view (Timers.elapse CreatePost.fire 30000 wd)) = true
  ∧ CreatePost.error (Timers.view (Timers.elapse CreatePost.fire 30000 wd)) = ""
  ∧ CreatePost.isSubmitting (Timers.view (Timers.elapse CreatePost.fire 3600000 wd))
    = true
  ∧ CreatePost.error (Timers.view (Timers.elapse CreatePost.fire 3600000 wd)) = "".
Proof. repeat split. Qed.

(** C4 (amended). An agent-signed submission (the Keychain publish of
    [CreatePost.handleSubmit] on a validated form, the comment of
    [PostView.handleComment] by a signed-in Keychain user) raises the
    submitting flag and waits for the callback of the agent, and only for
    it: the handler arms no timer, the timers pending after it are those
    that were pending before. So on a form with no timer pending, and in
    [PostView], which has no timer at all, the form stays submitting,
    without error, however much time passes while the callback has not
    fired; no time-out result exists on this path. When the callback fires
    the flag is lowered, with a non-empty error message if the agent
    reports a failure. *)
Theorem agent_signed_submission_waits_for_callback
    (PrivateKey_from : string → JS.completion Env.PrivateKey) :
  (∀ kc answer now_iso rnd36 a n c kcf wd,
     let st := Timers.view wd in
     let wd' :=
       CreatePost.handleSubmit PrivateKey_from {| Env.hive_keychain := Some kc |}
         answer now_iso rnd36
         {| CreatePost.user := Some (String a n); CreatePost.client := c;
            CreatePost.isKeychain := kcf |} wd in
     Props.blank (CreatePost.title st) = false →
     Props.blank (CreatePost.body st) = false →
     Props.blank (CreatePost.tags st) = false →
     CreatePost.postingMethod st = "keychain" →
     ((∀ acc pl par t b m au, Env.requestPost kc acc pl par t b m au = JS.Silent) →
      Timers.timers wd' = Timers.timers wd
      ∧ CreatePost.isSubmitting (Timers.view wd') = true
      ∧ CreatePost.error (Timers.view wd') = ""
      ∧ (Timers.timers wd = [] →
         ∀ ms, Timers.view (Timers.elapse CreatePost.fire ms wd') = Timers.view wd'))
     ∧ (∀ r, (∀ acc pl par t b m au,
                Env.requestPost kc acc pl par t b m au = JS.Replies r) →
          CreatePost.isSubmitting (Timers.view wd') = false
          ∧ (Env.resp_success r = false →
             JS.truthy (CreatePost.error (Timers.view wd')) = true)))
  ∧ (∀ kc te now created a n c author permlink wd,
       let wd' :=
         PostView.handleComment {| Env.hive_keychain := Some kc |} te now created
           {| PostView.client := c; PostView.user := Some (String a n);
              PostView.isKeychain := true |} author permlink wd in
       Props.blank (PostView.commentBody (Timers.view wd)) = false →
       ((∀ acc pp pa pl t b m, Env.requestComment kc acc pp pa pl t b m = JS.Silent) →
        Timers.timers wd' = []
        ∧ PostView.submittingComment (Timers.view wd') = true
        ∧ PostView.commentError (Timers.view wd') = ""
        ∧ ∀ ms, Timers.view (Timers.elapse PostView.fire ms wd') = Timers.view wd')
       ∧ (∀ r, (∀ acc pp pa pl t b m,
                  Env.requestComment kc acc pp pa pl t b m = JS.Replies r) →
            PostView.submittingComment (Timers.view wd') = false
            ∧ (Env.resp_success r = false →
               JS.truthy (PostView.commentError (Timers.view wd')) = true))).
Proof.
  split.
  - intros kc answer now_iso rnd36 a n c kcf wd st wd' Ht Hb Hg Hpm.
    subst st wd'. unfold Props.blank in *.
    pose proof (tagArray_nonempty (CreatePost.tags (Timers.view wd)) Hg) as Hne.
    unfold CreatePost.handleSubmit. cbn [CreatePost.user Env.hive_keychain].
    rewrite Ht, Hb, Hg, Hpm.
    destruct (CreatePost.tagArray (CreatePost.tags (Timers.view wd)))
      as [|tag0 rest]; [done|].
    cbn [String.eqb Stdlib.Strings.Ascii.eqb Bool.eqb].
    split.
    + intros Hsilent. rewrite Hsilent. split; [done|split; [done|split; [done|]]].
      intros Hnone ms. apply elapse_no_timers. exact Hnone.
    + intros r Hr. rewrite Hr. unfold CreatePost.on_post_response.
      destruct (Env.resp_success r); cbn; [done|]. split; [done|]. by intros _.
  - intros kc te now created a n c author permlink wd wd' Hbody.
    subst wd'. unfold Props.blank in Hbody. unfold PostView.handleComment.
    rewrite Hbody. cbn [PostView.user PostView.isKeychain JS.truthy_opt JS.truthy
                          andb negb Env.hive_keychain].
    split.
    + intros Hsilent. rewrite Hsilent.
      split; [apply PostView_no_timers|split; [done|split; [done|]]].
      intros ms. apply elapse_no_timers, PostView_no_timers.
    + intros r Hr. rewrite Hr. cbn. unfold PostView.on_comment_response.
      destruct (Env.resp_success r); cbn; [done|]. split; [done|]. by intros _.
Qed.

(** C4 (witness): the publish of "alice" through a silent agent. *)
Lemma agent_signed_submission_waits_for_callback_witness :
  let wd :=
    CreatePost.handleSubmit Sample.parse_key (Sample.browser JS.Silent) None
      "2026-11-02T17:25:00.000Z" "0.k3j9x2abcde"
      {| CreatePost.user := Some "alice"; CreatePost.client := Some Sample.node;
         CreatePost.isKeychain := true |}
      (Sample.with_method "keychain" (Sample.form "Hello World" "Body" "intro")) in
  Timers.timers wd = []
  ∧ CreatePost.isSubmitting (Timers.view wd) = true
  ∧ CreatePost.error (Timers.view wd) = ""
  ∧ (Timers.timers
       (Sample.with_method "keychain" (Sample.form "Hello World" "Body" "intro")) = [] →
     ∀ ms, Timers.view (Timers.elapse CreatePost.fire ms wd) = Timers.view wd).
Proof.
  apply (proj1 (agent_signed_submission_waits_for_callback Sample.parse_key)
           (Sample.agent JS.Silent) None "2026-11-02T17:25:00.000Z" "0.k3j9x2abcde"
           "a"%char "lice" (Some Sample.node) true
           (Sample.with_method "keychain" (Sample.form "Hello World" "Body" "intro")));
    reflexivity.
Defined.

(** After an Ecency login, logging out removes the actor name and nothing
    else. *)
Example logout_after_ecency_login :
  let s :=
    Session.handleLogout
      (Session.EcencyCallback (Some "alice") (Some "tok-1") 1793640300000
         (Some 3600) (Session.App_start ∅)) in
  Session.user s = None
  ∧ Session.storage s !! "hivesocial_user" = None
  ∧ Session.storage s !! "hivesocial_token" = Some "tok-1".
Proof. repeat split. Qed.

(** C9 (counterexample). The Ecency login, started from an empty storage,
    persists three fields: the actor name, the access token and the expiry
    of the token. *)
Lemma ecency_login_persists_three_fields :
  let s :=
    Session.EcencyCallback (Some "alice") (Some "tok-1") 1793640300000 (Some 3600)
      (Session.App_start ∅) in
  Session.storage s !! "hivesocial_user" = Some "alice"
  ∧ Session.storage s !! "hivesocial_token" = Some "tok-1"
  ∧ Session.storage s !! "hivesocial_token_expiry" = Some "1793643900000"
  ∧ size (Session.storage s) = 3%nat.
Proof. repeat split. Qed.

(** C9 (amended). The direct login and the Keychain login persist exactly
    one field, the actor name under 'hivesocial_user', and leave the rest
    of the storage as it was (a refused Keychain login persists nothing);
    the Ecency login persists three fields, the actor name, the access
    token and the expiry of the token, and removes the 'hivesocial_redirect'
    entry that its redirect had stored. The stored actor name is read at
    startup to restore the identity, and logout removes that entry and
    only that entry, so that the next startup restores no identity. *)
Theorem session_storage_fields :
  (∀ a n from s,
     let u := String a n in
     Session.storage (Session.handleDirectLogin u from s)
     = <["hivesocial_user" := u]> (Session.storage s)
     ∧ Session.App_initial_user (Session.storage (Session.handleDirectLogin u from s))
       = Some u)
  ∧ (∀ kc a n from now_iso s,
       let u := String a n in
       let s' :=
         Session.handleKeychainLogin {| Env.hive_keychain := Some kc |} u from
           now_iso s in
       match Env.requestSignBuffer kc u
               ("Login attempt for HiveSocial at " +:+ now_iso) "Posting" with
       | JS.Replies r =>
           Session.storage s'
           = if Env.resp_success r
             then <["hivesocial_user" := u]> (Session.storage s)
             else Session.storage s
       | JS.Throws _ | JS.Silent => Session.storage s' = Session.storage s
       end)
  ∧ (∀ a n b t now expiresIn s,
       let u := String a n in
       let token := String b t in
       Session.storage (Session.EcencyCallback (Some u) (Some token) now expiresIn s)
       = delete "hivesocial_redirect"
           (<["hivesocial_token_expiry" := Session.token_expiry now expiresIn]>
              (<["hivesocial_token" := token]>
                 (<["hivesocial_user" := u]> (Session.storage s)))))
  ∧ (∀ from auth_url s,
       Session.storage (Session.handleEcencyLogin from auth_url s)
       = <["hivesocial_redirect" := from]> (Session.storage s))
  ∧ (∀ ls,
       Session.user (Session.App_start ls)
       = match ls !! "hivesocial_user" with
         | Some (String a n) => Some (String a n)
         | _ => None
         end)
  ∧ (∀ s,
       Session.storage (Session.handleLogout s)
       = delete "hivesocial_user" (Session.storage s)
       ∧ Session.user (Session.handleLogout s) = None
       ∧ Session.user (Session.App_start (Session.storage (Session.handleLogout s)))
         = None).
Proof.
  split; [|split; [|split; [|split; [|split]]]].
  - intros a n from s u. split; [done|].
    unfold Session.App_initial_user, Session.handleDirectLogin. simpl.
    by rewrite lookup_insert_eq.
  - intros kc a n from now_iso s u s'. subst u s'.
    unfold Session.handleKeychainLogin. simpl.
    destruct (Env.requestSignBuffer kc _ _ _) as [r|e|]; [|done|done].
    by destruct (Env.resp_success r).
  - done.
  - done.
  - done.
  - intros s. split; [done|split; [done|]].
    unfold Session.App_start, Session.App_initial_user, Session.handleLogout. simpl.
    by rewrite lookup_delete_eq.
Qed.

(* ===================================================================== *)
(** ** Further properties: session storage *)
(* ===================================================================== *)

(** X1. A login followed by a logout gives back the storage as it was,
    provided no actor name was stored before: the direct login, and the
    Keychain login accepted by the agent, leave nothing behind. *)
Theorem login_then_logout_restores_storage (s : Session.session) :
  Session.storage s !! "hivesocial_user" = None →
  (∀ a n from,
     let s' := Session.handleLogout (Session.handleDirectLogin (String a n) from s) in
     Session.storage s' = Session.storage s ∧ Session.user s' = None)
  ∧ (∀ kc a n from now_iso r,
       Env.requestSignBuffer kc (String a n)
         ("Login attempt for HiveSocial at " +:+ now_iso) "Posting" = JS.Replies r →
       Env.resp_success r = true →
       let s' :=
         Session.handleLogout
           (Session.handleKeychainLogin {| Env.hive_keychain := Some kc |}
              (String a n) from now_iso s) in
       Session.storage s' = Session.storage s ∧ Session.user s' = None).
Proof.
  intros Hnone. split.
  - intros a n from. split; [|done]. cbn. by apply delete_insert_id.
  - intros kc a n from now_iso r Hr Hok. unfold Session.handleKeychainLogin.
    cbn [JS.truthy negb Env.hive_keychain]. rewrite Hr, Hok.
    split; [|done]. cbn. by apply delete_insert_id.
Qed.

(** X1 (witness): a first login on an empty storage. *)
Lemma login_then_logout_restores_storage_witness :
  Session.storage
    (Session.handleLogout (Session.handleDirectLogin "alice" "/" (Session.App_start ∅)))
  = ∅.
Proof.
  apply (proj1 (login_then_logout_restores_storage (Session.App_start ∅)
                  (lookup_empty _))
           "a"%char "lice" "/").
Defined.

(** X2. The Ecency login comes back to the page it left: the callback
    navigates to the path that [handleEcencyLogin] saved (to "/" when that
    path is empty), signs the user in, and the saved path is gone from the
    storage afterwards. *)
Theorem ecency_login_returns_to_saved_path :
  ∀ from auth_url a n b t now expiresIn s,
    let u := String a n in
    let s' :=
      Session.EcencyCallback (Some u) (Some (String b t)) now expiresIn
        (Session.handleEcencyLogin from auth_url s) in
    Session.trace s'
    = Session.trace s
      ++ [Env.Navigate auth_url; Env.Navigate (if JS.truthy from then from else "/")]
    ∧ Session.storage s' !! "hivesocial_redirect" = None
    ∧ Session.storage s' !! "hivesocial_user" = Some u
    ∧ Session.user s' = Some u.
Proof.
  intros from auth_url a n b t now expiresIn s u s'. subst u s'.
  unfold Session.EcencyCallback, Session.handleEcencyLogin. simpl.
  repeat split.
  - unfold Session.getItem_or.
    rewrite !lookup_insert_ne, lookup_insert_eq by done. simpl.
    by rewrite <- app_assoc.
  - apply lookup_delete_eq.
  - rewrite lookup_delete_ne, !lookup_insert_ne, lookup_insert_eq by done. done.
Qed.

(** X3. A login that does not go through stores nothing and signs nobody
    in. The Keychain login changes the storage and the user only when the
    user name is not empty, the agent is installed and it answers with
    success; the Ecency callback only when both the user name and the
    access token are present and not empty; the direct login only when the
    user name is not empty. *)
Theorem only_a_successful_login_is_stored :
  (∀ w username from now_iso s,
     let s' := Session.handleKeychainLogin w username from now_iso s in
     (Session.storage s' = Session.storage s ∧ Session.user s' = Session.user s)
     ∨ (JS.truthy username = true
        ∧ ∃ kc r,
            Env.hive_keychain w = Some kc
            ∧ Env.requestSignBuffer kc username
                ("Login attempt for HiveSocial at " +:+ now_iso) "Posting"
              = JS.Replies r
            ∧ Env.resp_success r = true
            ∧ Session.storage s' = <["hivesocial_user" := username]> (Session.storage s)
            ∧ Session.user s' = Some username))
  ∧ (∀ username accessToken now expiresIn s,
       let s' := Session.EcencyCallback username accessToken now expiresIn s in
       (s' = Session.setError "Authentication failed. Please try again." s)
       ∨ (JS.truthy_opt username = true ∧ JS.truthy_opt accessToken = true
          ∧ Session.user s' = username))
  ∧ (∀ username from s,
       let s' := Session.handleDirectLogin username from s in
       (s' = Session.setError "Please enter a username" s)
       ∨ (JS.truthy username = true ∧ Session.user s' = Some username)).
Proof.
  split; [|split].
  - intros w username from now_iso s. cbn zeta. unfold Session.handleKeychainLogin.
    destruct (JS.truthy username) eqn:Hu; cbn [negb]; [|by left].
    destruct (Env.hive_keychain w) as [kc|] eqn:Hkc; [|by left].
    destruct (Env.requestSignBuffer kc _ _ _) as [r|e|] eqn:Hr; [|by left|by left].
    destruct (Env.resp_success r) eqn:Hok; [|by left].
    right. split; [done|]. exists kc, r. done.
  - intros username accessToken now expiresIn s. cbn zeta.
    unfold Session.EcencyCallback.
    destruct username as [[|a n]|]; [by left| |by left].
    destruct accessToken as [[|b t]|]; [by left| |by left].
    right. done.
  - intros username from s. cbn zeta. unfold Session.handleDirectLogin.
    destruct (JS.truthy username); [by right|by left].
Qed.

(* ===================================================================== *)
(** ** Further properties: votes, follows and comments *)
(* ===================================================================== *)

(** X4. [App] keeps the signed-in user as a plain string, while [Post] and
    [FollowButton] read [user.name]. With such a user no vote, no follow
    toggle and no non-blank comment is handed to the agent or to the
    ledger. When the session has the Keychain flag (and always for a follow
    toggle) the handler stops at the guard of the helper: no effect is
    performed, the flags keep their value, the busy flag is lowered and
    the message is 'Client or username not provided' ('Client or follower
    not provided' for a follow toggle); the comment text is kept. Without
    the Keychain flag the vote and comment handlers only alert and leave
    the state as it is. *)
Theorem string_identity_never_submits (s : Session.session) :
  is_Some (Session.user s) →
  (∀ w c kcf p st,
     Post.handleVote w
       {| Post.client := c; Post.ctx_user := MoreProps.context_user s;
          Post.isKeychain := kcf |} p st
     = if kcf
       then ([], {| Post.isVoting := false;
                    Post.voteError := "Client or username not provided";
                    Post.hasVoted := Post.hasVoted st |})
       else ([Env.Alert "Please login with Hive Keychain to vote"], st))
  ∧ (∀ w c username st,
       FollowButton.handleFollowToggle w
         {| FollowButton.client := c;
            FollowButton.ctx_user := MoreProps.context_user s |} username st
       = ([], {| FollowButton.isFollowing := FollowButton.isFollowing st;
                 FollowButton.loading := FollowButton.loading st;
                 FollowButton.processing := false;
                 FollowButton.error := "Client or follower not provided" |}))
  ∧ (∀ w te now now_iso c kcf p st,
       Props.blank (PostComments.commentText st) = false →
       PostComments.handleComment w te now now_iso
         {| Post.client := c; Post.ctx_user := MoreProps.context_user s;
            Post.isKeychain := kcf |} p st
       = if kcf
         then ([], {| PostComments.showCommentForm := PostComments.showCommentForm st;
                      PostComments.commentText := PostComments.commentText st;
                      PostComments.isCommenting := false;
                      PostComments.commentError := "Client or username not provided";
                      PostComments.comments := PostComments.comments st;
                      PostComments.loadingComments :=
                        PostComments.loadingComments st |})
         else ([Env.Alert "Please login with Hive Keychain to comment"], st)).
Proof.
  intros [u Hu]. unfold MoreProps.context_user. rewrite Hu. cbn [fmap option_fmap option_map].
  split; [|split].
  - intros w c [] p st; [|done]. unfold Post.handleVote. cbn. by destruct c.
  - intros w c username [following loading processing err].
    unfold FollowButton.handleFollowToggle. cbn. by destruct following, c.
  - intros w te now now_iso c [] p st Hb; [|done]. unfold Props.blank in Hb.
    unfold PostComments.handleComment. cbn. rewrite Hb. cbn. by destruct c.
Qed.

(** X4 (witness): the session after a direct login, with and without the
    Keychain flag. *)
Lemma string_identity_never_submits_witness :
  Post.handleVote (Sample.browser (JS.Replies Sample.accepted))
    {| Post.client := Some Sample.node;
       Post.ctx_user :=
         MoreProps.context_user
           (Session.handleDirectLogin "alice" "/" (Session.App_start ∅));
       Post.isKeychain := true |}
    {| Post.author := "bob"; Post.permlink := "post-1" |}
    {| Post.isVoting := false; Post.voteError := ""; Post.hasVoted := false |}
  = ([], {| Post.isVoting := false;
            Post.voteError := "Client or username not provided";
            Post.hasVoted := false |})
  ∧ Post.handleVote (Sample.browser (JS.Replies Sample.accepted))
      {| Post.client := Some Sample.node;
         Post.ctx_user :=
           MoreProps.context_user
             (Session.handleDirectLogin "alice" "/" (Session.App_start ∅));
         Post.isKeychain := false |}
      {| Post.author := "bob"; Post.permlink := "post-1" |}
      {| Post.isVoting := false; Post.voteError := ""; Post.hasVoted := false |}
    = ([Env.Alert "Please login with Hive Keychain to vote"],
       {| Post.isVoting := false; Post.voteError := ""; Post.hasVoted := false |}).
Proof.
  pose proof (proj1 (string_identity_never_submits
                       (Session.handleDirectLogin "alice" "/" (Session.App_start ∅))
                       (ex_intro _ "alice" eq_refl))) as H.
  split; [apply (H _ _ true)|apply (H _ _ false)].
Defined.

(** X5. The read helpers [checkIfFollowing] and [getPostComments] await
    the ledger call inside [try]: their promise is never rejected, whatever
    the ledger does; it is pending only while the ledger call is, and a
    result that is not a success carries a non-empty error message. *)
Theorem read_helpers_never_reject :
  (∀ rnd c follower following,
     MoreProps.read_result_ok SocialUtils.success SocialUtils.error
       (SocialUtils.checkIfFollowing rnd c follower following).2
     ∧ ((SocialUtils.checkIfFollowing rnd c follower following).2 = JS.Pending →
        ∃ cl, c = Some cl
              ∧ Env.database_call cl "get_follow_count" [follower] = JS.Pending))
  ∧ (∀ c author permlink,
       MoreProps.read_result_ok SocialReads.success SocialReads.error
         (SocialReads.getPostComments c author permlink).2
       ∧ ((SocialReads.getPostComments c author permlink).2 = JS.Pending →
          ∃ cl, c = Some cl
                ∧ Env.database_call cl "get_content_replies" [author; permlink]
                  = JS.Pending)).
Proof.
  split.
  - intros rnd c follower following. unfold SocialUtils.checkIfFollowing.
    destruct c as [cl|]; [|split; [by right|done]].
    destruct (Env.database_call cl _ _) as [v|e|] eqn:Hcall; cbn.
    + split; [by left|done].
    + split; [right; by apply or_else_truthy|done].
    + split; [done|]. intros _. by exists cl.
  - intros c author permlink. unfold SocialReads.getPostComments.
    destruct c as [cl|]; [|split; [by right|done]].
    destruct (Env.database_call cl _ _) as [v|e|] eqn:Hcall; cbn.
    + split; [by left|done].
    + split; [right; by apply or_else_truthy|done].
    + split; [done|]. intros _. by exists cl.
Qed.

(** X6. Two comments on the same parent get different identifiers as soon
    as they are made at different milliseconds: whenever [commentOnPost]
    succeeds twice for the same parent at the times [now1 ≠ now2], the two
    results carry different permlinks. *)
Theorem reply_permlinks_differ_in_time :
  ∀ w w' te c c' username username' author parent body body' options options'
    (now1 now2 : N) effs1 effs2 r1 r2,
    now1 ≠ now2 →
    SocialUtils.commentOnPost w te now1 c username author (Some parent) body options
    = (effs1, JS.Fulfilled r1) →
    SocialUtils.commentOnPost w' te now2 c' username' author (Some parent) body'
      options' = (effs2, JS.Fulfilled r2) →
    SocialUtils.success r1 = true → SocialUtils.success r2 = true →
    SocialUtils.permlink r1 ≠ SocialUtils.permlink r2.
Proof.
  assert (Hshape : ∀ w te c username author parent body options now effs r,
    SocialUtils.commentOnPost w te now c username author (Some parent) body options
    = (effs, JS.Fulfilled r) →
    SocialUtils.success r = true →
    SocialUtils.permlink r
    = Some ("re-" +:+ SocialUtils.keep_slug_chars parent +:+ "-" +:+ pretty now)).
  { intros w te c username author parent body options now effs r.
    unfold SocialUtils.commentOnPost.
    destruct c as [cl|]; [|by intros [= _ <-]].
    destruct username as [[|a n]|]; [by intros [= _ <-]| |by intros [= _ <-]].
    cbn. unfold SocialUtils.via_keychain.
    destruct (Env.hive_keychain w) as [kc|].
    - destruct (Env.requestBroadcast kc _ _ _) as [resp|e|]; cbn; [|done|done].
      unfold SocialUtils.on_broadcast.
      destruct (Env.resp_success resp); by intros [= _ <-].
    - by intros [= _ <-]. }
  intros w w' te c c' username username' author parent body body' options options'
    now1 now2 effs1 effs2 r1 r2 Hne H1 H2 Hs1 Hs2.
  rewrite (Hshape _ _ _ _ _ _ _ _ _ _ _ H1 Hs1), (Hshape _ _ _ _ _ _ _ _ _ _ _ H2 Hs2).
  intros [= Heq]. do 3 apply append_inv_head in Heq.
  apply Hne. by apply pretty_N_inj.
Qed.

(** X6 (witness): two comments of "alice" one millisecond apart. *)
Lemma reply_permlinks_differ_in_time_witness :
  SocialUtils.permlink (SocialUtils.with_permlink "re-post-1-1793640300000"
                          (SocialUtils.with_simulated SocialUtils.succeeded))
  ≠ SocialUtils.permlink (SocialUtils.with_permlink "re-post-1-1793640300001"
                            (SocialUtils.with_simulated SocialUtils.succeeded)).
Proof.
  apply (reply_permlinks_differ_in_time Sample.plain_browser Sample.plain_browser
           Sample.type_error (Some Sample.node) (Some Sample.node) (Some "alice")
           (Some "alice") "bob" "post-1" "first" "second" [] []
           1793640300000%N 1793640300001%N [Env.SetTimeout 800] [Env.SetTimeout 800]);
    done.
Defined.

(* ===================================================================== *)
(** ** Further properties: identifiers and tags *)
(* ===================================================================== *)

Section SlugFacts.
Import JS Props MoreProps.

Lemma kept_char_not_hyphen c :
  is_word c || is_space c = true → is_hyphen c = false.
Proof. destruct c as [[] [] [] [] [] [] [] []]; vm_compute; congruence. Qed.

Lemma hyphenate_from_single_hyphens b s :
  all_chars (λ c, negb (is_hyphen c)) s = true →
  no_double_hyphen (hyphenate_from b s) = true
  ∧ (b = true → starts_with_hyphen (hyphenate_from b s) = false).
Proof.
  revert b. induction s as [|c r IH]; intros b; simpl; [done|].
  intros [Hc Hr]%andb_true_iff. apply negb_true_iff in Hc.
  destruct (is_space c).
  - destruct b.
    + by apply IH.
    + destruct (IH true Hr) as [Hnd Hst]. simpl. rewrite Hst, Hnd by done.
      by split.
  - destruct (IH false Hr) as [Hnd _]. simpl. rewrite Hc, Hnd. done.
Qed.

Lemma starts_with_hyphen_take n s :
  starts_with_hyphen (take_chars n s) = true → starts_with_hyphen s = true.
Proof. destruct n, s; done. Qed.

Lemma no_double_hyphen_take n s :
  no_double_hyphen s = true → no_double_hyphen (take_chars n s) = true.
Proof.
  revert s. induction n as [|n IH]; intros [|c r]; simpl; try done.
  intros [Hc Hr]%andb_true_iff. rewrite (IH r Hr), andb_true_r.
  destruct (is_hyphen c); [|done]. simpl in *.
  destruct (starts_with_hyphen (take_chars n r)) eqn:Hst; [|done].
  apply starts_with_hyphen_take in Hst. by rewrite Hst in Hc.
Qed.

Lemma all_chars_weaken (p q : ascii → bool) s :
  (∀ c, p c = true → q c = true) → all_chars p s = true → all_chars q s = true.
Proof.
  intros Hpq. induction s as [|c r IH]; simpl; [done|].
  intros [Hc Hr]%andb_true_iff. by rewrite (Hpq c Hc), IH.
Qed.

Lemma all_chars_filter p s : all_chars p (filter_chars p s) = true.
Proof.
  induction s as [|c r IH]; simpl; [done|].
  destruct (p c) eqn:Hp; simpl; [by rewrite Hp|done].
Qed.

Lemma all_chars_trimStart p s :
  all_chars p s = true → all_chars p (trimStart s) = true.
Proof.
  induction s as [|c r IH]; simpl; [done|].
  intros H. destruct (is_space c); [|done].
  apply andb_true_iff in H as [_ Hr]. by apply IH.
Qed.

Lemma all_chars_trimEnd p s :
  all_chars p s = true → all_chars p (trimEnd s) = true.
Proof.
  induction s as [|c r IH]; simpl; [done|].
  intros [Hc Hr]%andb_true_iff. specialize (IH Hr).
  destruct (trimEnd r) as [|c' r'].
  - destruct (is_space c); simpl; [done|by rewrite Hc].
  - simpl in *. by rewrite Hc, IH.
Qed.

Lemma lower_char_not_upper c : is_upper (lower_char c) = false.
Proof. by destruct c as [[] [] [] [] [] [] [] []]. Qed.

Lemma toLowerCase_not_upper s :
  all_chars (λ c, negb (is_upper c)) (toLowerCase s) = true.
Proof.
  unfold toLowerCase. induction s as [|c r IH]; simpl; [done|].
  by rewrite lower_char_not_upper.
Qed.

Lemma split_from_pieces p cur s :
  all_chars (λ c, negb (Stdlib.Strings.Ascii.eqb c " ") && p c) cur = true →
  all_chars p s = true →
  Forall (λ piece,
            all_chars (λ c, negb (Stdlib.Strings.Ascii.eqb c " ") && p c) piece = true)
    (split_from " " cur s).
Proof.
  revert cur. induction s as [|c r IH]; intros cur Hcur; simpl.
  - intros _. by constructor.
  - intros [Hc Hr]%andb_true_iff.
    destruct (Stdlib.Strings.Ascii.eqb c " ") eqn:Hsp.
    + constructor; [done|]. by apply IH.
    + apply IH; [|done]. rewrite all_chars_app. simpl. by rewrite Hcur, Hsp, Hc.
Qed.

End SlugFacts.

(** X7. The slug of a title never has two hyphens in a row: the hyphens of
    the title itself are stripped, and each run of white space gives exactly
    one. *)
Theorem basePermlink_has_single_hyphens title :
  MoreProps.no_double_hyphen (CreatePost.basePermlink title) = true.
Proof.
  unfold CreatePost.basePermlink, JS.hyphenate.
  apply no_double_hyphen_take, hyphenate_from_single_hyphens.
  eapply all_chars_weaken; [|apply all_chars_filter].
  intros c Hc. cbn beta. by rewrite kept_char_not_hyphen.
Qed.

(** X8. Every tag that [handleSubmit] extracts from the tag field is not
    empty, contains no space and no upper-case letter. *)
Theorem tags_are_normalised tags t :
  t ∈ CreatePost.tagArray tags →
  JS.truthy t = true ∧ JS.all_chars MoreProps.tag_char t = true.
Proof.
  unfold CreatePost.tagArray, JS.split.
  intros [Hin Ht]%list_elem_of_In%filter_In. split; [done|].
  apply list_elem_of_In, list_elem_of_fmap in Hin as (piece & -> & Hpiece).
  pose proof (split_from_pieces (λ c, negb (JS.is_upper c)) "" (JS.toLowerCase tags)
                eq_refl (toLowerCase_not_upper tags)) as Hall.
  rewrite Forall_forall in Hall. specialize (Hall piece Hpiece).
  unfold JS.trim. by apply all_chars_trimEnd, all_chars_trimStart.
Qed.

(** X8 (witness): a tag field with capitals and doubled spaces. *)
Lemma tags_are_normalised_witness :
  JS.truthy "hive" = true ∧ JS.all_chars MoreProps.tag_char "hive" = true.
Proof.
  apply (tags_are_normalised "Intro  HIVE Social" "hive").
  vm_compute. set_solver.
Defined.

(* ===================================================================== *)
(** ** Further properties: the post form over time *)
(* ===================================================================== *)

Section FormOverTime.
Import JS Env Timers CreatePost Props.

Lemma elapse_one_timer_early (wd : cworld) t ms :
  timers wd = [t] → ms < remaining t →
  view (elapse fire ms wd) = view wd ∧ trace (elapse fire ms wd) = trace wd.
Proof.
  intros Ht Hms. unfold elapse. rewrite Ht. simpl.
  destruct (remaining t <=? ms) eqn:Hle; [lia|done].
Qed.

Lemma elapse_one_timer_due (wd : cworld) t ms :
  timers wd = [t] → remaining t ≤ ms →
  view (elapse fire ms wd) = (fire (act t) (view wd)).1
  ∧ trace (elapse fire ms wd) = trace wd ++ (fire (act t) (view wd)).2
  ∧ timers (elapse fire ms wd) = [].
Proof.
  intros Ht Hms. unfold elapse. rewrite Ht. simpl.
  destruct (remaining t <=? ms) eqn:Hle; [|lia]. simpl.
  destruct (fire (act t) (view wd)) as [st effs]. simpl.
  by destruct (navigates effs).
Qed.

End FormOverTime.

(** X9. In [handleDirectPost] a refused key does not disarm the time-out:
    on a form with no time-out recorded and no timer pending, after the
    error about the key is shown and the submitting flag lowered, the
    30-second timer armed by the handler is still pending, and when it
    fires the message becomes 'Posting timed out. Please try again.'. *)
Theorem refused_key_leaves_the_timeout_armed
    (PrivateKey_from : string → JS.completion Env.PrivateKey) :
  ∀ directClient answer now ctx a n wd,
    let wd' :=
      CreatePost.handleDirectPost PrivateKey_from directClient answer now ctx wd in
    CreatePost.user ctx = Some (String a n) →
    Props.blank (CreatePost.title (Timers.view wd)) = false →
    Props.blank (CreatePost.body (Timers.view wd)) = false →
    Props.key_refused PrivateKey_from answer →
    CreatePost.timeoutId (Timers.view wd) = None →
    Timers.timers wd = [] →
    CreatePost.isSubmitting (Timers.view wd') = false
    ∧ (CreatePost.error (Timers.view wd') = CreatePost.invalid_key_message
       ∨ CreatePost.error (Timers.view wd')
         = "Posting key is required to publish a post.")
    ∧ Timers.timers wd'
      = [{| Timers.tid := Timers.next_id wd; Timers.remaining := 30000;
            Timers.act := CreatePost.PostingTimedOut |}]
    ∧ (∀ ms, ms < 30000 →
         Timers.view (Timers.elapse CreatePost.fire ms wd') = Timers.view wd')
    ∧ (∀ ms, 30000 ≤ ms →
         CreatePost.error (Timers.view (Timers.elapse CreatePost.fire ms wd'))
         = "Posting timed out. Please try again.").
Proof.
  intros directClient answer now ctx a n wd wd' Hu Ht Hb Hbad Hid Htm. subst wd'.
  unfold Props.blank in *. unfold CreatePost.handleDirectPost.
  rewrite Hu, Ht, Hb. unfold CreatePost.resetFormState. rewrite Hid.
  assert (Hgen : ∀ msg,
    let wd' :=
      Timers.upd (CreatePost.set_isSubmitting false)
        (Timers.upd (CreatePost.set_error msg)
           (Timers.emit [Env.Prompt CreatePost.key_prompt]
              (Timers.upd (CreatePost.set_timeoutId (Some (Timers.next_id wd)))
                 (Timers.setTimeout CreatePost.PostingTimedOut 30000
                    (Timers.upd
                       (λ s, CreatePost.set_debugInfo CreatePost.NoDebug
                               (CreatePost.set_error ""
                                  (CreatePost.set_isSubmitting true s)))
                       (Timers.upd (CreatePost.set_isSubmitting false) wd))).2))) in
    CreatePost.isSubmitting (Timers.view wd') = false
    ∧ CreatePost.error (Timers.view wd') = msg
    ∧ Timers.timers wd'
      = [{| Timers.tid := Timers.next_id wd; Timers.remaining := 30000;
            Timers.act := CreatePost.PostingTimedOut |}]
    ∧ (∀ ms, ms < 30000 →
         Timers.view (Timers.elapse CreatePost.fire ms wd') = Timers.view wd')
    ∧ (∀ ms, 30000 ≤ ms →
         CreatePost.error (Timers.view (Timers.elapse CreatePost.fire ms wd'))
         = "Posting timed out. Please try again.")).
  { intros msg wd'.
    assert (Htimers : Timers.timers wd'
      = [{| Timers.tid := Timers.next_id wd; Timers.remaining := 30000;
            Timers.act := CreatePost.PostingTimedOut |}]).
    { subst wd'. simpl. by rewrite Htm. }
    split; [done|]. split; [done|]. split; [done|]. split.
    - intros ms Hms. by apply (elapse_one_timer_early wd' _ ms Htimers).
    - intros ms Hms.
      destruct (elapse_one_timer_due wd' _ ms Htimers Hms) as (-> & _ & _). done. }
  destruct answer as [[|b k]|]; simpl in Hbad.
  - destruct (Hgen "Posting key is required to publish a post.")
      as (H1 & H2 & H3 & H4 & H5).
    split; [exact H1|]. split; [right; exact H2|]. split; [exact H3|].
    split; [exact H4|exact H5].
  - destruct Hbad as [e ->].
    destruct (Hgen CreatePost.invalid_key_message) as (H1 & H2 & H3 & H4 & H5).
    split; [exact H1|]. split; [left; exact H2|]. split; [exact H3|].
    split; [exact H4|exact H5].
  - destruct (Hgen "Posting key is required to publish a post.")
      as (H1 & H2 & H3 & H4 & H5).
    split; [exact H1|]. split; [right; exact H2|]. split; [exact H3|].
    split; [exact H4|exact H5].
Qed.

(** X9 (witness): "alice" answers the prompt of a fresh form with a
    string that is not a key. *)
Lemma refused_key_leaves_the_timeout_armed_witness :
  CreatePost.error
    (Timers.view
       (Timers.elapse CreatePost.fire 30000
          (CreatePost.handleDirectPost Sample.parse_key Sample.node
             (Some "not-a-key") 1793640300000%N
             {| CreatePost.user := Some "alice"; CreatePost.client := None;
                CreatePost.isKeychain := false |}
             (Sample.form "Hello World" "Body" "intro"))))
  = "Posting timed out. Please try again.".
Proof.
  refine (proj2 (proj2 (proj2 (proj2
            (refused_key_leaves_the_timeout_armed Sample.parse_key Sample.node
               (Some "not-a-key") 1793640300000%N
               {| CreatePost.user := Some "alice"; CreatePost.client := None;
                  CreatePost.isKeychain := false |}
               "a"%char "lice" (Sample.form "Hello World" "Body" "intro")
               eq_refl eq_refl eq_refl _ eq_refl eq_refl)))) 30000 _).
  - simpl. by eexists.
  - lia.
Defined.

(** X10. On a form with no timer pending, after a publish accepted by the
    agent, [handleSubmit] lowers the submitting flag and shows the success
    message while the form keeps its fields; nothing changes during the
    next two seconds; at two seconds the callback empties the fields and
    the message and the application navigates to '/@<user>/<permlink>' of
    the new post. *)
Theorem accepted_publish_clears_the_form_after_2s
    (PrivateKey_from : string → JS.completion Env.PrivateKey) :
  ∀ kc answer now_iso rnd36 a n c kcf r wd,
    let st := Timers.view wd in
    let u := String a n in
    let wd' :=
      CreatePost.handleSubmit PrivateKey_from {| Env.hive_keychain := Some kc |}
        answer now_iso rnd36
        {| CreatePost.user := Some u; CreatePost.client := c;
           CreatePost.isKeychain := kcf |} wd in
    Props.blank (CreatePost.title st) = false →
    Props.blank (CreatePost.body st) = false →
    Props.blank (CreatePost.tags st) = false →
    CreatePost.postingMethod st = "keychain" →
    (∀ acc pl par t b m au, Env.requestPost kc acc pl par t b m au = JS.Replies r) →
    Env.resp_success r = true →
    Timers.timers wd = [] →
    Timers.view wd'
    = CreatePost.set_successMessage "Post published successfully!"
        (CreatePost.set_isSubmitting false
           (CreatePost.set_debugInfo CreatePost.NoDebug (CreatePost.set_error "" st)))
    ∧ (∀ ms, ms < 2000 →
         Timers.view (Timers.elapse CreatePost.fire ms wd') = Timers.view wd')
    ∧ (∀ ms, 2000 ≤ ms →
         Timers.view (Timers.elapse CreatePost.fire ms wd')
         = CreatePost.clear_form (Timers.view wd')
         ∧ Timers.trace (Timers.elapse CreatePost.fire ms wd')
           = Timers.trace wd'
             ++ [Env.Navigate
                   ("/@" +:+ u +:+ "/"
                    +:+ CreatePost.generatePermlink (CreatePost.title st) now_iso
                          rnd36)]).
Proof.
  intros kc answer now_iso rnd36 a n c kcf r wd st u wd' Ht Hb Hg Hpm Hr Hok Htm.
  subst st u wd'. unfold Props.blank in *.
  pose proof (tagArray_nonempty (CreatePost.tags (Timers.view wd)) Hg) as Hne.
  unfold CreatePost.handleSubmit. cbn [CreatePost.user Env.hive_keychain].
  rewrite Ht, Hb, Hg, Hpm.
  destruct (CreatePost.tagArray (CreatePost.tags (Timers.view wd)))
    as [|tag0 rest]; [done|].
  cbn [String.eqb Stdlib.Strings.Ascii.eqb Bool.eqb].
  rewrite Hr. unfold CreatePost.on_post_response. rewrite Hok.
  match goal with |- context [Timers.view ?w = _] => set (wd' := w) end.
  assert (Htimers : Timers.timers wd'
    = [{| Timers.tid := Timers.next_id wd; Timers.remaining := 2000;
          Timers.act :=
            CreatePost.ClearFormAndNavigate
              ("/@" +:+ String a n +:+ "/"
               +:+ CreatePost.generatePermlink (CreatePost.title (Timers.view wd))
                     now_iso rnd36) |}]).
  { subst wd'. simpl. by rewrite Htm. }
  split; [done|]. split.
  - intros ms Hms. by apply (elapse_one_timer_early wd' _ ms Htimers).
  - intros ms Hms.
    destruct (elapse_one_timer_due wd' _ ms Htimers Hms) as (-> & -> & _). done.
Qed.

(** X10 (witness): "alice" publishes "Hello World" through an accepting
    agent. *)
Lemma accepted_publish_clears_the_form_after_2s_witness :
  let wd :=
    CreatePost.handleSubmit Sample.parse_key
      (Sample.browser (JS.Replies Sample.accepted)) None
      "2026-11-02T17:25:00.000Z" "0.k3j9x2abcde"
      {| CreatePost.user := Some "alice"; CreatePost.client := Some Sample.node;
         CreatePost.isKeychain := true |}
      (Sample.with_method "keychain" (Sample.form "Hello World" "Body" "intro")) in
  CreatePost.title (Timers.view (Timers.elapse CreatePost.fire 2000 wd)) = ""
  ∧ Timers.trace (Timers.elapse CreatePost.fire 2000 wd)
    = Timers.trace wd ++ [Env.Navigate "/@alice/hello-world-20261102-k3j9x2"].
Proof.
  destruct (proj2 (proj2
    (accepted_publish_clears_the_form_after_2s Sample.parse_key
       (Sample.agent (JS.Replies Sample.accepted)) None "2026-11-02T17:25:00.000Z"
       "0.k3j9x2abcde" "a"%char "lice" (Some Sample.node) true Sample.accepted
       (Sample.with_method "keychain" (Sample.form "Hello World" "Body" "intro"))
       eq_refl eq_refl eq_refl eq_refl (λ _ _ _ _ _ _ _, eq_refl) eq_refl eq_refl))
    2000 ltac:(lia)) as [Hview Htrace].
  split; [exact (f_equal CreatePost.title Hview) | exact Htrace].
Defined.

(** X11. A post sent with the key through [handleSubmit] never gives the
    submit button back. On a form with no timer pending, once the ledger
    has accepted the batch the success message is shown with the
    submitting flag still raised; nothing changes during the next two
    seconds, so the flag stays raised for as long as the form is on the
    page; at two seconds the application navigates away to the new post,
    which unmounts the form, and no timer is left. [handleDirectPost] on
    the contrary lowers the flag on the same success. *)
Theorem direct_publish_leaves_the_form_submitting
    (PrivateKey_from : string → JS.completion Env.PrivateKey) :
  ∀ w b k key now_iso rnd36 ctx a n cl v wd,
    let st := Timers.view wd in
    let wd' :=
      CreatePost.handleSubmit PrivateKey_from w (Some (String b k)) now_iso rnd36
        ctx wd in
    CreatePost.user ctx = Some (String a n) →
    CreatePost.activeClient ctx st = Some cl →
    Props.blank (CreatePost.title st) = false →
    Props.blank (CreatePost.body st) = false →
    Props.blank (CreatePost.tags st) = false →
    CreatePost.postingMethod st = "direct" →
    PrivateKey_from (String b k) = JS.Normal key →
    (∀ ops, Env.sendOperations cl ops key = JS.Fulfilled v) →
    Timers.timers wd = [] →
    CreatePost.successMessage (Timers.view wd') = "Post published successfully!"
    ∧ CreatePost.isSubmitting (Timers.view wd') = true
    ∧ (∀ ms, ms < 2000 →
         Timers.view (Timers.elapse CreatePost.fire ms wd') = Timers.view wd'
         ∧ Timers.trace (Timers.elapse CreatePost.fire ms wd') = Timers.trace wd')
    ∧ (∀ ms, 2000 ≤ ms →
         Timers.trace (Timers.elapse CreatePost.fire ms wd')
         = Timers.trace wd'
           ++ [Env.Navigate
                 ("/@" +:+ String a n +:+ "/"
                  +:+ CreatePost.generatePermlink (CreatePost.title st) now_iso
                        rnd36)]
         ∧ Timers.timers (Timers.elapse CreatePost.fire ms wd') = [])
    ∧ (∀ now c' kcf,
         CreatePost.isSubmitting
           (Timers.view
              (CreatePost.handleDirectPost PrivateKey_from cl (Some (String b k)) now
                 {| CreatePost.user := Some (String a n); CreatePost.client := c';
                    CreatePost.isKeychain := kcf |} wd)) = false).
Proof.
  intros w b k key now_iso rnd36 ctx a n cl v wd st wd' Hu Hcl Ht Hb Hg Hpm Hkey
    Hsend Htm.
  destruct (handleSubmit_direct_validated PrivateKey_from w (Some (String b k))
              now_iso rnd36 ctx a n wd Hu Ht Hb Hg Hpm)
    as (tag0 & rest & Htags & Heq).
  subst st wd'. rewrite Heq. unfold CreatePost.submit_direct.
  rewrite Hcl, Hkey, Hsend.
  match goal with |- context [Timers.view ?w] => set (wd' := w) end.
  assert (Htimers : Timers.timers wd'
    = [{| Timers.tid := Timers.next_id wd; Timers.remaining := 2000;
          Timers.act :=
            CreatePost.ClearFormAndNavigate
              ("/@" +:+ String a n +:+ "/"
               +:+ CreatePost.generatePermlink (CreatePost.title (Timers.view wd))
                     now_iso rnd36) |}]).
  { subst wd'. simpl. by rewrite Htm. }
  split; [done|]. split; [done|]. split; [|split].
  - intros ms Hlt. by apply (elapse_one_timer_early wd' _ ms Htimers).
  - intros ms Hle.
    destruct (elapse_one_timer_due wd' _ ms Htimers Hle) as (_ & -> & ->). done.
  - intros now c' kcf. unfold Props.blank in *.
    unfold CreatePost.handleDirectPost. cbn [CreatePost.user].
    rewrite Ht, Hb, Hkey. unfold CreatePost.resetFormState.
    destruct (CreatePost.timeoutId (Timers.view wd)); simpl; by rewrite Hsend.
Qed.

(** X11 (witness): "alice" publishes "Hello World" with a key that parses;
    one second later the form is still submitting. *)
Lemma direct_publish_leaves_the_form_submitting_witness :
  let wd :=
    CreatePost.handleSubmit Sample.parse_key Sample.plain_browser
      (Some Sample.good_key) "2026-11-02T17:25:00.000Z" "0.k3j9x2abcde"
      {| CreatePost.user := Some "alice"; CreatePost.client := Some Sample.node;
         CreatePost.isKeychain := false |}
      (Sample.form "Hello World" "Body" "intro") in
  CreatePost.isSubmitting (Timers.view wd) = true
  ∧ Timers.view (Timers.elapse CreatePost.fire 1000 wd) = Timers.view wd
  ∧ Timers.trace (Timers.elapse CreatePost.fire 2000 wd)
    = Timers.trace wd ++ [Env.Navigate "/@alice/hello-world-20261102-k3j9x2"].
Proof.
  pose proof
    (direct_publish_leaves_the_form_submitting Sample.parse_key Sample.plain_browser
       "5"%char "KKKKKKKKKKKKKKKKKKKKKKKKKKKKKKKKKKKKKKKKKKKKKKKKKK"
       {| Env.key_data := Sample.good_key |} "2026-11-02T17:25:00.000Z"
       "0.k3j9x2abcde"
       {| CreatePost.user := Some "alice"; CreatePost.client := Some Sample.node;
          CreatePost.isKeychain := false |}
       "a"%char "lice" Sample.node (JS.JObj [])
       (Sample.form "Hello World" "Body" "intro")
       eq_refl eq_refl eq_refl eq_refl eq_refl eq_refl eq_refl (λ _, eq_refl)
       eq_refl) as H.
  cbn zeta in H. destruct H as (_ & Hsub & Hearly & Hdue & _).
  split; [exact Hsub|]. split.
  - exact (proj1 (Hearly 1000 ltac:(lia))).
  - exact (proj1 (Hdue 2000 ltac:(lia))).
Defined.

(** X12. The reset button disarms a pending time-out: when
    [handleDirectPost] is waiting for the ledger, [forceReset] lowers the
    submitting flag and removes the 30-second timer the handler had armed,
    so the message 'Form state has been reset.' is never replaced by the
    time-out message. *)
Theorem forceReset_disarms_the_timeout
    (PrivateKey_from : string → JS.completion Env.PrivateKey) :
  ∀ directClient b k key now ctx a n wd,
    let wd1 :=
      CreatePost.handleDirectPost PrivateKey_from directClient (Some (String b k))
        now ctx wd in
    let wd2 := CreatePostImage.forceReset wd1 in
    CreatePost.user ctx = Some (String a n) →
    Props.blank (CreatePost.title (Timers.view wd)) = false →
    Props.blank (CreatePost.body (Timers.view wd)) = false →
    PrivateKey_from (String b k) = JS.Normal key →
    (∀ ops, Env.sendOperations directClient ops key = JS.Pending) →
    Timers.timers wd = [] →
    CreatePost.isSubmitting (Timers.view wd1) = true
    ∧ Timers.timers wd1
      = [{| Timers.tid := Timers.next_id wd; Timers.remaining := 30000;
            Timers.act := CreatePost.PostingTimedOut |}]
    ∧ Timers.timers wd2 = []
    ∧ CreatePost.isSubmitting (Timers.view wd2) = false
    ∧ CreatePost.timeoutId (Timers.view wd2) = None
    ∧ ∀ ms, CreatePost.error (Timers.view (Timers.elapse CreatePost.fire ms wd2))
            = "Form state has been reset.".
Proof.
  intros directClient b k key now ctx a n wd wd1 wd2 Hu Ht Hb Hkey Hsend Htm.
  unfold Props.blank in *.
  assert (Hwd1 : CreatePost.isSubmitting (Timers.view wd1) = true
    ∧ Timers.timers wd1
      = [{| Timers.tid := Timers.next_id wd; Timers.remaining := 30000;
            Timers.act := CreatePost.PostingTimedOut |}]
    ∧ CreatePost.timeoutId (Timers.view wd1) = Some (Timers.next_id wd)).
  { subst wd1. unfold CreatePost.handleDirectPost. rewrite Hu, Ht, Hb.
    unfold CreatePost.resetFormState.
    destruct (CreatePost.timeoutId (Timers.view wd)); simpl;
      rewrite Hkey, Hsend; simpl; by rewrite Htm. }
  destruct Hwd1 as (Hsub & Htimers & Hid).
  assert (Hwd2 : Timers.timers wd2 = []
    ∧ CreatePost.isSubmitting (Timers.view wd2) = false
    ∧ CreatePost.timeoutId (Timers.view wd2) = None
    ∧ CreatePost.error (Timers.view wd2) = "Form state has been reset.").
  { subst wd2. unfold CreatePostImage.forceReset, CreatePost.resetFormState.
    rewrite Hid. simpl. rewrite Htimers. simpl. by rewrite Pos.eqb_refl. }
  destruct Hwd2 as (Hnone & Hlow & Hnoid & Herr).
  repeat (split; [done|]).
  intros ms. by rewrite (elapse_no_timers CreatePost.fire ms wd2 Hnone).
Qed.

(** X12 (witness): "alice" resets the form while the ledger does not
    answer. *)
Lemma forceReset_disarms_the_timeout_witness :
  CreatePost.error
    (Timers.view
       (Timers.elapse CreatePost.fire 60000
          (CreatePostImage.forceReset
             (CreatePost.handleDirectPost Sample.parse_key
                (Sample.ledger JS.Pending) (Some Sample.good_key)
                1793640300000%N
                {| CreatePost.user := Some "alice"; CreatePost.client := None;
                   CreatePost.isKeychain := false |}
                (Sample.form "Hello World" "Body" "intro")))))
  = "Form state has been reset.".
Proof.
  refine (proj2 (proj2 (proj2 (proj2 (proj2
    (forceReset_disarms_the_timeout Sample.parse_key (Sample.ledger JS.Pending)
       "5"%char "KKKKKKKKKKKKKKKKKKKKKKKKKKKKKKKKKKKKKKKKKKKKKKKKKK"
       {| Env.key_data := Sample.good_key |} 1793640300000%N
       {| CreatePost.user := Some "alice"; CreatePost.client := None;
          CreatePost.isKeychain := false |}
       "a"%char "lice" (Sample.form "Hello World" "Body" "intro")
       eq_refl eq_refl eq_refl eq_refl (λ _, eq_refl) eq_refl))))) 60000).
Defined.

(** X13. [handleImageUpload] touches the post only for an image it
    accepts: a file that is not a JPEG, PNG or GIF, or one above 5 MB, only
    sets an error message (the type is checked first); an accepted file
    that loads becomes the image of the post and its markdown reference is
    appended to the body, whose previous text is kept in front. *)
Theorem image_upload_only_adds_accepted_images :
  ∀ file rd st,
    let st' := (CreatePostImage.handleImageUpload (Some file) rd st).2 in
    let accepted :=
      existsb (String.eqb (UploadUtils.type file)) CreatePostImage.validTypes
      && negb (UploadUtils.size file >? 5 * 1024 * 1024) in
    (accepted = false →
     CreatePostImage.handleImageUpload (Some file) rd st
     = ([], CreatePostImage.on_form
              (CreatePost.set_error
                 (if existsb (String.eqb (UploadUtils.type file))
                       CreatePostImage.validTypes
                  then "Image size should be less than 5MB"
                  else "Please upload a valid image file (JPEG, PNG, or GIF)")) st))
    ∧ (accepted = true →
       match rd with
       | CreatePostImage.Loaded dataUrl =>
           CreatePost.imageUrl (CreatePostImage.form st') = dataUrl
           ∧ CreatePost.body (CreatePostImage.form st')
             = CreatePost.body (CreatePostImage.form st)
               +:+ CreatePostImage.imageMarkdown (UploadUtils.name file) dataUrl
           ∧ CreatePostImage.uploadingImage st' = false
           ∧ CreatePost.error (CreatePostImage.form st') = ""
       | CreatePostImage.NoEvent =>
           CreatePostImage.uploadingImage st' = true
           ∧ CreatePost.body (CreatePostImage.form st')
             = CreatePost.body (CreatePostImage.form st)
           ∧ CreatePost.imageUrl (CreatePostImage.form st')
             = CreatePost.imageUrl (CreatePostImage.form st)
       | _ =>
           CreatePostImage.uploadingImage st' = false
           ∧ JS.truthy (CreatePost.error (CreatePostImage.form st')) = true
           ∧ CreatePost.body (CreatePostImage.form st')
             = CreatePost.body (CreatePostImage.form st)
           ∧ CreatePost.imageUrl (CreatePostImage.form st')
             = CreatePost.imageUrl (CreatePostImage.form st)
       end).
Proof.
  intros file rd st. cbn zeta. unfold CreatePostImage.handleImageUpload.
  destruct (existsb (String.eqb (UploadUtils.type file)) CreatePostImage.validTypes);
    cbn [negb andb]; [|by split].
  destruct (UploadUtils.size file >? 5 * 1024 * 1024); cbn [negb]; [by split|].
  split; [done|]. intros _. by destruct rd.
Qed.

(** X13 (witness): a text file is refused. *)
Lemma image_upload_only_adds_accepted_images_witness :
  CreatePostImage.handleImageUpload
    (Some {| UploadUtils.name := "notes.txt"; UploadUtils.size := 12;
             UploadUtils.type := "text/plain" |}) CreatePostImage.NoEvent
    {| CreatePostImage.uploadingImage := false;
       CreatePostImage.form := Timers.view (Sample.form "Hello World" "Body" "intro") |}
  = ([], CreatePostImage.on_form
           (CreatePost.set_error
              "Please upload a valid image file (JPEG, PNG, or GIF)")
           {| CreatePostImage.uploadingImage := false;
              CreatePostImage.form :=
                Timers.view (Sample.form "Hello World" "Body" "intro") |}).
Proof.
  apply (proj1 (image_upload_only_adds_accepted_images
                  {| UploadUtils.name := "notes.txt"; UploadUtils.size := 12;
                     UploadUtils.type := "text/plain" |} CreatePostImage.NoEvent
                  {| CreatePostImage.uploadingImage := false;
                     CreatePostImage.form :=
                       Timers.view (Sample.form "Hello World" "Body" "intro") |})).
  reflexivity.
Defined.

(* ===================================================================== *)
(** ** Further properties: the vote toggle of PostView *)
(* ===================================================================== *)

Section VoteToggle.
Import JS Env PostViewVote.

Lemma filter_out_appended (u : string) (v : vote) (l : list vote) :
  voter v = u →
  Forall (λ x, voter x ≠ u) l →
  List.filter (λ x, negb (String.eqb (voter x) u)) (l ++ [v]) = l.
Proof.
  intros Hv Hl. induction Hl as [|x l Hx Hl IH]; simpl.
  - by rewrite Hv, String.eqb_refl.
  - apply String.eqb_neq in Hx. rewrite Hx. simpl. by rewrite IH.
Qed.

End VoteToggle.

(** X14. Voting and then withdrawing the vote gives the post back as it
    was. For a user who has not voted and is not among the voters, with an
    agent that accepts, the first click asks for the current vote weight,
    adds the user's vote and raises the count by one; the second click asks
    for the weight 0, and leaves the post and the vote flag exactly as
    before the first click. *)
Theorem vote_then_unvote_restores_the_post :
  ∀ ask te now1 now2 a n author permlink p st r,
    let u := String a n in
    let ctx := {| PostViewVote.user := Some u; PostViewVote.isKeychain := true |} in
    let first := PostViewVote.handleVote (Some ask) te now1 ctx author permlink st in
    let second :=
      PostViewVote.handleVote (Some ask) te now2 ctx author permlink first.2 in
    (∀ acc pl au weight, ask acc pl au weight = JS.Replies r) →
    Env.resp_success r = true →
    PostViewVote.post_data st = Some p →
    PostViewVote.voted st = false →
    Forall (λ v, PostViewVote.voter v ≠ u) (PostViewVote.active_votes p) →
    first.1 = Some {| PostViewVote.rq_account := u;
                      PostViewVote.rq_permlink := permlink;
                      PostViewVote.rq_author := author;
                      PostViewVote.rq_weight := PostViewVote.voteWeight st |}
    ∧ PostViewVote.voted first.2 = true
    ∧ PostViewVote.post_data first.2
      = Some {| PostViewVote.other_fields := PostViewVote.other_fields p;
                PostViewVote.active_votes :=
                  PostViewVote.active_votes p
                  ++ [{| PostViewVote.voter := u;
                         PostViewVote.percent := PostViewVote.voteWeight st;
                         PostViewVote.time := now1 |}];
                PostViewVote.net_votes := PostViewVote.net_votes p + 1 |}
    ∧ second.1 = Some {| PostViewVote.rq_account := u;
                         PostViewVote.rq_permlink := permlink;
                         PostViewVote.rq_author := author;
                         PostViewVote.rq_weight := 0 |}
    ∧ second.2 = st.
Proof.
  intros ask te now1 now2 a n author permlink p st r u ctx first second
    Hask Hok Hpost Hvoted Hfresh.
  subst first second ctx u. destruct st as [pd vd vw err]. simpl in *. subst pd vd.
  unfold PostViewVote.handleVote, PostViewVote.on_vote_response.
  repeat (progress (rewrite ?Hask, ?Hok; simpl)).
  repeat split.
  rewrite filter_out_appended by done.
  destruct p as [other votes net]. simpl. do 3 f_equal. lia.
Qed.

(** X14 (witness): "alice" votes on a post of two votes and withdraws. *)
Lemma vote_then_unvote_restores_the_post_witness :
  let ctx :=
    {| PostViewVote.user := Some "alice"; PostViewVote.isKeychain := true |} in
  (PostViewVote.handleVote (Some MoreSamples.accepting_vote)
     Sample.type_error "2026-11-02T17:26:00.000Z" ctx "bob" "post-1"
     (PostViewVote.handleVote (Some MoreSamples.accepting_vote)
        Sample.type_error "2026-11-02T17:25:00.000Z" ctx "bob" "post-1"
        MoreSamples.vote_view).2).2
  = MoreSamples.vote_view.
Proof.
  cbn zeta.
  refine (proj2 (proj2 (proj2 (proj2
    (vote_then_unvote_restores_the_post MoreSamples.accepting_vote
       Sample.type_error "2026-11-02T17:25:00.000Z" "2026-11-02T17:26:00.000Z"
       "a"%char "lice" "bob" "post-1" MoreSamples.voted_post MoreSamples.vote_view
       Sample.accepted (λ _ _ _ _, eq_refl) eq_refl eq_refl eq_refl _))))).
  repeat constructor; done.
Defined.

(** X15. The vote flag and the post of [PostView] change when the agent
    answers the request with success, and only then. When a signed-in user
    with the Keychain flag clicks and the agent accepts the request (of the
    current weight, or of the weight 0 for a user who had voted), the flag
    is inverted, the vote count moves by exactly one (down when the user
    had voted, up otherwise) and the error message is unchanged; when the
    agent refuses, the flag and the post are as before and the message is
    'Voting failed: ' followed by the message of the agent. Conversely,
    whenever the flag or the post has changed, somebody was signed in with
    the Keychain flag, an agent was installed and it accepted the
    request. *)
Theorem vote_view_changes_only_on_success :
  (∀ ask te now_iso a n author permlink st r,
     let u := String a n in
     let st' :=
       (PostViewVote.handleVote (Some ask) te now_iso
          {| PostViewVote.user := Some u; PostViewVote.isKeychain := true |}
          author permlink st).2 in
     ask u permlink author
       (if PostViewVote.voted st then 0 else PostViewVote.voteWeight st)
     = JS.Replies r →
     if Env.resp_success r
     then PostViewVote.voted st' = negb (PostViewVote.voted st)
          ∧ PostViewVote.error st' = PostViewVote.error st
          ∧ PostViewVote.voteWeight st' = PostViewVote.voteWeight st
          ∧ (PostViewVote.net_votes <$> PostViewVote.post_data st')
            = ((λ p, if PostViewVote.voted st
                     then PostViewVote.net_votes p - 1
                     else PostViewVote.net_votes p + 1)
               <$> PostViewVote.post_data st)
     else PostViewVote.voted st' = PostViewVote.voted st
          ∧ PostViewVote.post_data st' = PostViewVote.post_data st
          ∧ PostViewVote.error st'
            = "Voting failed: " +:+ default "undefined" (Env.resp_message r))
  ∧ (∀ requestVote te now_iso ctx author permlink st,
       let st' :=
         (PostViewVote.handleVote requestVote te now_iso ctx author permlink st).2 in
       PostViewVote.post_data st' ≠ PostViewVote.post_data st
       ∨ PostViewVote.voted st' ≠ PostViewVote.voted st →
       ∃ a n ask r,
         PostViewVote.user ctx = Some (String a n)
         ∧ PostViewVote.isKeychain ctx = true
         ∧ requestVote = Some ask
         ∧ ask (String a n) permlink author
             (if PostViewVote.voted st then 0 else PostViewVote.voteWeight st)
           = JS.Replies r
         ∧ Env.resp_success r = true).
Proof.
  split.
  - intros ask te now_iso a n author permlink st r u st' Hask. subst u st'.
    unfold PostViewVote.handleVote. cbn [PostViewVote.user PostViewVote.isKeychain snd].
    rewrite Hask. unfold PostViewVote.on_vote_response.
    destruct (Env.resp_success r); [|done].
    simpl. repeat split.
    destruct (PostViewVote.post_data st) as [p|]; [|done].
    simpl. by destruct (PostViewVote.voted st).
  - intros requestVote te now_iso ctx author permlink st. cbn zeta.
    unfold PostViewVote.handleVote.
    destruct (PostViewVote.user ctx) as [[|a n]|]; [by intros [?|?]| |by intros [?|?]].
    destruct (PostViewVote.isKeychain ctx); [|by intros [?|?]].
    destruct requestVote as [ask|]; [|by intros [?|?]].
    cbn [snd]. destruct (ask _ _ _ _) as [r|e|] eqn:Hask;
      [|by intros [?|?]|by intros [?|?]].
    unfold PostViewVote.on_vote_response.
    destruct (Env.resp_success r) eqn:Hok; [|by intros [?|?]].
    intros _. by exists a, n, ask, r.
Qed.

(** X15 (witness): "alice" votes with an agent that accepts. *)
Lemma vote_view_changes_only_on_success_witness :
  let st' :=
    (PostViewVote.handleVote (Some MoreSamples.accepting_vote) Sample.type_error
       "2026-11-02T17:25:00.000Z"
       {| PostViewVote.user := Some "alice"; PostViewVote.isKeychain := true |}
       "bob" "post-1" MoreSamples.vote_view).2 in
  PostViewVote.voted st' = true
  ∧ (PostViewVote.net_votes <$> PostViewVote.post_data st') = Some 3.
Proof.
  pose proof (proj1 vote_view_changes_only_on_success MoreSamples.accepting_vote
                Sample.type_error "2026-11-02T17:25:00.000Z" "a"%char "lice" "bob"
                "post-1" MoreSamples.vote_view Sample.accepted eq_refl) as H.
  cbn zeta in H. destruct H as (Hv & _ & _ & Hn). split; [exact Hv|exact Hn].
Defined.

(* ===================================================================== *)
(** ** Further properties: the comment form of Post *)
(* ===================================================================== *)

(** X16. The comment form keeps what the user typed unless the comment
    went through. A blank comment is refused without calling the helper;
    when the helper fails, or rejects, the text and the list of comments
    are as before and a non-empty error message is shown; when it succeeds
    the new comment, with the permlink the helper returned, is put in front
    of the list and the text is emptied. *)
Theorem comment_text_is_kept_unless_posted :
  ∀ w te now now_iso c u p st,
    let ctx := {| Post.client := c; Post.ctx_user := Some u;
                  Post.isKeychain := true |} in
    let run := PostComments.handleComment w te now now_iso ctx p st in
    if Props.blank (PostComments.commentText st)
    then run.1 = []
         ∧ PostComments.commentText run.2 = PostComments.commentText st
         ∧ PostComments.comments run.2 = PostComments.comments st
         ∧ PostComments.commentError run.2 = "Comment cannot be empty"
    else
      match (SocialUtils.commentOnPost w te now c (Post.name u) (Post.author p)
               (Some (Post.permlink p)) (PostComments.commentText st) []).2 with
      | JS.Fulfilled r =>
          if SocialUtils.success r
          then PostComments.commentText run.2 = ""
               ∧ PostComments.comments run.2
                 = PostComments.newComment (Post.name u) (SocialUtils.permlink r)
                     (PostComments.commentText st) now_iso
                   :: PostComments.comments st
               ∧ PostComments.isCommenting run.2 = false
          else PostComments.commentText run.2 = PostComments.commentText st
               ∧ PostComments.comments run.2 = PostComments.comments st
               ∧ JS.truthy (PostComments.commentError run.2) = true
               ∧ PostComments.isCommenting run.2 = false
      | JS.Rejected _ =>
          PostComments.commentText run.2 = PostComments.commentText st
          ∧ PostComments.comments run.2 = PostComments.comments st
          ∧ JS.truthy (PostComments.commentError run.2) = true
          ∧ PostComments.isCommenting run.2 = false
      | JS.Pending =>
          PostComments.commentText run.2 = PostComments.commentText st
          ∧ PostComments.comments run.2 = PostComments.comments st
          ∧ PostComments.isCommenting run.2 = true
      end.
Proof.
  intros w te now now_iso c u p st. cbn zeta. unfold Props.blank.
  unfold PostComments.handleComment. cbn [Post.ctx_user Post.isKeychain Post.client].
  destruct (negb (JS.truthy (JS.trim (PostComments.commentText st)))); [done|].
  destruct (SocialUtils.commentOnPost w te now c (Post.name u) (Post.author p)
              (Some (Post.permlink p)) (PostComments.commentText st) [])
    as [effs [r|e|]]; simpl; [|done|done].
  destruct (SocialUtils.success r); simpl; [done|].
  repeat split. by apply or_else_truthy.
Qed.

(* ===================================================================== *)
(** ** Further properties: connecting and loading the feed *)
(* ===================================================================== *)

Section Connecting.
Import JS Env App NodeProps.

Lemma failing_run w cl st :
  probe_fails cl →
  (initializeApp w (Normal cl) st).2
  = if connectionAttempts st <? 3
    then {| client := Some cl;
            isKeychain := match hive_keychain w with
                          | Some _ => true
                          | None => isKeychain st
                          end;
            networkError := networkError st; isLoading := false;
            connectionAttempts := connectionAttempts st + 1; clientReady := true |}
    else {| client := Some cl;
            isKeychain := match hive_keychain w with
                          | Some _ => true
                          | None => isKeychain st
                          end;
            networkError := Some unreachable_message; isLoading := false;
            connectionAttempts := connectionAttempts st; clientReady := true |}.
Proof.
  intros [e He]. unfold initializeApp. rewrite He.
  by destruct (connectionAttempts st <? 3).
Qed.

Lemma runs_cons w cl clients st :
  runs w (cl :: clients) st = runs w clients (initializeApp w (Normal cl) st).2.
Proof. reflexivity. Qed.

Lemma runs_app w first rest st :
  runs w (first ++ rest) st = runs w rest (runs w first st).
Proof. apply fold_left_app. Qed.

Lemma failing_runs_saturated w clients st :
  Forall probe_fails clients →
  connectionAttempts st = 3 →
  connectionAttempts (runs w clients st) = 3
  ∧ (clients ≠ [] → networkError (runs w clients st) = Some unreachable_message).
Proof.
  intros Hall. revert st. induction Hall as [|cl clients Hcl _ IH]; intros st H3.
  - done.
  - rewrite runs_cons, (failing_run w cl st Hcl), H3. simpl.
    match goal with |- context [runs w clients ?s] =>
      destruct (IH s eq_refl) as [Hc Hn] end.
    split; [exact Hc|]. intros _.
    destruct clients as [|cl' rest]; [done|]. by apply Hn.
Qed.

Lemma failing_runs_count w clients st :
  Forall probe_fails clients →
  0 ≤ connectionAttempts st ≤ 3 → networkError st = None →
  connectionAttempts (runs w clients st)
  = Z.min (connectionAttempts st + Z.of_nat (length clients)) 3
  ∧ (networkError (runs w clients st) = None
     ↔ connectionAttempts st + Z.of_nat (length clients) ≤ 3).
Proof.
  intros Hall. revert st. induction Hall as [|cl clients Hcl Hall IH];
    intros st Hk Hnone.
  - simpl. split; [lia|]. split; [lia|done].
  - destruct (Z.ltb_spec (connectionAttempts st) 3) as [Hlt|Hge].
    + rewrite runs_cons, (failing_run w cl st Hcl).
      destruct (connectionAttempts st <? 3) eqn:Hb; [|lia].
      match goal with |- context [runs w clients ?s] =>
        destruct (IH s) as [Hc Hn]; [simpl; lia|done|] end.
      rewrite Hc, Hn. cbn [connectionAttempts length].
      split; [lia|]. split; lia.
    + assert (connectionAttempts st = 3) as H3 by lia.
      assert (Forall probe_fails (cl :: clients)) as Hall' by by constructor.
      destruct (failing_runs_saturated w (cl :: clients) st Hall' H3) as [Hc Hn].
      rewrite Hc, Hn by done. rewrite H3. cbn [length].
      split; [lia|]. split; [done|lia].
Qed.

End Connecting.

(** X17. The connection is given up after the fourth refusal. Starting
    from the fresh state, when every probe is refused, the counter of
    attempts after [k] runs of [initializeApp] is [min k 3], and the
    message 'Could not connect to Hive blockchain after multiple attempts'
    is shown exactly from the fourth run on; after every such run the
    application has a client, is marked ready and has stopped loading. *)
Theorem connection_is_given_up_at_the_fourth_refusal :
  ∀ w clients,
    Forall NodeProps.probe_fails clients →
    let st := App.runs w clients App.fresh in
    App.connectionAttempts st = Z.min (Z.of_nat (length clients)) 3
    ∧ (App.networkError st = None ↔ (length clients ≤ 3)%nat)
    ∧ ((4 ≤ length clients)%nat →
       App.networkError st = Some NodeProps.unreachable_message)
    ∧ (clients ≠ [] →
       is_Some (App.client st) ∧ App.clientReady st = true
       ∧ App.isLoading st = false).
Proof.
  intros w clients Hall st.
  destruct (failing_runs_count w clients App.fresh Hall) as [Hc Hn];
    [simpl; lia|done|].
  fold st in Hc, Hn. simpl App.connectionAttempts in Hc, Hn.
  split; [exact Hc|]. split; [rewrite Hn; lia|]. split.
  - intros H4.
    assert (Hsplit : ∃ first rest, clients = first ++ rest ∧ length first = 3%nat
                                   ∧ rest ≠ []).
    { exists (take 3 clients), (drop 3 clients).
      rewrite take_drop, List.length_firstn. repeat split; [lia|].
      intros Hnil. apply (f_equal length) in Hnil. rewrite length_drop in Hnil.
      simpl in Hnil. lia. }
    destruct Hsplit as (first & rest & -> & Hlen & Hrest).
    apply Forall_app in Hall as [Hfirst Hrest_fails].
    subst st. rewrite runs_app.
    apply failing_runs_saturated; [done| |done].
    destruct (failing_runs_count w first App.fresh Hfirst) as [Hc' _];
      [simpl; lia|done|].
    rewrite Hc', Hlen. done.
  - intros Hne. destruct clients as [|cl clients] using rev_ind; [done|].
    clear IHclients. subst st. rewrite runs_app, runs_cons.
    apply Forall_app in Hall as [_ Hlast]. apply Forall_inv in Hlast.
    rewrite (failing_run w cl _ Hlast). simpl.
    by destruct (App.connectionAttempts _ <? 3).
Qed.

(** X17 (witness): five runs against a node that refuses every call. *)
Lemma connection_is_given_up_at_the_fourth_refusal_witness :
  App.connectionAttempts
    (App.runs Sample.plain_browser (replicate 5 MoreSamples.dead_node) App.fresh)
  = Z.min (Z.of_nat (length (replicate 5 MoreSamples.dead_node))) 3.
Proof.
  apply (connection_is_given_up_at_the_fourth_refusal Sample.plain_browser
           (replicate 5 MoreSamples.dead_node)).
  repeat constructor; by eexists.
Defined.

Section Feed.
Import JS Env Home MoreProps.

Lemma fetchPosts_no_posts created cl reset st :
  no_posts (database_call cl ("get_discussions_by_" +:+ category st) []) →
  fetchPosts created (Some cl) reset st
  = ([DatabaseCall ("get_discussions_by_" +:+ category st) []],
     if String.eqb (category st) "trending"
     then {| posts := if reset then [] else posts st; loading := false;
             error := error st; category := "hot"; hasMore := hasMore st;
             lastPost := if reset then None else lastPost st;
             usingSampleData := usingSampleData st |}
     else if String.eqb (category st) "hot"
     then {| posts := if reset then [] else posts st; loading := false;
             error := error st; category := "created"; hasMore := hasMore st;
             lastPost := if reset then None else lastPost st;
             usingSampleData := usingSampleData st |}
     else {| posts := SAMPLE_POSTS created; loading := false;
             error := "Could not fetch posts from Hive. Showing sample content.";
             category := category st; hasMore := hasMore st;
             lastPost := if reset then None else lastPost st;
             usingSampleData := true |}).
Proof.
  intros (v & Hv & Hno). unfold fetchPosts. rewrite Hv.
  destruct v as [| | |[|p l]|]; try done. by destruct (Hno p l).
Qed.

Lemma initial_load_S n created c st :
  initial_load (S n) created c st
  = (let '(effs, st1) := fetchPosts created c true st in
     if String.eqb (category st1) (category st) then (effs, st1)
     else let '(effs', st2) := initial_load n created c st1 in (effs ++ effs', st2)).
Proof. reflexivity. Qed.

End Feed.

(** X18. When the ledger has no post to give, the feed falls back from
    'trending' to 'hot', from 'hot' to 'created', and then to the sample
    posts: the initial load ends with the two sample posts and the message
    'Could not fetch posts from Hive. Showing sample content.', after three
    calls when it started at 'trending', two at 'hot' and one at any other
    category, and never makes a fourth call. *)
Theorem feed_falls_back_to_sample_posts :
  ∀ created cl st,
    (∀ method, MoreProps.no_posts (Env.database_call cl method [])) →
    let run := Home.initial_load 3 created (Some cl) st in
    Home.posts run.2 = Home.SAMPLE_POSTS created
    ∧ Home.usingSampleData run.2 = true
    ∧ Home.loading run.2 = false
    ∧ Home.error run.2 = "Could not fetch posts from Hive. Showing sample content."
    ∧ Home.category run.2
      = (if String.eqb (Home.category st) "trending" then "created"
         else if String.eqb (Home.category st) "hot" then "created"
         else Home.category st)
    ∧ length run.1
      = (if String.eqb (Home.category st) "trending" then 3
         else if String.eqb (Home.category st) "hot" then 2 else 1)%nat
    ∧ ∀ n, Home.initial_load (3 + n) created (Some cl) st = run.
Proof.
  intros created cl st Hnone.
  assert (Hstep : ∀ n s,
    String.eqb (Home.category s) "trending" = false →
    String.eqb (Home.category s) "hot" = false →
    Home.initial_load (S n) created (Some cl) s
    = ([Env.DatabaseCall ("get_discussions_by_" +:+ Home.category s) []],
       {| Home.posts := Home.SAMPLE_POSTS created; Home.loading := false;
          Home.error := "Could not fetch posts from Hive. Showing sample content.";
          Home.category := Home.category s; Home.hasMore := Home.hasMore s;
          Home.lastPost := None; Home.usingSampleData := true |})).
  { intros n s Ht Hh. rewrite initial_load_S, fetchPosts_no_posts by apply Hnone.
    rewrite Ht, Hh. cbv beta iota zeta. cbn [Home.category].
    by rewrite String.eqb_refl. }
  assert (Hhot : ∀ n s,
    Home.category s = "hot" →
    Home.initial_load (S (S n)) created (Some cl) s
    = ([Env.DatabaseCall "get_discussions_by_hot" [];
        Env.DatabaseCall "get_discussions_by_created" []],
       {| Home.posts := Home.SAMPLE_POSTS created; Home.loading := false;
          Home.error := "Could not fetch posts from Hive. Showing sample content.";
          Home.category := "created"; Home.hasMore := Home.hasMore s;
          Home.lastPost := None; Home.usingSampleData := true |})).
  { intros n s Hs. rewrite initial_load_S, fetchPosts_no_posts by apply Hnone.
    rewrite Hs. simpl String.eqb. cbv beta iota zeta. cbn [Home.category].
    simpl String.eqb. cbv iota. by rewrite Hstep. }
  assert (Htrending : ∀ n s,
    Home.category s = "trending" →
    Home.initial_load (S (S (S n))) created (Some cl) s
    = ([Env.DatabaseCall "get_discussions_by_trending" [];
        Env.DatabaseCall "get_discussions_by_hot" [];
        Env.DatabaseCall "get_discussions_by_created" []],
       {| Home.posts := Home.SAMPLE_POSTS created; Home.loading := false;
          Home.error := "Could not fetch posts from Hive. Showing sample content.";
          Home.category := "created"; Home.hasMore := Home.hasMore s;
          Home.lastPost := None; Home.usingSampleData := true |})).
  { intros n s Hs. rewrite initial_load_S, fetchPosts_no_posts by apply Hnone.
    rewrite Hs. simpl String.eqb. cbv beta iota zeta. cbn [Home.category].
    simpl String.eqb. cbv iota. by rewrite Hhot. }
  cbn zeta.
  destruct (String.eqb (Home.category st) "trending") eqn:Ht.
  - apply String.eqb_eq in Ht. rewrite (Htrending 0%nat st Ht). repeat split.
    intros n. apply (Htrending n st Ht).
  - destruct (String.eqb (Home.category st) "hot") eqn:Hh.
    + apply String.eqb_eq in Hh. rewrite (Hhot 1%nat st Hh). repeat split.
      intros n. apply (Hhot (S n) st Hh).
    + rewrite (Hstep 2%nat st Ht Hh). repeat split.
      intros n. apply (Hstep (2 + n)%nat st Ht Hh).
Qed.

(** X18 (witness): a node without posts, a feed opened on 'trending'. *)
Lemma feed_falls_back_to_sample_posts_witness :
  Home.posts
    (Home.initial_load 3 "2026-11-02T17:25:00.000"
       (Some MoreSamples.empty_node) (MoreSamples.feed "trending")).2
  = Home.SAMPLE_POSTS "2026-11-02T17:25:00.000".
Proof.
  apply (feed_falls_back_to_sample_posts "2026-11-02T17:25:00.000"
           MoreSamples.empty_node (MoreSamples.feed "trending")).
  intros method. exists (JS.JArr []). by split.
Defined.

(** X19. A fetch that brings posts shows them and leaves the sample mode,
    but does not clear an error message shown before: [fetchPosts] never
    resets the error. Without a client it shows the sample posts at once,
    with the message 'Hive client not initialized', and calls nothing. *)
Theorem fetched_posts_keep_the_earlier_error :
  (∀ created cl reset st p l,
     Env.database_call cl ("get_discussions_by_" +:+ Home.category st) []
     = JS.Fulfilled (JS.JArr (p :: l)) →
     let st' := (Home.fetchPosts created (Some cl) reset st).2 in
     Home.posts st' = p :: l ∧ Home.usingSampleData st' = false
     ∧ Home.loading st' = false ∧ Home.category st' = Home.category st
     ∧ Home.error st' = Home.error st)
  ∧ (∀ created reset st,
       let run := Home.fetchPosts created None reset st in
       Env.submissions run.1 = []
       ∧ List.filter (λ e, match e with Env.DatabaseCall _ _ => true | _ => false end)
           run.1 = []
       ∧ Home.posts run.2 = Home.SAMPLE_POSTS created
       ∧ Home.usingSampleData run.2 = true
       ∧ Home.error run.2 = "Hive client not initialized"
       ∧ Home.loading run.2 = false).
Proof.
  split.
  - intros created cl reset st p l Hcall. cbn zeta. unfold Home.fetchPosts.
    by rewrite Hcall.
  - intros created reset st. by repeat split.
Qed.

(** X19 (witness): a node that answers one post while an error is shown. *)
Lemma fetched_posts_keep_the_earlier_error_witness :
  Home.error
    (Home.fetchPosts "2026-11-02T17:25:00.000"
       (Some (Sample.ledger (JS.Fulfilled (JS.JArr [JS.JObj []])))) true
       (Home.show_samples "2026-11-02T17:25:00.000" "Failed to fetch posts: timeout"
          (MoreSamples.feed "trending"))).2
  = "Failed to fetch posts: timeout".
Proof.
  refine (proj2 (proj2 (proj2 (proj2
    (proj1 fetched_posts_keep_the_earlier_error "2026-11-02T17:25:00.000"
       (Sample.ledger (JS.Fulfilled (JS.JArr [JS.JObj []]))) true
       (Home.show_samples "2026-11-02T17:25:00.000" "Failed to fetch posts: timeout"
          (MoreSamples.feed "trending"))
       (JS.JObj []) [] eq_refl))))).
Defined.

(* ===================================================================== *)
(** ** Further properties: uploads *)
(* ===================================================================== *)

Section Uploads.
Import JS Env UploadUtils.


Lemma existsb_eqb_elem_of (x : string) (l : list string) :
  existsb (String.eqb x) l = true ↔ x ∈ l.
Proof.
  rewrite existsb_exists. split.
  - intros (y & Hy & ->%String.eqb_eq). by apply list_elem_of_In.
  - intros Hx. exists x. split; [by apply list_elem_of_In|apply String.eqb_refl].
Qed.

End Uploads.

(** X20. Nothing is uploaded for a file that fails validation. A file is
    valid exactly when its size is at most the limit (10 MB unless
    [maxSizeMB] is given) and its type is in the allowed list; for any
    other file [uploadMedia] returns a failure with a non-empty message and
    performs no effect, not even the simulated delay, and a file that is
    too large is reported as such whatever its type. *)
Theorem invalid_files_are_not_uploaded :
  ∀ now1 now2 f o,
    let maxMB := default 10 (UploadUtils.maxSizeMB o) in
    let allowed := default UploadUtils.default_types (UploadUtils.allowedTypes o) in
    (UploadUtils.valid (UploadUtils.validateFile f o) = true
     ↔ UploadUtils.size f ≤ maxMB * 1024 * 1024 ∧ UploadUtils.type f ∈ allowed)
    ∧ (UploadUtils.valid (UploadUtils.validateFile f o) = false →
       (UploadUtils.uploadMedia now1 now2 f o).1 = []
       ∧ UploadUtils.success (UploadUtils.uploadMedia now1 now2 f o).2 = false
       ∧ JS.truthy_opt (UploadUtils.error (UploadUtils.uploadMedia now1 now2 f o).2)
         = true)
    ∧ (maxMB * 1024 * 1024 < UploadUtils.size f →
       UploadUtils.error (UploadUtils.uploadMedia now1 now2 f o).2
       = Some ("File size exceeds " +:+ pretty maxMB +:+ "MB limit")).
Proof.
  intros now1 now2 f o. cbn zeta.
  unfold UploadUtils.uploadMedia, UploadUtils.validateFile.
  destruct (Z.gtb_spec (UploadUtils.size f)
              (default 10 (UploadUtils.maxSizeMB o) * 1024 * 1024)) as [Hbig|Hok].
  - simpl. split; [split; [done|lia]|]. split; [done|]. done.
  - destruct (existsb (String.eqb (UploadUtils.type f))
                (default UploadUtils.default_types (UploadUtils.allowedTypes o)))
      eqn:Hty; simpl.
    + apply existsb_eqb_elem_of in Hty. split; [split; [done|]|].
      * by intros _.
      * split; [done|lia].
    + split; [split; [done|]|].
      * intros [_ Hin]. apply existsb_eqb_elem_of in Hin. congruence.
      * split; [done|lia].
Qed.

(** X20 (witness): an archive is not among the allowed types. *)
Lemma invalid_files_are_not_uploaded_witness :
  (UploadUtils.uploadMedia 1793640300000 1793640301500
     {| UploadUtils.name := "backup.zip"; UploadUtils.size := 1024;
        UploadUtils.type := "application/zip" |} UploadUtils.no_options).1 = [].
Proof.
  apply (proj1 (proj2 (invalid_files_are_not_uploaded
                         1793640300000 1793640301500
                         {| UploadUtils.name := "backup.zip"; UploadUtils.size := 1024;
                            UploadUtils.type := "application/zip" |}
                         UploadUtils.no_options))).
  reflexivity.
Defined.

(** [btoa] on three, two and one characters. *)
Example base64_Man :
  Str.base64 "Man" = "TWFu" ∧ Str.base64 "Ma" = "TWE=" ∧ Str.base64 "M" = "TQ==".
Proof. repeat split. Qed.

(** X21. A valid file is always uploaded through the simulated IPFS
    path. For a file whose name is made of code units up to 255 (the
    strings of this embedding, which [btoa] always encodes), [uploadMedia]
    waits 1500 ms once and resolves to a success whose hash is 'Qm'
    followed by the first 44 characters of the base-64 text of the name,
    the size and the time, at most 46 characters in all; the URL is the
    first gateway followed by the hash, and the three gateway addresses all
    end in it. The fallback service is not used: its delay of 1000 ms is
    not waited for and the second clock is not read. *)
Theorem valid_files_always_get_a_url :
  ∀ now1 now2 f o,
    UploadUtils.valid (UploadUtils.validateFile f o) = true →
    let run := UploadUtils.uploadMedia now1 now2 f o in
    let hash :=
      "Qm" +:+ JS.substring 0 44
                 (Str.base64 (UploadUtils.name f +:+ pretty (UploadUtils.size f)
                              +:+ pretty now1)) in
    run.1 = [Env.SetTimeout 1500]
    ∧ UploadUtils.success run.2 = true
    ∧ UploadUtils.error run.2 = None
    ∧ UploadUtils.hash run.2 = Some hash
    ∧ UploadUtils.url run.2 = Some ("https://ipfs.io/ipfs/" +:+ hash)
    ∧ UploadUtils.gateways run.2
      = ["https://ipfs.io/ipfs/" +:+ hash;
         "https://gateway.pinata.cloud/ipfs/" +:+ hash;
         "https://cloudflare-ipfs.com/ipfs/" +:+ hash]
    ∧ (String.length hash ≤ 46)%nat
    ∧ ∀ now2', UploadUtils.uploadMedia now1 now2' f o = run.
Proof.
  intros now1 now2 f o Hvalid. cbn zeta. unfold UploadUtils.uploadMedia.
  rewrite Hvalid. cbn [negb]. unfold UploadUtils.uploadToIPFS, Str.btoa.
  cbn [UploadUtils.success fst snd].
  repeat (split; [reflexivity|]). split; [|done].
  unfold JS.substring.
  match goal with |- context [JS.take_chars ?n ?s] =>
    pose proof (length_take n s) as Hlen; set (cut := JS.take_chars n s) in * end.
  change (S (S (String.length cut)) ≤ 46)%nat. change (44 - 0)%nat with 44%nat in Hlen.
  lia.
Qed.

(** X21 (witness): a photo of 200 kB. *)
Lemma valid_files_always_get_a_url_witness :
  let run :=
    UploadUtils.uploadMedia 1793640300000 1793640301500 MoreSamples.photo
      UploadUtils.no_options in
  run.1 = [Env.SetTimeout 1500]
  ∧ UploadUtils.success run.2 = true
  ∧ UploadUtils.url run.2
    = Some "https://ipfs.io/ipfs/QmbXkgcGhvdG8ucG5nMjA0ODAwMTc5MzY0MDMwMDAwMA==".
Proof.
  pose proof (valid_files_always_get_a_url 1793640300000 1793640301500
                MoreSamples.photo UploadUtils.no_options eq_refl) as H.
  cbn zeta in H. destruct H as (He & Hs & _ & _ & Hu & _).
  split; [exact He|]. split; [exact Hs|]. rewrite Hu. reflexivity.
Defined.

(* ===================================================================== *)
(** ** Further properties: the chat store *)
(* ===================================================================== *)

Section ChatFacts.
Import JS Env ChatUtils.

Lemma code_inj x y : code x = code y → x = y.
Proof.
  unfold code. intros H.
  rewrite <- (ascii_nat_embedding x), <- (ascii_nat_embedding y). by rewrite H.
Qed.

Lemma str_ltb_asym a b : str_ltb a b = true → str_ltb b a = false.
Proof.
  revert b. induction a as [|x a IH]; intros [|y b]; simpl; try done.
  destruct (Nat.ltb_spec (code x) (code y)), (Nat.ltb_spec (code y) (code x));
    try done; try lia.
  apply IH.
Qed.

Lemma str_ltb_total a b : str_ltb a b = false → str_ltb b a = false → a = b.
Proof.
  revert b. induction a as [|x a IH]; intros [|y b]; simpl; try done.
  destruct (Nat.ltb_spec (code x) (code y)), (Nat.ltb_spec (code y) (code x));
    try done; try lia.
  intros Hab Hba. f_equal; [apply code_inj; lia|by apply IH].
Qed.

Lemma sort_pair_comm a b : sort_pair a b = sort_pair b a.
Proof.
  unfold sort_pair.
  destruct (str_ltb b a) eqn:Hba, (str_ltb a b) eqn:Hab; try done.
  - by rewrite (str_ltb_asym _ _ Hba) in Hab.
  - by rewrite (str_ltb_total a b Hab Hba).
Qed.

Lemma find_app_none {A : Type} (p : A → bool) (l : list A) (x : A) :
  List.find p l = None → p x = true → List.find p (l ++ [x]) = Some x.
Proof.
  induction l as [|y l IH]; simpl; intros Hnone Hx; [by rewrite Hx|].
  destruct (p y); [done|]. by apply IH.
Qed.

Lemma length_update_first {A : Type} (p : A → bool) (f : A → A) (l : list A) :
  length (update_first p f l) = length l.
Proof.
  induction l as [|x l IH]; simpl; [done|].
  destruct (p x); simpl; by rewrite ?IH.
Qed.

Lemma update_first_idemp {A : Type} (p : A → bool) (f : A → A) (l : list A) :
  (∀ x, p (f x) = p x) → (∀ x, f (f x) = f x) →
  update_first p f (update_first p f l) = update_first p f l.
Proof.
  intros Hp Hf. induction l as [|x l IH]; simpl; [done|].
  destruct (p x) eqn:Hx; simpl.
  - by rewrite Hp, Hx, Hf.
  - by rewrite Hx, IH.
Qed.

Lemma mark_read_idemp u m : mark_read u (mark_read u m) = mark_read u m.
Proof.
  unfold mark_read. destruct (negb (String.eqb (sender m) u)) eqn:Hs; simpl.
  - by rewrite Hs.
  - by rewrite Hs.
Qed.

Lemma caught_is_a_failure e fallback :
  truthy fallback = true →
  success (caught e fallback) = false
  ∧ truthy_opt (error (caught e fallback)) = true.
Proof. intros Hf. split; [done|]. simpl. by apply or_else_truthy. Qed.

End ChatFacts.

(** X22. The identifier of a conversation does not depend on who starts
    it. For two non-empty names, neither of them the name of a property
    every object inherits, the two names are sorted before they are joined, so
    [createConversation(a, b)] and [createConversation(b, a)] work on the
    conversation 'conv-<first>-<second>' of the same identifier, and the
    conversation returned carries that identifier. *)
Theorem conversation_id_is_symmetric :
  ∀ e a b st st',
    JS.truthy a = true → JS.truthy b = true →
    ChatUtils.inherited a = false → ChatUtils.inherited b = false →
    ChatUtils.conversation_id a b = ChatUtils.conversation_id b a
    ∧ ChatUtils.conv_id
        <$> ChatUtils.r_conversation (ChatUtils.createConversation e a b st).2
      = Some (ChatUtils.conversation_id a b)
    ∧ ChatUtils.conv_id
        <$> ChatUtils.r_conversation (ChatUtils.createConversation e b a st').2
      = Some (ChatUtils.conversation_id a b).
Proof.
  intros e a b st st' Ha Hb Hia Hib.
  assert (Hsym : ChatUtils.conversation_id a b = ChatUtils.conversation_id b a).
  { unfold ChatUtils.conversation_id. by rewrite sort_pair_comm. }
  assert (Hid : ∀ x y s, JS.truthy x = true → JS.truthy y = true →
    ChatUtils.inherited x = false →
    ChatUtils.conv_id
      <$> ChatUtils.r_conversation (ChatUtils.createConversation e x y s).2
    = Some (ChatUtils.conversation_id x y)).
  { intros x y s Hx Hy Hix.
    unfold ChatUtils.createConversation, ChatUtils.conversation_id.
    rewrite Hx, Hy, Hix. cbn [andb negb].
    destruct (ChatUtils.sort_pair x y) as [p0 p1].
    destruct (List.find _ _) as [c|] eqn:Hfind; simpl; [|done].
    apply find_some in Hfind as [_ Hc]. unfold ChatUtils.has_id in Hc.
    apply String.eqb_eq in Hc. by rewrite Hc. }
  split; [exact Hsym|]. split; [by apply Hid|].
  rewrite Hsym. by apply Hid.
Qed.

(** X22 (witness): "alice" and "bob", in both orders. *)
Lemma conversation_id_is_symmetric_witness :
  ChatUtils.conversation_id "bob" "alice" = ChatUtils.conversation_id "alice" "bob"
  ∧ ChatUtils.conv_id
      <$> ChatUtils.r_conversation
            (ChatUtils.createConversation Sample.type_error "bob" "alice"
               MoreSamples.empty_chat).2
    = Some (ChatUtils.conversation_id "bob" "alice")
  ∧ ChatUtils.conv_id
      <$> ChatUtils.r_conversation
            (ChatUtils.createConversation Sample.type_error "alice" "bob"
               MoreSamples.chat).2
    = Some (ChatUtils.conversation_id "bob" "alice").
Proof.
  apply (conversation_id_is_symmetric Sample.type_error "bob" "alice"
           MoreSamples.empty_chat MoreSamples.chat); reflexivity.
Defined.

(** X23. Creating a conversation twice does nothing the second time: for
    non-empty names, the creator's not being the name of a property every
    object inherits, the second call by the same creator leaves the store
    as the first call left it, waits for nothing, reports [existing] and
    returns the same conversation. *)
Theorem createConversation_is_idempotent :
  ∀ e a b st,
    JS.truthy a = true → JS.truthy b = true →
    ChatUtils.inherited a = false →
    let first := ChatUtils.createConversation e a b st in
    let second := ChatUtils.createConversation e a b first.1.1 in
    second.1.1 = first.1.1 ∧ second.1.2 = []
    ∧ ChatUtils.existing second.2 = true
    ∧ ChatUtils.r_conversation second.2 = ChatUtils.r_conversation first.2.
Proof.
  intros e a b st Ha Hb Hia. cbn zeta. unfold ChatUtils.createConversation.
  rewrite Ha, Hb, Hia. cbn [andb negb].
  destruct (ChatUtils.sort_pair a b) as [p0 p1].
  destruct (List.find _ (default [] (ChatUtils.conversations st !! a)))
    as [c|] eqn:Hfind; simpl.
  - by rewrite Hfind.
  - rewrite lookup_insert_eq. simpl.
    erewrite find_app_none; [done|exact Hfind|].
    unfold ChatUtils.has_id. simpl. apply String.eqb_refl.
Qed.

(** X23 (witness): "alice" starts a conversation with "bob" twice. *)
Lemma createConversation_is_idempotent_witness :
  let first :=
    ChatUtils.createConversation Sample.type_error "alice" "bob"
      MoreSamples.empty_chat in
  let second :=
    ChatUtils.createConversation Sample.type_error "alice" "bob" first.1.1 in
  second.1.1 = first.1.1 ∧ second.1.2 = []
  ∧ ChatUtils.existing second.2 = true
  ∧ ChatUtils.r_conversation second.2 = ChatUtils.r_conversation first.2.
Proof.
  apply (createConversation_is_idempotent Sample.type_error "alice" "bob"
           MoreSamples.empty_chat); reflexivity.
Defined.

(** X24. Starting a conversation that the creator (a non-empty name that
    no object inherits as a property) does not list yet
    empties its messages: whatever was stored under that identifier, for
    instance by the other participant, is replaced by the empty list, the
    messages of every other conversation being untouched. *)
Theorem createConversation_empties_the_messages :
  ∀ e a b st,
    JS.truthy a = true → JS.truthy b = true →
    ChatUtils.inherited a = false →
    List.find (ChatUtils.has_id (ChatUtils.conversation_id a b))
      (default [] (ChatUtils.conversations st !! a)) = None →
    let st' := (ChatUtils.createConversation e a b st).1.1 in
    ChatUtils.messages st' !! ChatUtils.conversation_id a b = Some []
    ∧ (∀ k, k ≠ ChatUtils.conversation_id a b →
         ChatUtils.messages st' !! k = ChatUtils.messages st !! k)
    ∧ (∀ k, k ≠ a →
         ChatUtils.conversations st' !! k = ChatUtils.conversations st !! k).
Proof.
  intros e a b st Ha Hb Hia. cbn zeta.
  unfold ChatUtils.createConversation, ChatUtils.conversation_id.
  rewrite Ha, Hb, Hia. cbn [andb negb].
  destruct (ChatUtils.sort_pair a b) as [p0 p1]. intros ->. simpl.
  split; [apply lookup_insert_eq|].
  split; intros k Hk; by apply lookup_insert_ne.
Qed.

(** X24 (witness): "alice" opens the conversation in which "bob" had
    stored three messages. *)
Lemma createConversation_empties_the_messages_witness :
  ChatUtils.messages MoreSamples.chat !! "conv-alice-bob"
  = Some [MoreSamples.msg "1" "bob" 1000 true; MoreSamples.msg "2" "alice" 2000 false;
          MoreSamples.msg "3" "bob" 3000 false]
  ∧ ChatUtils.messages
      (ChatUtils.createConversation Sample.type_error "alice" "bob"
         MoreSamples.chat).1.1
    !! ChatUtils.conversation_id "alice" "bob" = Some [].
Proof.
  split; [reflexivity|].
  apply (createConversation_empties_the_messages Sample.type_error "alice" "bob"
           MoreSamples.chat); reflexivity.
Defined.

(** X25. [sendMessage] with three non-empty arguments, none of them the
    name of a property every object inherits, appends exactly one unread
    message to the end of its conversation and touches nothing else in the
    message table; in the table of conversations only the list of the
    sender can change, and it keeps its length. *)
Theorem sendMessage_appends_one_message :
  ∀ e now_id now_ts conv who text st,
    JS.truthy conv = true → JS.truthy who = true → JS.truthy text = true →
    ChatUtils.inherited conv = false → ChatUtils.inherited who = false →
    let run := ChatUtils.sendMessage e now_id now_ts conv who text st in
    let m :=
      {| ChatUtils.msg_id := "msg-" +:+ conv +:+ "-" +:+ pretty now_id;
         ChatUtils.sender := who; ChatUtils.content := text;
         ChatUtils.timestamp := now_ts; ChatUtils.read := false |} in
    ChatUtils.messages run.1.1 !! conv
    = Some (default [] (ChatUtils.messages st !! conv) ++ [m])
    ∧ ChatUtils.r_message run.2 = Some m
    ∧ ChatUtils.success run.2 = true
    ∧ (∀ k, k ≠ conv →
         ChatUtils.messages run.1.1 !! k = ChatUtils.messages st !! k)
    ∧ (∀ k, k ≠ who →
         ChatUtils.conversations run.1.1 !! k = ChatUtils.conversations st !! k)
    ∧ length <$> (ChatUtils.conversations run.1.1 !! who)
      = length <$> (ChatUtils.conversations st !! who).
Proof.
  intros e now_id now_ts conv who text st Hc Hw Ht Hic Hiw. cbn zeta.
  unfold ChatUtils.sendMessage. rewrite Hc, Hw, Ht, Hic, Hiw. cbn [andb negb].
  simpl. split; [apply lookup_insert_eq|]. split; [done|]. split; [done|].
  split; [intros k Hk; by apply lookup_insert_ne|].
  destruct (ChatUtils.conversations st !! who) as [l|] eqn:Hl.
  - split; [intros k Hk; by apply lookup_insert_ne|].
    rewrite lookup_insert_eq. simpl. by rewrite length_update_first.
  - split; [done|]. by rewrite Hl.
Qed.

(** X25 (witness): "alice" answers in the conversation with "bob". *)
Lemma sendMessage_appends_one_message_witness :
  let run :=
    ChatUtils.sendMessage Sample.type_error 1793640300000 1793640300000
      "conv-alice-bob" "alice" "hi" MoreSamples.chat in
  length <$> (ChatUtils.messages run.1.1 !! "conv-alice-bob") = Some 4%nat
  ∧ ChatUtils.success run.2 = true.
Proof.
  pose proof (sendMessage_appends_one_message Sample.type_error 1793640300000
                1793640300000 "conv-alice-bob" "alice" "hi" MoreSamples.chat
                eq_refl eq_refl eq_refl eq_refl eq_refl) as H.
  cbn zeta in *. destruct H as (Hm & _ & Hs & _).
  split; [by rewrite Hm|exact Hs].
Defined.

(** X26. A failure of [sendMessage] does not mean that nothing was
    stored. When the sender is called like a property every object
    inherits ('constructor', 'toString', ...), the message is pushed on the
    conversation first and the look-up of the sender's conversations
    throws afterwards: the call reports a failure with a non-empty error,
    without the simulated delay, and the store holds the message. *)
Theorem sendMessage_can_fail_after_storing :
  ∀ e now_id now_ts conv who text st,
    JS.truthy conv = true → JS.truthy who = true → JS.truthy text = true →
    ChatUtils.inherited conv = false → ChatUtils.inherited who = true →
    let run := ChatUtils.sendMessage e now_id now_ts conv who text st in
    ChatUtils.success run.2 = false
    ∧ JS.truthy_opt (ChatUtils.error run.2) = true
    ∧ ChatUtils.r_message run.2 = None
    ∧ run.1.2 = []
    ∧ ChatUtils.messages run.1.1 !! conv
      = Some (default [] (ChatUtils.messages st !! conv)
              ++ [{| ChatUtils.msg_id := "msg-" +:+ conv +:+ "-" +:+ pretty now_id;
                     ChatUtils.sender := who; ChatUtils.content := text;
                     ChatUtils.timestamp := now_ts; ChatUtils.read := false |}])
    ∧ ChatUtils.conversations run.1.1 = ChatUtils.conversations st.
Proof.
  intros e now_id now_ts conv who text st Hc Hw Ht Hic Hiw. cbn zeta.
  unfold ChatUtils.sendMessage. rewrite Hc, Hw, Ht, Hic, Hiw. cbn [andb negb].
  cbn [fst snd].
  destruct (caught_is_a_failure e "Failed to send message" eq_refl) as [Hs He].
  split; [exact Hs|]. split; [exact He|]. split; [done|]. split; [done|].
  split; [apply lookup_insert_eq|done].
Qed.

(** X26 (witness): a sender called "constructor". *)
Lemma sendMessage_can_fail_after_storing_witness :
  let run :=
    ChatUtils.sendMessage Sample.type_error 1793640300000 1793640300000
      "conv-alice-constructor" "constructor" "hi" MoreSamples.empty_chat in
  ChatUtils.success run.2 = false
  ∧ length <$> (ChatUtils.messages run.1.1 !! "conv-alice-constructor")
    = Some 1%nat.
Proof.
  pose proof (sendMessage_can_fail_after_storing Sample.type_error 1793640300000
                1793640300000 "conv-alice-constructor" "constructor" "hi"
                MoreSamples.empty_chat eq_refl eq_refl eq_refl eq_refl eq_refl)
    as H.
  cbn zeta in *. destruct H as (Hs & _ & _ & _ & Hm & _).
  split; [exact Hs|by rewrite Hm].
Defined.

Section ChatReads.
Import JS Env ChatUtils.

Lemma mark_read_fields u m :
  msg_id (mark_read u m) = msg_id m ∧ sender (mark_read u m) = sender m
  ∧ content (mark_read u m) = content m
  ∧ timestamp (mark_read u m) = timestamp m
  ∧ read (mark_read u m) = read m || negb (String.eqb (sender m) u).
Proof.
  unfold mark_read. destruct (negb (String.eqb (sender m) u)); simpl.
  - by rewrite orb_true_r.
  - by rewrite orb_false_r.
Qed.

Lemma insert_by_time_perm m l : insert_by_time m l ≡ₚ m :: l.
Proof.
  induction l as [|x l IH]; simpl; [done|].
  destruct (timestamp x <? timestamp m); [|done].
  rewrite IH. apply perm_swap.
Qed.

Lemma sort_by_time_perm l : sort_by_time l ≡ₚ l.
Proof.
  induction l as [|x l IH]; simpl; [done|].
  fold (sort_by_time l). by rewrite insert_by_time_perm, IH.
Qed.

Lemma insert_by_time_sorted m l :
  MoreProps.by_time l → MoreProps.by_time (insert_by_time m l).
Proof.
  unfold MoreProps.by_time. induction 1 as [|x l Hs IH Hall]; simpl.
  - repeat constructor.
  - destruct (Z.ltb_spec (timestamp x) (timestamp m)) as [Hlt|Hge].
    + constructor; [exact IH|].
      rewrite insert_by_time_perm. constructor; [lia|exact Hall].
    + constructor; [by constructor|].
      constructor; [lia|]. eapply Forall_impl; [exact Hall|].
      intros y Hy. simpl in Hy. lia.
Qed.

Lemma sort_by_time_sorted l : MoreProps.by_time (sort_by_time l).
Proof.
  induction l as [|x l IH]; simpl; [constructor|].
  by apply insert_by_time_sorted.
Qed.

Lemma by_time_drop n l : MoreProps.by_time l → MoreProps.by_time (drop n l).
Proof.
  unfold MoreProps.by_time. revert l. induction n as [|n IH]; intros l Hl.
  - by rewrite drop_0.
  - destruct l as [|x l]; [done|]. simpl. apply IH. by inversion Hl.
Qed.

Lemma until_id_sublist b l l' : until_id b l = Some l' → l' `sublist_of` l.
Proof.
  revert l'. induction l as [|m l IH]; simpl; intros l' H; [done|].
  destruct (String.eqb (msg_id m) b).
  - inversion H. apply sublist_nil_l.
  - destruct (until_id b l) as [r|]; [|done]. inversion H.
    apply sublist_skip. by apply IH.
Qed.

End ChatReads.

(** X27. [markMessagesAsRead], given a conversation and a user that are
    not empty and not names of properties every object inherits, sets the
    read flag of every message of the
    conversation that somebody else sent and changes no other field and
    no other conversation's messages; doing it a second time changes
    nothing. *)
Theorem markMessagesAsRead_marks_the_others :
  ∀ e conv u st,
    JS.truthy conv = true → JS.truthy u = true →
    ChatUtils.inherited conv = false → ChatUtils.inherited u = false →
    let run := ChatUtils.markMessagesAsRead e conv u st in
    ChatUtils.success run.2 = true
    ∧ (∀ l, ChatUtils.messages st !! conv = Some l →
         ∃ l', ChatUtils.messages run.1.1 !! conv = Some l'
           ∧ Forall2 (λ m m',
               ChatUtils.msg_id m' = ChatUtils.msg_id m
               ∧ ChatUtils.sender m' = ChatUtils.sender m
               ∧ ChatUtils.content m' = ChatUtils.content m
               ∧ ChatUtils.timestamp m' = ChatUtils.timestamp m
               ∧ ChatUtils.read m'
                 = ChatUtils.read m || negb (String.eqb (ChatUtils.sender m) u))
               l l')
    ∧ (∀ k, k ≠ conv →
         ChatUtils.messages run.1.1 !! k = ChatUtils.messages st !! k)
    ∧ (ChatUtils.markMessagesAsRead e conv u run.1.1).1.1 = run.1.1.
Proof.
  intros e conv u st Hc Hu Hic Hiu. cbn zeta.
  unfold ChatUtils.markMessagesAsRead. rewrite Hc, Hu, Hic, Hiu.
  cbn [andb negb fst snd ChatUtils.messages ChatUtils.conversations].
  split; [done|]. split; [|split].
  - intros l Hl. rewrite Hl. eexists. split; [apply lookup_insert_eq|].
    clear Hl. induction l as [|m l IH]; simpl; constructor; [|exact IH].
    apply mark_read_fields.
  - intros k Hk. destruct (ChatUtils.messages st !! conv);
      [by apply lookup_insert_ne|done].
  - f_equal.
    + destruct (ChatUtils.conversations st !! u) as [l|] eqn:Hl.
      * rewrite lookup_insert_eq, insert_insert_eq. f_equal.
        apply update_first_idemp; intros c; reflexivity.
      * by rewrite Hl.
    + destruct (ChatUtils.messages st !! conv) as [l|] eqn:Hl.
      * rewrite lookup_insert_eq, insert_insert_eq. f_equal.
        rewrite <- list_fmap_compose. apply list_fmap_ext.
        intros i m _. apply mark_read_idemp.
      * by rewrite Hl.
Qed.

(** X27 (witness): "alice" reads the conversation with "bob"; the two
    messages of "bob" are read afterwards and her own keeps its flag. *)
Lemma markMessagesAsRead_marks_the_others_witness :
  let run :=
    ChatUtils.markMessagesAsRead Sample.type_error "conv-alice-bob" "alice"
      MoreSamples.chat in
  ChatUtils.success run.2 = true
  ∧ (ChatUtils.markMessagesAsRead Sample.type_error "conv-alice-bob" "alice"
       run.1.1).1.1 = run.1.1.
Proof.
  pose proof (markMessagesAsRead_marks_the_others Sample.type_error
                "conv-alice-bob" "alice" MoreSamples.chat
                eq_refl eq_refl eq_refl eq_refl) as H.
  cbn zeta in *. destruct H as (Hs & _ & _ & Hi). split; [exact Hs|exact Hi].
Defined.

(** X28. For a conversation whose messages are stored, [getMessages]
    leaves the store as it is and returns a page that is in the order of
    the time stamps, is made of stored messages (none more often than it
    is stored), and has at most [limit] messages when the limit is not
    negative. Without
    [before] the page is the whole conversation when it fits in the limit,
    and [hasMore] is false whatever the number of stored messages. *)
Theorem getMessages_pages_the_stored_messages :
  ∀ e now rnd conv limit before st stored,
    JS.truthy conv = true → ChatUtils.inherited conv = false →
    ChatUtils.messages st !! conv = Some stored →
    let run := ChatUtils.getMessages e now rnd conv limit before st in
    run.1.1 = st
    ∧ ChatUtils.success run.2 = true
    ∧ ∃ page, ChatUtils.r_messages run.2 = Some page
        ∧ MoreProps.by_time page
        ∧ page ⊆+ stored
        ∧ (0 ≤ default 20 limit → Z.of_nat (length page) ≤ default 20 limit)
        ∧ (JS.truthy_opt before = false →
             ChatUtils.hasMore run.2 = Some false
             ∧ (Z.of_nat (length stored) ≤ default 20 limit → page ≡ₚ stored)).
Proof.
  intros e now rnd conv limit before st stored Hc Hic Hst. cbn zeta.
  unfold ChatUtils.getMessages. rewrite Hc, Hic, Hst. cbn [negb fst snd].
  split.
  { destruct st as [cs ms]; simpl in *. f_equal. by apply insert_id. }
  split; [done|]. eexists. split; [reflexivity|].
  set (paged := if JS.truthy_opt before
                then default stored (ChatUtils.until_id (default "" before) stored)
                else stored).
  assert (Hsub : paged `sublist_of` stored).
  { unfold paged. destruct (JS.truthy_opt before); [|done].
    destruct (ChatUtils.until_id _ stored) as [l'|] eqn:Hu; simpl; [|done].
    by eapply until_id_sublist. }
  pose proof (sort_by_time_perm paged) as Hperm.
  pose proof (sort_by_time_sorted paged) as Hsorted.
  set (sorted := ChatUtils.sort_by_time paged) in *.
  set (lim := default 20 limit).
  split; [|split; [|split]].
  - destruct (Z.of_nat (length sorted) >? lim); [by apply by_time_drop|done].
  - transitivity sorted.
    + destruct (Z.of_nat (length sorted) >? lim);
        [apply sublist_submseteq, sublist_drop|done].
    + rewrite Hperm. by apply sublist_submseteq.
  - intros Hlim. destruct (Z.gtb_spec (Z.of_nat (length sorted)) lim) as [Hgt|Hle].
    + rewrite length_drop. lia.
    + done.
  - intros Hb. unfold paged in *. rewrite Hb in *. split; [done|].
    intros Hfit.
    destruct (Z.gtb_spec (Z.of_nat (length sorted)) lim) as [Hgt|Hle];
      [|exact Hperm].
    apply Permutation_length in Hperm. lia.
Qed.

(** X28 (witness): the three stored messages of "alice" and "bob", read
    two at a time: the page has the two latest, and [hasMore] is false
    although one message is left. *)
Lemma getMessages_pages_the_stored_messages_witness :
  let run :=
    ChatUtils.getMessages Sample.type_error MoreSamples.clock MoreSamples.draws
      "conv-alice-bob" (Some 2) None MoreSamples.chat in
  run.1.1 = MoreSamples.chat
  ∧ ChatUtils.r_messages run.2
    = Some [MoreSamples.msg "2" "alice" 2000 false;
            MoreSamples.msg "3" "bob" 3000 false]
  ∧ ChatUtils.hasMore run.2 = Some false.
Proof.
  pose proof (getMessages_pages_the_stored_messages Sample.type_error
                MoreSamples.clock MoreSamples.draws "conv-alice-bob" (Some 2) None
                MoreSamples.chat _ eq_refl eq_refl eq_refl) as H.
  cbn zeta in *. destruct H as (Hst & _ & page & _ & _ & _ & _ & Hmore).
  split; [exact Hst|]. split; [reflexivity|]. exact (proj1 (Hmore eq_refl)).
Defined.

Section ChatMocks.
Import JS Env ChatUtils.

Lemma draw_floor (r : Q) :
  (0 <= r)%Q → (r < 1)%Q → 0 ≤ Qfloor (r * 20) ≤ 19.
Proof.
  intros H0 H1. split.
  - change 0 with (Qfloor 0). apply Qfloor_resp_le.
    apply Qmult_le_0_compat; [exact H0|discriminate].
  - assert (Hlt : (inject_Z (Qfloor (r * 20)) < inject_Z 20)%Q).
    { eapply Qle_lt_trans; [apply Qfloor_le|].
      destruct r as [n d]. unfold Qlt in *. simpl in *.
      rewrite ?Pos2Z.inj_mul. lia. }
    rewrite <- Zlt_Qlt in Hlt. lia.
Qed.

Lemma fmap_constant {A B : Type} (g : A → B) (c : B) (l : list A) :
  Forall (λ x, g x = c) l → g <$> l = replicate (length l) c.
Proof.
  induction 1 as [|x l Hx _ IH]; [done|].
  rewrite fmap_cons, Hx, IH. reflexivity.
Qed.

Lemma last_three_unread (n : nat) :
  (3 ≤ n)%nat →
  (λ i : nat, Z.of_nat i <? Z.of_nat n - 3) <$> seq 0 n
  = replicate (n - 3) true ++ replicate 3 false.
Proof.
  intros Hn. pose proof (seq_app (n - 3) 3 0) as Hsplit.
  replace (n - 3 + 3)%nat with n in Hsplit by lia.
  rewrite Hsplit, fmap_app. f_equal.
  - rewrite (fmap_constant _ true).
    + by rewrite length_seq.
    + apply Forall_forall. intros i Hi. apply elem_of_seq in Hi.
      apply Z.ltb_lt. lia.
  - rewrite (fmap_constant _ false).
    + by rewrite length_seq.
    + apply Forall_forall. intros i Hi. apply elem_of_seq in Hi.
      apply Z.ltb_ge. lia.
Qed.

End ChatMocks.

(** X29. The first [getMessages] of a conversation that has no stored
    messages invents them and stores them: between 10 and 29 messages (the
    draw is below 1), numbered from 0 in their identifiers, all read but
    the last three. They are invented once: every later call with the same
    options gives the same page and leaves the store alone, whatever the
    clock and the random draws have become. *)
Theorem unseen_conversation_gets_mock_messages :
  ∀ e now rnd conv limit before st,
    JS.truthy conv = true → ChatUtils.inherited conv = false →
    ChatUtils.messages st !! conv = None →
    (0 <= rnd 0%nat)%Q → (rnd 0%nat < 1)%Q →
    let first := ChatUtils.getMessages e now rnd conv limit before st in
    ∃ made,
      ChatUtils.messages first.1.1 !! conv = Some made
      ∧ (10 ≤ length made ≤ 29)%nat
      ∧ ChatUtils.read <$> made
        = replicate (length made - 3) true ++ replicate 3 false
      ∧ (∀ (i : nat) m, made !! i = Some m →
           ChatUtils.msg_id m = "msg-" +:+ conv +:+ "-" +:+ pretty i)
      ∧ ∀ now' rnd',
          ChatUtils.getMessages e now' rnd' conv limit before first.1.1 = first.
Proof.
  intros e now rnd conv limit before st Hc Hic Hst H0 H1. cbn zeta.
  exists (ChatUtils.mock_messages now rnd conv).
  pose proof (draw_floor _ H0 H1) as Hq.
  assert (Hlen : length (ChatUtils.mock_messages now rnd conv)
                 = Z.to_nat (Qfloor (rnd 0%nat * 20) + 10)).
  { unfold ChatUtils.mock_messages. cbv zeta. by rewrite length_fmap, length_seq. }
  split; [|split; [|split; [|split]]].
  - unfold ChatUtils.getMessages. rewrite Hc, Hic, Hst. cbn [negb fst snd].
    simpl. apply lookup_insert_eq.
  - rewrite Hlen. lia.
  - rewrite Hlen. unfold ChatUtils.mock_messages. cbv zeta.
    rewrite <- list_fmap_compose.
    rewrite <- (last_three_unread (Z.to_nat (Qfloor (rnd 0%nat * 20) + 10)))
      by lia.
    apply list_fmap_ext. intros i j _. unfold compose. cbn [ChatUtils.read].
    rewrite Z2Nat.id by lia. reflexivity.
  - intros i m. unfold ChatUtils.mock_messages. cbv zeta.
    rewrite list_lookup_fmap. intros Hm.
    destruct (seq 0 _ !! i) as [j|] eqn:Hj; [|done].
    apply lookup_seq in Hj as [-> _]. simpl in Hm. by inversion Hm.
  - intros now' rnd'. unfold ChatUtils.getMessages. rewrite Hc, Hic, Hst.
    cbn [negb fst snd ChatUtils.messages ChatUtils.conversations].
    rewrite lookup_insert_eq, insert_insert_eq. reflexivity.
Qed.

(** X29 (witness): a first reading with the draw 1/4 makes 15 messages. *)
Lemma unseen_conversation_gets_mock_messages_witness :
  let first :=
    ChatUtils.getMessages Sample.type_error MoreSamples.clock MoreSamples.draws
      "conv-alice-bob" None None MoreSamples.empty_chat in
  ∃ made,
    ChatUtils.messages first.1.1 !! "conv-alice-bob" = Some made
    ∧ (10 ≤ length made ≤ 29)%nat
    ∧ ChatUtils.read <$> made
      = replicate (length made - 3) true ++ replicate 3 false.
Proof.
  destruct (unseen_conversation_gets_mock_messages Sample.type_error
              MoreSamples.clock MoreSamples.draws "conv-alice-bob" None None
              MoreSamples.empty_chat eq_refl eq_refl (lookup_empty _))
    as (made & Hm & Hl & Hr & _).
  - discriminate.
  - reflexivity.
  - exists made. split; [exact Hm|]. split; [exact Hl|exact Hr].
Defined.

(** X30. The relative date of [formatDate] counts whole units: 'n
    seconds ago' is shown up to one minute, 'n minutes ago' from one
    minute to one hour, 'n hours ago' from one hour to one day and 'n days
    ago' from one day to thirty, n being each time the number of whole
    units in the difference; from thirty days on the locale date is shown.
    A date in the future falls in the first case and is shown as a
    negative number of seconds. *)
Theorem relative_dates_count_whole_units :
  ∀ ms,
    match PostComments.formatDate (Some ms) with
    | PostComments.Ago n unit =>
        (unit = "seconds" ∧ n < 60 ∧ n * 1000 ≤ ms < (n + 1) * 1000
         ∧ (n <? 0) = (ms <? 0))
        ∨ (unit = "minutes" ∧ 1 ≤ n < 60
           ∧ n * 60000 ≤ ms < (n + 1) * 60000)
        ∨ (unit = "hours" ∧ 1 ≤ n < 24
           ∧ n * 3600000 ≤ ms < (n + 1) * 3600000)
        ∨ (unit = "days" ∧ 1 ≤ n < 30
           ∧ n * 86400000 ≤ ms < (n + 1) * 86400000)
    | PostComments.LocaleDate => 2592000000 ≤ ms
    end.
Proof.
  intros ms. unfold PostComments.formatDate. cbv zeta.
  pose proof (Z.div_mod ms 1000 ltac:(lia)) as E1.
  pose proof (Z.mod_pos_bound ms 1000 ltac:(lia)) as B1.
  set (s := ms / 1000) in *.
  pose proof (Z.div_mod s 60 ltac:(lia)) as E2.
  pose proof (Z.mod_pos_bound s 60 ltac:(lia)) as B2.
  set (m := s / 60) in *.
  pose proof (Z.div_mod m 60 ltac:(lia)) as E3.
  pose proof (Z.mod_pos_bound m 60 ltac:(lia)) as B3.
  set (h := m / 60) in *.
  pose proof (Z.div_mod h 24 ltac:(lia)) as E4.
  pose proof (Z.mod_pos_bound h 24 ltac:(lia)) as B4.
  set (d := h / 24) in *.
  destruct (Z.ltb_spec s 60) as [Hs|Hs].
  { left. split; [done|]. split; [lia|]. split; [lia|].
    destruct (Z.ltb_spec s 0), (Z.ltb_spec ms 0); try done; lia. }
  destruct (Z.ltb_spec m 60) as [Hm|Hm].
  { right; left. split; [done|]. lia. }
  destruct (Z.ltb_spec h 24) as [Hh|Hh].
  { right; right; left. split; [done|]. lia. }
  destruct (Z.ltb_spec d 30) as [Hd|Hd].
  { right; right; right. split; [done|]. lia. }
  lia.
Qed.
